(** * Boundary resolution and polygon repair of the AIXM airspace converter

    A shallow embedding of [src/airspace-converter.js] (class
    [AirspaceConverter]): the boundary resolver [createPolygonGeometry] with
    its line, arc and circle handlers, and the repair pipeline [fixGeometry],
    [createFixedPolygon], [removeDuplicates] and [removeOverlapPoints].

    Conventions of the embedding.
    - A GeoJSON position [[lon, lat]] is a pair of exact numbers; the
      rounding of JavaScript doubles is outside the model.
    - A [throw] is the [Throw] case of [Result]; a [try]/[catch] is a match.
    - The converter's fields ([ident], [seqno], [boundaryCoordinates]) are a
      record that is passed in and, where the method writes to it, returned.
    - The third-party packages (turf, jsts, coordinate-parser) are not part
      of the repository: their functions are the fields of the class
      [Libraries], and the theorems hold for all of its instances. The two
      calls the assembler rests on, turf's [lineToPolygon] and
      geojson-rewind's [rewind], are modelled from section 4.5 of the
      specification instead. *)

From Stdlib Require Import ZArith QArith List Bool String Ascii Lia.
Import ListNotations.
Local Open Scope Z_scope.
Local Open Scope list_scope.


(** ** JavaScript built-ins used by the converter *)

Module JS.

(** Whitespace as [String.prototype.trim] and the regex class [\s] see it,
    restricted to the ASCII range. *)
Definition isSpace (c : ascii) : bool :=
  let n := nat_of_ascii c in
  ((9 <=? n) && (n <=? 13))%nat || (n =? 32)%nat.

(** The regex class [\d] (and [[0-9]]). *)
Definition isDigit (c : ascii) : bool :=
  let n := nat_of_ascii c in
  ((48 <=? n) && (n <=? 57))%nat.

Definition digitValue (c : ascii) : Z := Z.of_nat (nat_of_ascii c) - 48.

Fixpoint trimStart (s : string) : string :=
  match s with
  | String c r => if isSpace c then trimStart r else s
  | EmptyString => EmptyString
  end.

Fixpoint rev_string (s acc : string) : string :=
  match s with
  | EmptyString => acc
  | String c r => rev_string r (String c acc)
  end.

Definition trimEnd (s : string) : string :=
  rev_string (trimStart (rev_string s EmptyString)) EmptyString.

(** [s.trim()] *)
Definition trim (s : string) : string := trimEnd (trimStart s).

(** [s.substring(from, to)] for [from <= to]; like the built-in it returns
    what is there when the string is shorter. *)
Definition substring (from to : nat) (s : string) : string :=
  String.substring from (to - from) s.

(** [s.split(' ')]: the pieces between single blanks, empty pieces kept. *)
Fixpoint split_blank (s cur : string) : list string :=
  match s with
  | EmptyString => [rev_string cur EmptyString]
  | String c r =>
      if Ascii.eqb c " "%char
      then rev_string cur EmptyString :: split_blank r EmptyString
      else split_blank r (String c cur)
  end.

Definition split (s : string) : list string := split_blank s EmptyString.

Definition Qltb (x y : Q) : bool := negb (Qle_bool y x).

Definition Qabs' (x : Q) : Q := if Qle_bool 0 x then x else Qopp x.

Definition floor (x : Q) : Z := Qnum x / Zpos (Qden x).

(** The first decimal digit of a positive number written in exponent
    notation: scale by ten until the value lies in [1, 10). *)
Fixpoint leadingDigitUp (fuel : nat) (x : Q) : Z :=
  match fuel with
  | O => 0
  | S f => if Qle_bool 1 x then floor x else leadingDigitUp f (x * 10)%Q
  end.

Fixpoint leadingDigitDown (fuel : nat) (x : Q) : Z :=
  match fuel with
  | O => 0
  | S f => if Qltb x 10 then floor x else leadingDigitDown f (x / 10)%Q
  end.

(** [parseInt(x)] for a number [x]: the number is first written as a
    string. Between 1e-6 and 1e21 that string is plain decimal notation
    and the integer in front of the point is the truncation of [x] toward
    zero; outside it is exponent notation ("5e-7", "1e+21") and the
    integer read is the first digit. *)
Definition parseInt (x : Q) : Z :=
  let a := Qabs' x in
  let sign := if Qle_bool 0 x then 1 else -1 in
  if Qeq_bool x 0 then 0
  else if Qltb a (1 # 1000000) then
    sign * leadingDigitUp (S (Pos.to_nat (Pos.size (Qden a)))) a
  else if Qltb a (inject_Z (10 ^ 21)) then
    Z.quot (Qnum x) (Zpos (Qden x))
  else
    sign * leadingDigitDown (S (Z.to_nat (Z.log2 (Qnum a)))) a.

(** The digits at the front of a string, as a number, and the rest. *)
Fixpoint readDigits (s : string) (acc : Z) (n : nat) : Z * nat * string :=
  match s with
  | String c r =>
      if isDigit c then readDigits r (10 * acc + digitValue c) (S n)
      else (acc, n, s)
  | EmptyString => (acc, n, s)
  end.

(** [parseFloat(s)] on the strings the converter hands to it: an unsigned
    decimal literal [digits] or [digits.digits] at the front of the string
    (after leading blanks), anything behind it ignored; [None] is [NaN].
    Signs and exponents cannot reach it, the radius pattern excludes them.
    The value is exact here, where the built-in answers with the nearest
    double; on the whole numbers up to 2^53 the two agree. *)
Definition parseFloat (s : string) : option Q :=
  let '(int, n, rest) := readDigits (trimStart s) 0 O in
  match n with
  | O => None
  | S _ =>
      match rest with
      | String "." r =>
          let '(frac, m, _) := readDigits r 0 O in
          Some (inject_Z int + inject_Z frac / inject_Z (10 ^ Z.of_nat m))%Q
      | _ => Some (inject_Z int)
      end
  end.

End JS.

(** ** Results of fallible calls *)

Inductive Result (E A : Type) : Type :=
| Ok (a : A)
| Throw (e : E).

Arguments Ok {E A} a.
Arguments Throw {E A} e.

Definition bind {E A B} (m : Result E A) (k : A -> Result E B) : Result E B :=
  match m with
  | Ok a => k a
  | Throw e => Throw e
  end.

Notation "x <- m ;; k" := (bind m (fun x => k))
  (at level 61, m at next level, right associativity).

(** [try m catch (e) handler] *)
Definition tryCatch {E A} (m : Result E A) (handler : E -> Result E A) : Result E A :=
  match m with
  | Ok a => Ok a
  | Throw e => handler e
  end.

(** ** Data model *)

(** A GeoJSON position [[lon, lat]]. The unit is fixed and the same for both
    axes; with arc-seconds a DMS token ("DDMMSS") is an integer. *)
Definition Coord : Type := (Z * Z)%type.

Definition Coord_eqb (a b : Coord) : bool :=
  (fst a =? fst b) && (snd a =? snd b).

(** A GeoJSON Polygon geometry, [{ type: 'Polygon', coordinates }]. *)
Record Geometry : Type := { coordinates : list (list Coord) }.

(** The value under the [arc] key; [None] is an absent (null) attribute. *)
Record ArcDefinition : Type := {
  dir : option string;
  radius : option string;
  centre : option string;
  to : option string
}.

(** The value under the [circle] key. *)
Record CircleDefinition : Type := {
  circleRadius : option string;
  circleCentre : option string
}.

(** One object of the [boundary] array, told apart by its first key as
    [createPolygonGeometry] does. [line None] is a value that is no array,
    [arc None] and [circle None] are a null value under the key. *)
Inductive BoundaryDefinition : Type :=
| line (coordinates : option (list string))
| arc (definition : option ArcDefinition)
| circle (definition : option CircleDefinition)
| otherKey (boundaryType : option string).

(** [src/default-config.js] and the constructor's [config]. *)
Record Config : Type := {
  validateGeometries : bool;
  fixGeometries : bool;
  geometryDetail : Z;
  strictSchemaValidation : bool
}.

Definition DEFAULT_CONFIG : Config :=
  {| validateGeometries := true;
     fixGeometries := false;
     geometryDetail := 100;
     strictSchemaValidation := false |}.

(** The fields of an [AirspaceConverter] the geometry code reads and writes. *)
Record AirspaceConverter : Type := {
  config : Config;
  ident : option string;
  seqno : option Z;
  boundaryCoordinates : list Coord
}.

Definition setBoundaryCoordinates (this : AirspaceConverter) (cs : list Coord)
  : AirspaceConverter :=
  {| config := config this; ident := ident this; seqno := seqno this;
     boundaryCoordinates := cs |}.

(** [reset()] *)
Definition reset (this : AirspaceConverter) : AirspaceConverter :=
  {| config := config this; ident := None; seqno := None;
     boundaryCoordinates := [] |}.

(** What is thrown. A message built from a template keeps the values put
    into it; where the source prints [JSON.stringify(boundaryDefinition)] the
    definition itself is kept. *)
Inductive Error : Type :=
| TypeError
    (* a null value was destructured, spread or dereferenced *)
| LibraryError (message : string)
    (* thrown inside a third-party package *)
| DegeneratePolygon
    (* the assembler's rejection of a ring of fewer than four points *)
| UnsupportedBoundaryType (boundaryType : option string)
    (ident : option string) (seqno : option Z)
    (* Unsupported boundary type '..' for airspace '..' in sequence number '..' *)
| InvalidLineDefinition (definition : BoundaryDefinition)
    (ident : option string) (seqno : option Z)
    (* Invalid line boundary definition '..' for airspace '..' in sequence number '..' *)
| InvalidLineCoordinate (coordinate : string) (definition : BoundaryDefinition)
    (ident : option string) (seqno : option Z)
    (* Invalid coordinate '..' in line boundary definition '..' for airspace .. *)
| InvalidArcDefinition (definition : BoundaryDefinition)
    (ident : option string) (seqno : option Z)
    (* Invalid arc boundary definition '..' for airspace '..' in sequence number '..' *)
| PreviousCoordinateMissing (definition : BoundaryDefinition)
    (ident : option string) (seqno : option Z)
    (* Invalid arc boundary definition '..' for airspace '..' in sequence
       number '..'. Previous coordinate pair is missing. *)
| InvalidArcField (field : string) (value : option string)
    (definition : BoundaryDefinition) (ident : option string) (seqno : option Z)
    (* Invalid arc 'direction'|'radius'|'centre'|'to' '..' in arc boundary
       definition '..' for airspace '..' in sequence number '..' *)
| FailedToTransformCoordinates (coordinateString : string)
    (ident : option string) (seqno : option Z)
    (* Failed to transform coordinates '..' for airspace '..' in sequence number '..' *)
| FailedToCreateFixedGeometry (ident : option string) (seqno : option Z)
    (cause : Error)
    (* Failed to create fixed geometry for airspace '..' in sequence number
       '..'. ${e.message} *)
| InvalidGeometry (ident : option string) (seqno : option Z) (selfIntersect : bool)
    (* Invalid geometry for airspace '..' in sequence number '..' *).

Definition Res (A : Type) : Type := Result Error A.

(** ** The third-party packages *)

(** What [new Coordinates(s)] of coordinate-parser answers to
    [getLatitude()] and [getLongitude()]. *)
Record ParsedCoordinates : Type := { getLatitude : Z; getLongitude : Z }.

(** The functions the converter imports. Numbers that are not positions
    (kilometres, degrees of bearing, square metres) are rationals. A radius
    is [None] when it is [NaN]. *)
Class Libraries : Type := {
  (* @turf/turf *)
  distance : Coord -> Coord -> Q;
    (* distance(a, b, { units: 'kilometers' }) *)
  calcBearing : Coord -> Coord -> Q;
    (* bearing(a, b), in degrees *)
  createArc : Coord -> option Q -> Q -> Q -> Z -> Res (list Coord);
    (* lineArc(center, radiusKm, bearing1, bearing2, { steps }).geometry.coordinates *)
  createCircle : Coord -> option Q -> Z -> Res (list Coord);
    (* the one ring of circle(center, radiusKm, { steps }).geometry.coordinates *)
  unkinkPolygon : Geometry -> Res (list Geometry);
    (* the geometries of unkinkPolygon(polygon).features *)
  getArea : Geometry -> Q;
    (* area(feature) *)
  envelope : list Coord -> Res Geometry;
    (* envelope(featureCollection(points)).geometry *)
  (* coordinate-parser *)
  Coordinates : string -> option ParsedCoordinates;
    (* new Coordinates(s); None when the constructor throws *)
  (* jsts *)
  IsValidOp_isValid : Geometry -> bool;
  IsSimpleOp_isSimple : Geometry -> bool;
  IsSimpleOp_isSimpleLinearGeometry : Geometry -> bool;
  ConsistentAreaTester_isNodeConsistentArea : Geometry -> bool;
  ConsistentAreaTester_getInvalidPoint : Geometry -> Coord
}.

(** ** Patterns *)

(** Exactly [n] digits at the front; the rest of the string. *)
Fixpoint digitsExact (n : nat) (s : string) : option string :=
  match n with
  | O => Some s
  | S k =>
      match s with
      | String c r => if JS.isDigit c then digitsExact k r else None
      | EmptyString => None
      end
  end.

Definition isOneOf (c a b : ascii) : bool := Ascii.eqb c a || Ascii.eqb c b.

(** [REGEX_COORDINATES = /^[0-9]{6}[NS]\s+[0-9]{7}[EW]$/] *)
Definition REGEX_COORDINATES (s : string) : bool :=
  match digitsExact 6 s with
  | Some (String h (String sp r)) =>
      isOneOf h "N" "S" && JS.isSpace sp &&
      match digitsExact 7 (JS.trimStart r) with
      | Some (String e EmptyString) => isOneOf e "E" "W"
      | _ => false
      end
  | _ => false
  end.

(** [REGEX_ARC_DIR = /^(cw|ccw)$/] *)
Definition REGEX_ARC_DIR (s : string) : bool :=
  String.eqb s "cw" || String.eqb s "ccw".

(** [REGEX_ARC_RADIUS = /^(\d+(\.\d+)?)\s*(NM|nm)?$/] *)
Definition REGEX_ARC_RADIUS (s : string) : bool :=
  let '(_, n, rest) := JS.readDigits s 0 O in
  match n with
  | O => false
  | S _ =>
      let afterNumber :=
        match rest with
        | String "." r =>
            let '(_, m, r') := JS.readDigits r 0 O in
            match m with O => rest | S _ => r' end
        | _ => rest
        end in
      let unit := JS.trimStart afterNumber in
      String.eqb unit "" || String.eqb unit "NM" || String.eqb unit "nm"
  end.

(** [REGEX.test(value)]: an absent value is tested as the text "undefined"
    or "null", which none of the patterns matches. *)
Definition test (regex : string -> bool) (value : option string) : bool :=
  match value with
  | Some s => regex s
  | None => false
  end.

(** ** The assembler's library calls *)

Definition sameXY (a b : Coord) : bool := Coord_eqb a b.

(** Modelled from the spec: turf's [lineString] and [lineToPolygon] are not
    in the repository. Section 4.5: "If the first and last points differ,
    append a copy of the first point to close the ring (auto-completion)." *)
Definition autoCompleteCoords (coords : list Coord) : list Coord :=
  match coords with
  | [] => []
  | first :: _ =>
      if sameXY first (last coords first) then coords else coords ++ [first]
  end.

(** Modelled from the spec: turf's [lineToPolygon] is not in the
    repository. Section 4.5: "Reject rings with fewer than 4 points after
    closure (DegeneratePolygon)." The one ring becomes the only ring of the
    polygon. The sequences of fewer than two positions, which turf's
    [lineString] refuses before, are among those rejected here. *)
Definition lineToPolygon (coords : list Coord) : Res Geometry :=
  let ring := autoCompleteCoords coords in
  if (List.length ring <? 4)%nat then Throw DegeneratePolygon
  else Ok {| coordinates := [ring] |}.

(** The shoelace term of the edge from [a] to [b]. *)
Definition cross (a b : Coord) : Z := fst a * snd b - fst b * snd a.

(** Modelled from the spec: the "signed area of the ring" of section 4.5,
    which geojson-rewind computes and the repository does not: twice the
    area, by the shoelace sum over consecutive points, positive for a
    counter-clockwise ring. *)
Fixpoint signedArea2 (ring : list Coord) : Z :=
  match ring with
  | a :: ((b :: _) as rest) => cross a b + signedArea2 rest
  | _ => 0
  end.

(** Modelled from the spec: @mapbox/geojson-rewind is not in the repository.
    Section 4.5: "Reorient the ring so it satisfies the counter-clockwise
    exterior convention (computed via the signed area of the ring: negative
    signed area => reverse point order)." *)
Definition rewindRing (ring : list Coord) : list Coord :=
  if signedArea2 ring <? 0 then rev ring else ring.

(** Modelled from the spec: [rewind(polygonFeature, false)] reorients the
    exterior ring, the first of [coordinates]. *)
Definition rewind (g : Geometry) : Geometry :=
  match coordinates g with
  | [] => g
  | exterior :: holes => {| coordinates := rewindRing exterior :: holes |}
  end.

(** ** The converter *)

Section Converter.

Context {L : Libraries}.

(** [formatLatitude] inside [transformCoordinates] *)
Definition formatLatitude (coord : string) : string :=
  let coord := JS.trim coord in
  let deg := JS.substring 0 2 coord in
  let min := JS.substring 2 4 coord in
  let sec := JS.substring 4 6 coord in
  let ordinalDir := JS.substring 6 7 coord in
  (deg ++ ":" ++ min ++ ":" ++ sec ++ " " ++ ordinalDir)%string.

(** [formatLongitude] inside [transformCoordinates] *)
Definition formatLongitude (coord : string) : string :=
  let coord := JS.trim coord in
  let deg := JS.substring 0 3 coord in
  let min := JS.substring 3 5 coord in
  let sec := JS.substring 5 7 coord in
  let ordinalDir := JS.substring 7 8 coord in
  (deg ++ ":" ++ min ++ ":" ++ sec ++ " " ++ ordinalDir)%string.

(** [transformCoordinates(coordinateString)]. Whatever is thrown inside the
    [try], also the [TypeError] of trimming a missing second piece, is
    replaced by the one message. *)
Definition transformCoordinates (this : AirspaceConverter)
    (coordinateString : string) : Res Coord :=
  match JS.split coordinateString with
  | coordLat :: coordLon :: _ =>
      let lat := formatLatitude coordLat in
      let lon := formatLongitude coordLon in
      let parserCoordinate := (lat ++ "," ++ lon)%string in
      match Coordinates parserCoordinate with
      | Some coord => Ok (getLongitude coord, getLatitude coord)
      | None =>
          Throw (FailedToTransformCoordinates coordinateString
                   (ident this) (seqno this))
      end
  | _ =>
      Throw (FailedToTransformCoordinates coordinateString
               (ident this) (seqno this))
  end.

(** The loop of [createCoordinatesFromLine] over the tokens. *)
Fixpoint lineCoords (this : AirspaceConverter)
    (boundaryDefinition : BoundaryDefinition) (coordinates : list string)
    : Res (list Coord) :=
  match coordinates with
  | [] => Ok []
  | coordinate :: rest =>
      if REGEX_COORDINATES coordinate then
        coord <- transformCoordinates this coordinate ;;
        coords <- lineCoords this boundaryDefinition rest ;;
        Ok (coord :: coords)
      else
        Throw (InvalidLineCoordinate coordinate boundaryDefinition
                 (ident this) (seqno this))
  end.

(** [createCoordinatesFromLine(boundaryDefinition)], called for a
    definition whose first key is [line]. *)
Definition createCoordinatesFromLine (this : AirspaceConverter)
    (boundaryDefinition : BoundaryDefinition) (value : option (list string))
    : Res (list Coord) :=
  match value with
  | None | Some [] =>
      Throw (InvalidLineDefinition boundaryDefinition (ident this) (seqno this))
  | Some coordinates => lineCoords this boundaryDefinition coordinates
  end.

(** [this.boundaryCoordinates[this.boundaryCoordinates.length - 1]] *)
Definition lastCoordOf (cs : list Coord) : option Coord :=
  match cs with
  | [] => None
  | _ => nth_error cs (List.length cs - 1)
  end.

(** [parseFloat(radius.split(' ')[0].trim()) * 1.852] *)
Definition radiusToKm (radius : string) : option Q :=
  let radiusValue := JS.trim (hd EmptyString (JS.split radius)) in
  match JS.parseFloat radiusValue with
  | Some v => Some (v * (1852 # 1000))%Q
  | None => None
  end.

(** [createCoordinatesFromArc(boundaryDefinition)], called for a
    definition whose first key is [arc]. *)
Definition createCoordinatesFromArc (this : AirspaceConverter)
    (boundaryDefinition : BoundaryDefinition) (value : option ArcDefinition)
    : Res (list Coord) :=
  match value with
  | None => Throw TypeError
  | Some a =>
      let lastCoord := lastCoordOf (boundaryCoordinates this) in
      let isValidDir := test REGEX_ARC_DIR (dir a) in
      let isValidRadius := test REGEX_ARC_RADIUS (radius a) in
      let isValidCentre := test REGEX_COORDINATES (centre a) in
      let isValidTo := test REGEX_COORDINATES (to a) in
      match lastCoord with
      | None =>
          Throw (PreviousCoordinateMissing boundaryDefinition
                   (ident this) (seqno this))
      | Some lastCoord =>
          match dir a, radius a, centre a, to a with
          | Some dir, Some radius, Some centre, Some to =>
              if negb isValidDir then
                Throw (InvalidArcField "direction" (Some dir) boundaryDefinition
                         (ident this) (seqno this))
              else if negb isValidRadius then
                Throw (InvalidArcField "radius" (Some radius) boundaryDefinition
                         (ident this) (seqno this))
              else if negb isValidCentre then
                Throw (InvalidArcField "centre" (Some centre) boundaryDefinition
                         (ident this) (seqno this))
              else if negb isValidTo then
                Throw (InvalidArcField "to" (Some to) boundaryDefinition
                         (ident this) (seqno this))
              else
                let isClockwise := String.eqb dir "cw" in
                let startPoint := lastCoord in
                centerPoint <- transformCoordinates this centre ;;
                endPoint <- transformCoordinates this to ;;
                let '(startPoint, endPoint) :=
                  if isClockwise then (startPoint, endPoint)
                  else (endPoint, startPoint) in
                let radiusKm := radiusToKm radius in
                let startBearing := calcBearing centerPoint startPoint in
                let endBearing := calcBearing centerPoint endPoint in
                arc <- createArc centerPoint radiusKm startBearing endBearing
                         (geometryDetail (config this)) ;;
                Ok (if isClockwise then arc else rev arc)
          | _, _, _, _ =>
              Throw (InvalidArcDefinition boundaryDefinition
                       (ident this) (seqno this))
          end
      end
  end.

(** [createCoordinatesFromCircle(boundaryDefinition)], called for a
    definition whose first key is [circle]. Its messages are those of the
    arc handler. *)
Definition createCoordinatesFromCircle (this : AirspaceConverter)
    (boundaryDefinition : BoundaryDefinition) (value : option CircleDefinition)
    : Res (list Coord) :=
  match value with
  | None => Throw TypeError
  | Some c =>
      let isValidRadius := test REGEX_ARC_RADIUS (circleRadius c) in
      let isValidCentre := test REGEX_COORDINATES (circleCentre c) in
      match circleRadius c, circleCentre c with
      | Some radius, Some centre =>
          if negb isValidRadius then
            Throw (InvalidArcField "radius" (Some radius) boundaryDefinition
                     (ident this) (seqno this))
          else if negb isValidCentre then
            Throw (InvalidArcField "centre" (Some centre) boundaryDefinition
                     (ident this) (seqno this))
          else
            let radiusKm := radiusToKm radius in
            centerPoint <- transformCoordinates this centre ;;
            createCircle centerPoint radiusKm (geometryDetail (config this))
      | _, _ =>
          Throw (InvalidArcDefinition boundaryDefinition
                   (ident this) (seqno this))
      end
  end.

(** The [switch (boundaryType)] of [createPolygonGeometry]: the coordinates
    one boundary definition resolves to. *)
Definition resolveDefinition (this : AirspaceConverter)
    (boundaryDefinition : BoundaryDefinition) : Res (list Coord) :=
  match boundaryDefinition with
  | line value => createCoordinatesFromLine this boundaryDefinition value
  | arc value => createCoordinatesFromArc this boundaryDefinition value
  | circle value => createCoordinatesFromCircle this boundaryDefinition value
  | otherKey boundaryType =>
      Throw (UnsupportedBoundaryType boundaryType (ident this) (seqno this))
  end.

(** The [for (const boundaryDefinition of boundary)] loop of
    [createPolygonGeometry]: each definition's coordinates are pushed onto
    [this.boundaryCoordinates]; a throw leaves what was pushed so far. *)
Fixpoint resolveBoundary (this : AirspaceConverter)
    (boundary : list BoundaryDefinition) : Res unit * AirspaceConverter :=
  match boundary with
  | [] => (Ok tt, this)
  | boundaryDefinition :: rest =>
      match resolveDefinition this boundaryDefinition with
      | Ok coordinates =>
          resolveBoundary
            (setBoundaryCoordinates this (boundaryCoordinates this ++ coordinates))
            rest
      | Throw e => (Throw e, this)
      end
  end.

(** [createLineString(coords)]: the feature wraps the array it is given. *)
Definition createLineString (coords : list Coord) : list Coord := coords.

(** [createPolygonGeometry(boundary)]. With [mutate: true] the closing
    point and the reorientation are written to the array that is
    [this.boundaryCoordinates]. *)
Definition createPolygonGeometry (this : AirspaceConverter)
    (boundary : list BoundaryDefinition) : Res Geometry * AirspaceConverter :=
  match resolveBoundary this boundary with
  | (Throw e, this) => (Throw e, this)
  | (Ok _, this) =>
      let lineString := createLineString (boundaryCoordinates this) in
      match lineToPolygon lineString with
      | Throw e =>
          (Throw e, setBoundaryCoordinates this (autoCompleteCoords lineString))
      | Ok polygonFeature =>
          let polygonFeature := rewind polygonFeature in
          (Ok polygonFeature,
           setBoundaryCoordinates this
             (hd [] (coordinates polygonFeature)))
      end
  end.

(** *** Validation *)

(** What [getSelfIntersections] returns: nothing ([undefined]) when jsts
    finds the geometry a simple linear geometry, the empty object [{}]
    when the area is node-consistent, the invalid point otherwise. *)
Inductive SelfIntersect : Type :=
| siUndefined
| siEmptyObject
| siInvalidPoint (p : Coord).

(** Truthiness, as [if (... || selfIntersect)] reads the value: every
    object is truthy, the empty one too. *)
Definition truthy (s : SelfIntersect) : bool :=
  match s with
  | siUndefined => false
  | siEmptyObject | siInvalidPoint _ => true
  end.

(** [selfIntersect != null] *)
Definition notNull (s : SelfIntersect) : bool := truthy s.

(** The three checks below first hand the geometry to jsts's GeoJSON
    reader, which throws on a ring that is not closed or has fewer than
    four positions, before any check is made and outside the [try] of
    [fixGeometry]. The checks are modelled on the geometries the reader
    accepts, where they return; what is stated of them and of
    [fixGeometry] is stated of those geometries. *)

(** [isValid(polygonGeometry)] *)
Definition isValid (polygonGeometry : Geometry) : bool :=
  IsValidOp_isValid polygonGeometry.

(** [isSimple(polygonGeometry)] *)
Definition isSimple (polygonGeometry : Geometry) : bool :=
  IsSimpleOp_isSimple polygonGeometry.

(** [getSelfIntersections(polygonGeometry)]; the reader's geometry is an
    object, so the [if (jstsGeometry)] branch is always taken. *)
Definition getSelfIntersections (polygonGeometry : Geometry) : SelfIntersect :=
  if IsSimpleOp_isSimpleLinearGeometry polygonGeometry then siUndefined
  else
    let r := ConsistentAreaTester_isNodeConsistentArea polygonGeometry in
    if negb r then siInvalidPoint (ConsistentAreaTester_getInvalidPoint polygonGeometry)
    else siEmptyObject.

Record ValidityReport : Type := {
  report_isValid : bool;
  report_isSimple : bool;
  report_selfIntersect : SelfIntersect
}.

(** [validateGeometry(geometry)] *)
Definition validateGeometry (geometry : Geometry) : ValidityReport :=
  {| report_isValid := isValid geometry;
     report_isSimple := isSimple geometry;
     report_selfIntersect := getSelfIntersections geometry |}.

(** *** Repair *)

(** The callback of [processed.find] in [removeDuplicates]:
    [distance(value, coord, { units: 'kilometers' }) < 0.001]. *)
Definition within1m (coord value : Coord) : bool :=
  JS.Qltb (distance value coord) (1 # 1000).

(** One round of the [for (const coord of coordinates)] loop. *)
Definition dedupStep (processed : list Coord) (coord : Coord) : list Coord :=
  match find (within1m coord) processed with
  | None => processed ++ [coord]
  | Some _ => processed
  end.

(** [removeDuplicates(coordinates)] *)
Definition removeDuplicates (coordinates : list Coord) : list Coord :=
  fold_left dedupStep coordinates [].

(** The two variables the callback of [removeOverlapPoints] closes over. *)
Record OverlapState : Type := {
  fixedPoints : list Coord;
  lastBearing : option Z
}.

(** [nextBearing === 0 ? 360 : nextBearing] *)
Definition use360 (nextBearing : Z) : Z :=
  if nextBearing =? 0 then 360 else nextBearing.

(** [parseInt(nextBearing > 360 && nextBearing < 180 ? nextBearing + 180
    : nextBearing - 180)] *)
Definition oppositeOf (nextBearing : Z) : Z :=
  JS.parseInt
    (inject_Z (if (360 <? nextBearing) && (nextBearing <? 180)
               then nextBearing + 180 else nextBearing - 180)).

(** The callback [(coord, index) => ...] of [coordinates.forEach]. *)
Definition overlapStep (coordinates : list Coord) (st : OverlapState)
    (item : nat * Coord) : OverlapState :=
  let '(index, coord) := item in
  match nth_error coordinates (index + 1) with
  | None =>
      {| fixedPoints := fixedPoints st ++ [coord];
         lastBearing := lastBearing st |}
  | Some nextPoint =>
      let nextBearing := JS.parseInt (calcBearing coord nextPoint) in
      let nextBearing := use360 nextBearing in
      let oppBearing := oppositeOf nextBearing in
      let keep :=
        match lastBearing st with
        | None => true
        | Some lastBearing => negb (oppBearing =? lastBearing)
        end in
      if keep then
        {| fixedPoints := fixedPoints st ++ [coord];
           lastBearing := Some nextBearing |}
      else st
  end.

(** [removeOverlapPoints(coordinates)] *)
Definition removeOverlapPoints (coordinates : list Coord) : list Coord :=
  fixedPoints
    (fold_left (overlapStep coordinates)
       (combine (seq 0 (List.length coordinates)) coordinates)
       {| fixedPoints := []; lastBearing := None |}).

(** One round of the loop of [getPolygon]: [area >= polygonArea], where a
    [polygonArea] still [null] compares as zero. *)
Definition getPolygonStep (st : option Geometry * option Q) (feature : Geometry)
    : option Geometry * option Q :=
  let '(polygon, polygonArea) := st in
  let area := getArea feature in
  let bound := match polygonArea with None => 0%Q | Some a => a end in
  if Qle_bool bound area then (Some feature, Some area) else (polygon, polygonArea).

(** [getPolygon(features)] inside [createFixedPolygon]; [None] is [null]. *)
Definition getPolygon (features : list Geometry) : option Geometry :=
  fst (fold_left getPolygonStep features (None, None)).

(** The statements of the outer [try] of [createFixedPolygon] after the
    overlap removal. *)
Definition unkinkLargest (coordinates : list Coord) : Res Geometry :=
  let linestring := createLineString coordinates in
  polygon <- lineToPolygon linestring ;;
  collection <- unkinkPolygon polygon ;;
  match getPolygon collection with
  | Some polygon => Ok polygon
  | None => Throw TypeError
  end.

(** [createFixedPolygon(coordinates)]. [removeOverlapPoints] is the first
    statement of the [try] and does not throw, so the [catch] sees its
    result in [coordinates]. *)
Definition createFixedPolygon (coordinates : list Coord) : Res Geometry :=
  let coordinates := removeDuplicates coordinates in
  let coordinates := removeOverlapPoints coordinates in
  tryCatch (unkinkLargest coordinates)
    (fun _ => tryCatch (envelope coordinates) (fun e => Throw e)).

(** [fixGeometry(geometry)]; [geometry.coordinates[0]] of a polygon
    without rings is [undefined], which the first loop cannot iterate. *)
Definition fixGeometry (this : AirspaceConverter) (geometry : Geometry)
    : Res Geometry :=
  let v := validateGeometry geometry in
  if negb (report_isValid v) || negb (report_isSimple v)
     || truthy (report_selfIntersect v)
  then
    tryCatch
      (match nth_error (coordinates geometry) 0 with
       | Some ring => createFixedPolygon ring
       | None => Throw TypeError
       end)
      (fun e => Throw (FailedToCreateFixedGeometry (ident this) (seqno this) e))
  else Ok geometry.

End Converter.

(** ** Vocabulary, ceilings and ground services

    The methods of the converter that need no geometry:
    [mapClassAndType], [createCeiling] and [createGroundServiceProperty]. *)

Module JSText.

(** [s.toUpperCase()] on the ASCII letters. *)
Definition upperChar (c : ascii) : ascii :=
  let n := nat_of_ascii c in
  if ((97 <=? n) && (n <=? 122))%nat then ascii_of_nat (n - 32) else c.

Fixpoint toUpperCase (s : string) : string :=
  match s with
  | EmptyString => EmptyString
  | String c r => String (upperChar c) (toUpperCase r)
  end.

(** The digits at the front of a string, as text, and the rest. *)
Fixpoint spanDigits (s : string) : string * string :=
  match s with
  | String c r =>
      if JS.isDigit c then
        let '(digits, rest) := spanDigits r in (String c digits, rest)
      else (EmptyString, s)
  | EmptyString => (EmptyString, EmptyString)
  end.

(** The number a text of decimal digits stands for. *)
Definition digitsValue (digits : string) : Z := fst (fst (JS.readDigits digits 0 O)).

(** [s] begins with [prefix]; what follows it. *)
Fixpoint stripPrefix (prefix s : string) : option string :=
  match prefix with
  | EmptyString => Some s
  | String p prefix' =>
      match s with
      | String c r => if Ascii.eqb p c then stripPrefix prefix' r else None
      | EmptyString => None
      end
  end.

(** [parseInt(group)] on what a group of digits captured: its number, or
    [NaN] ([None]) when the group did not take part in the match. The
    number is exact here, where the built-in answers with the nearest
    double: the two agree on the numbers up to 2^53, and what is stated of
    a value read is stated of those. *)
Definition parseIntGroup (group : option string) : option Q :=
  match group with
  | Some digits => Some (inject_Z (digitsValue digits))
  | None => None
  end.

End JSText.

(** [ALLOWED_TYPES], [ALLOWED_LOCALTYPES] and [ALLOWED_CLASSES] *)
Definition ALLOWED_TYPES : list string :=
  ["CTA"; "TMA"; "CTR_P"; "CTR"; "ATZ"; "OTHER"; "D"; "P"; "R"]%string.

Definition ALLOWED_LOCALTYPES : list string :=
  ["MATZ"; "GLIDER"; "RMZ"; "TMZ"]%string.

Definition ALLOWED_CLASSES : list string :=
  ["A"; "B"; "C"; "D"; "E"; "F"; "G"; "NO"]%string.

(** [list.includes(value)]; an absent value is in none of the lists. *)
Definition includes (list : list string) (value : option string) : bool :=
  match value with
  | Some s => existsb (String.eqb s) list
  | None => false
  end.

(** [value != null] *)
Definition notNullish {A : Type} (value : option A) : bool :=
  match value with
  | Some _ => true
  | None => false
  end.

(** [{ activity }] *)
Record MetaProps : Type := { activity : string }.

(** What [mapClassAndType] returns: [{ type, class, metaProps }]. *)
Record MappedAirspace : Type := {
  mappedType : string;
  mappedClass : string;
  metaProps : option MetaProps
}.

(** The messages of [mapClassAndType], each after "Failed to map class/type
    combination for airspace '..'." *)
Inductive MappingError : Type :=
| TypeNotAllowed (type : option string) (ident : option string)
    (* The 'type' value '..' is not in the list of allowed types. *)
| LocalTypeNotAllowed (localType : option string) (ident : option string)
    (* The 'localtype' value '..' is not in the list of allowed localtypes. *)
| ClassNotAllowed (airspaceClass : option string) (ident : option string)
    (* The 'class' value '..' is not in the list of allowed classes. *)
| TypeWithClassUnmapped (type : string) (ident : option string)
    (* The 'type' value '..' has no configured mapping. *)
| ClassUnmapped (airspaceClass : string) (ident : option string)
    (* The 'class' value '..' has no configured mapping. *)
| TypeWithLocalTypeUnmapped (type localType : string) (ident : option string)
    (* The 'type' value '..' and 'localtype' value '..' has no configured mapping. *)
| TypeAloneUnmapped (type : string) (ident : option string)
    (* The type value '..' has no configured mapping. *)
| NoMappingForCombination (type localType airspaceClass : option string)
    (ident : option string)
    (* No mapping for combination '{..}' *).

Definition mapped (type class : string) (meta : option string)
  : Result MappingError MappedAirspace :=
  Ok {| mappedType := type; mappedClass := class;
        metaProps := match meta with
                     | Some a => Some {| activity := a |}
                     | None => None
                     end |}.

(** [case 'a': case 'b': ...] *)
Definition isCase (value : string) (labels : list string) : bool :=
  existsb (String.eqb value) labels.

(** [mapClassAndType(type, localType, airspaceClass)] *)
Definition mapClassAndType (this : AirspaceConverter)
    (type localType airspaceClass : option string)
    : Result MappingError MappedAirspace :=
  if negb (includes ALLOWED_TYPES type) then
    Throw (TypeNotAllowed type (ident this))
  else if notNullish localType && negb (includes ALLOWED_LOCALTYPES localType) then
    Throw (LocalTypeNotAllowed localType (ident this))
  else if notNullish airspaceClass
          && negb (includes ALLOWED_CLASSES airspaceClass) then
    Throw (ClassNotAllowed airspaceClass (ident this))
  else
    match type, airspaceClass, localType with
    | Some type, Some airspaceClass, _ =>
        mappedType <-
          (if isCase type ["CTA"] then Ok "CTA"
           else if isCase type ["TMA"] then Ok "TMA"
           else if isCase type ["CTR"; "CTR_P"] then Ok "CTR"
           else if isCase type ["ATZ"] then Ok "ATZ"
           else if isCase type ["D"] then Ok "DANGER"
           else if isCase type ["P"] then Ok "PROHIBITED"
           else if isCase type ["R"] then Ok "RESTRICTED"
           else Throw (TypeWithClassUnmapped type (ident this)))%string ;;
        if includes ALLOWED_CLASSES (Some airspaceClass) then
          mapped mappedType
            (if String.eqb airspaceClass "NO" then "UNCLASSIFIED"
             else airspaceClass) None
        else Throw (ClassUnmapped airspaceClass (ident this))
    | Some type, None, Some localType =>
        let comb := (type ++ "|" ++ localType)%string in
        (if isCase comb ["OTHER|MATZ"] then mapped "MATZ" "G" None
         else if isCase comb ["D_OTHER|GLIDER"] then
           mapped "GLIDING_SECTOR" "UNCLASSIFIED" None
         else if isCase comb ["D_OTHER|GVS"; "D_OTHER|HIRTA"; "D_OTHER|LASER";
                              "OTHER|ILS"] then
           mapped "WARNING" "UNCLASSIFIED" None
         else if isCase comb ["D_OTHER|DZ"] then
           mapped "AERIAL_SPORTING_RECREATIONAL" "UNCLASSIFIED" (Some "PARACHUTING")
         else if isCase comb ["OTHER|GLIDER"; "OTHER|NOATZ"] then
           mapped "AERIAL_SPORTING_RECREATIONAL" "UNCLASSIFIED"
             (Some "AEROCLUB_AERIAL_WORK")
         else if isCase comb ["OTHER|UL"] then
           mapped "AERIAL_SPORTING_RECREATIONAL" "UNCLASSIFIED" (Some "ULM")
         else if isCase comb ["OTHER|RMZ"] then mapped "RMZ" "UNCLASSIFIED" None
         else if isCase comb ["OTHER|TMZ"] then mapped "TMZ" "UNCLASSIFIED" None
         else Throw (TypeWithLocalTypeUnmapped type localType (ident this)))%string
    | Some type, None, None =>
        (if isCase type ["ATZ"; "MATZ"] then mapped type "G" None
         else if isCase type ["D"] then mapped "DANGER" "UNCLASSIFIED" None
         else if isCase type ["P"] then mapped "PROHIBITED" "UNCLASSIFIED" None
         else if isCase type ["R"] then mapped "RESTRICTED" "UNCLASSIFIED" None
         else Throw (TypeAloneUnmapped type (ident this)))%string
    | None, _, _ =>
        Throw (NoMappingForCombination type localType airspaceClass (ident this))
    end.

(** [REGEX_CEILING_SURFACE = /^(SFC)$/] *)
Definition REGEX_CEILING_SURFACE (s : string) : bool := String.eqb s "SFC".

(** What [REGEX_CEILING_FEET.exec] captures: the number (group 1), the unit
    (group 3) and the surface mark (group 4). *)
Record FeetParts : Type := {
  feetNumber : string;
  feetUnit : option string;
  feetSurface : option string
}.

(** [REGEX_CEILING_FEET = /^(\d+(\.\d+)?)\s*(ft|FT)?\s*(SFC)?$/], as
    [exec]: the groups, or [None] when the text does not match. *)
Definition exec_CEILING_FEET (s : string) : option FeetParts :=
  let '(whole, rest) := JSText.spanDigits s in
  match whole with
  | EmptyString => None
  | String _ _ =>
      let '(number, afterNumber) :=
        match rest with
        | String c r =>
            if Ascii.eqb c "." then
              let '(fraction, r') := JSText.spanDigits r in
              match fraction with
              | EmptyString => (whole, rest)
              | String _ _ => ((whole ++ "." ++ fraction)%string, r')
              end
            else (whole, rest)
        | EmptyString => (whole, rest)
        end in
      let beforeUnit := JS.trimStart afterNumber in
      let '(unit, afterUnit) :=
        match JSText.stripPrefix "ft" beforeUnit with
        | Some r => (Some "ft"%string, r)
        | None =>
            match JSText.stripPrefix "FT" beforeUnit with
            | Some r => (Some "FT"%string, r)
            | None => (None, beforeUnit)
            end
        end in
      let tail := JS.trimStart afterUnit in
      if String.eqb tail "" then
        Some {| feetNumber := number; feetUnit := unit; feetSurface := None |}
      else if String.eqb tail "SFC" then
        Some {| feetNumber := number; feetUnit := unit;
                feetSurface := Some "SFC"%string |}
      else None
  end.

(** [REGEX_CEILING_FLIGHT_LEVEL = /^FL\s*(\d{2,})?$/], as [exec]: the
    group of digits, absent when there is none. *)
Definition exec_CEILING_FLIGHT_LEVEL (s : string) : option (option string) :=
  match JSText.stripPrefix "FL" s with
  | None => None
  | Some r =>
      let r := JS.trimStart r in
      match r with
      | EmptyString => Some None
      | String _ _ =>
          let '(digits, rest) := JSText.spanDigits r in
          if String.eqb rest "" && (2 <=? String.length digits)%nat
          then Some (Some digits) else None
      end
  end.

(** [{ value, unit, referenceDatum }]; a [value] of [None] is [NaN]. *)
Record Ceiling : Type := {
  ceilingValue : option Q;
  ceilingUnit : string;
  ceilingReferenceDatum : string
}.

Inductive CeilingError : Type :=
| InvalidCeilingDefinition (ceilingDefinition : option string)
    (ident : option string) (seqno : option Z)
    (* Invalid ceiling definition '..' for airspace '..' in sequence number '..' *)
| CeilingTypeError
    (* toUpperCase was called on a group that is undefined *).

(** [createCeiling(ceilingDefinition)]; an absent definition is tested as
    the text "undefined", which no pattern matches. *)
Definition createCeiling (this : AirspaceConverter)
    (ceilingDefinition : option string) : Result CeilingError Ceiling :=
  let isValidSurfaceDefinition := test REGEX_CEILING_SURFACE ceilingDefinition in
  let feet := match ceilingDefinition with
              | Some s => exec_CEILING_FEET s
              | None => None
              end in
  let flightLevel := match ceilingDefinition with
                     | Some s => exec_CEILING_FLIGHT_LEVEL s
                     | None => None
                     end in
  let isValidFeetDefinition := notNullish feet in
  let isValidFlightLevelDefinition := notNullish flightLevel in
  if negb isValidFeetDefinition && negb isValidFlightLevelDefinition
     && negb isValidSurfaceDefinition then
    Throw (InvalidCeilingDefinition ceilingDefinition (ident this) (seqno this))
  else if isValidSurfaceDefinition then
    Ok {| ceilingValue := Some 0%Q; ceilingUnit := "FT";
          ceilingReferenceDatum := "GND" |}
  else
    match feet, flightLevel with
    | Some altitudeParts, _ =>
        let value := JS.parseFloat (feetNumber altitudeParts) in
        match feetUnit altitudeParts with
        | None => Throw CeilingTypeError
        | Some unitText =>
            let unit := JSText.toUpperCase unitText in
            let referenceDatum :=
              match feetSurface altitudeParts with
              | Some mark => mark
              | None => "MSL"%string
              end in
            let referenceDatum :=
              if String.eqb referenceDatum "SFC" then "GND"%string
              else JSText.toUpperCase referenceDatum in
            Ok {| ceilingValue := value; ceilingUnit := unit;
                  ceilingReferenceDatum := referenceDatum |}
        end
    | None, Some altitudeParts =>
        let value := JSText.parseIntGroup altitudeParts in
        Ok {| ceilingValue := value; ceilingUnit := "FL";
              ceilingReferenceDatum := "STD" |}
    | None, None =>
        Throw (InvalidCeilingDefinition ceilingDefinition (ident this) (seqno this))
    end.

(** One entry of [services.service]. [controls] is the list of airspace ids,
    absent when the entry has none; [frequency] is what [toString()] gives,
    absent when the entry has no frequency to call it on. *)
Record Service : Type := {
  callsign : option string;
  controls : option (list string);
  frequency : option string
}.

(** [{ callsign, frequency }] *)
Record GroundService : Type := {
  groundCallsign : option string;
  groundFrequency : string
}.

Inductive GroundServiceError : Type :=
| MissingId          (* Missing or invalid parameter 'id' *)
| MissingServices    (* Missing or invalid parameter 'services' *).

(** The [for (const service of services.service)] loop inside the [try]:
    [Throw tt] is the [TypeError] of a missing frequency. *)
Fixpoint findGroundService (id : string) (services : list Service)
    : Result unit (option GroundService) :=
  match services with
  | [] => Ok None
  | service :: rest =>
      if match controls service with
         | Some ids => existsb (String.eqb id) ids
         | None => false
         end
      then
        match frequency service with
        | Some text =>
            Ok (Some {| groundCallsign := callsign service;
                        groundFrequency := text |})
        | None => Throw tt
        end
      else findGroundService id rest
  end.

(** [createGroundServiceProperty(id, services)]. [id] is [None] when it is
    no string; [services] is [None] when it is no object or has no key, and
    [Some None] when its [service] cannot be iterated. Whatever is thrown
    inside the [try] is answered with [null]. *)
Definition createGroundServiceProperty (id : option string)
    (services : option (option (list Service)))
    : Result GroundServiceError (option GroundService) :=
  match id with
  | None | Some EmptyString => Throw MissingId
  | Some id =>
      match services with
      | None => Throw MissingServices
      | Some service =>
          match service with
          | None => Ok None
          | Some list =>
              match findGroundService id list with
              | Ok found => Ok found
              | Throw _ => Ok None
              end
          end
      end
  end.

(** ** A stand-in for the packages

    [Stub.libraries] answers as the packages do on a small domain, the way a
    test suite mocks them; the worked examples at the end are evaluated with
    it. Positions are whole arc-seconds near the crossing of the equator and
    the prime meridian.
    - jsts: the checks are planar, as jsts itself is, and exact.
    - [bearing]: exact between two positions on the equator and between two
      positions on one meridian; zero elsewhere.
    - [distance]: a lower bound, enough to tell whether two positions are
      less than a metre apart, which is all the converter asks.
    - [lineArc]: the two ends of an arc around a centre on the equator, for
      [steps: 1], rounded to whole arc-seconds; it throws elsewhere, as
      [circle] always does.
    - [unkinkPolygon]: a polygon that does not meet itself comes back as
      the one part; it throws elsewhere.
    - [envelope] and the coordinate parser: exact.
    No statement below rests on an answer outside these domains. *)

Module Stub.

Definition orient (a b c : Coord) : Z :=
  (fst b - fst a) * (snd c - snd a) - (snd b - snd a) * (fst c - fst a).

Definition between (u v w : Z) : bool :=
  (Z.min u v <=? w) && (w <=? Z.max u v).

(** [p] lies on the closed segment from [a] to [b]. *)
Definition onSegment (a b p : Coord) : bool :=
  (orient a b p =? 0) && between (fst a) (fst b) (fst p)
  && between (snd a) (snd b) (snd p).

(** The closed segments [a b] and [c d] have a point in common. *)
Definition segmentsMeet (a b c d : Coord) : bool :=
  ((orient a b c * orient a b d <? 0) && (orient c d a * orient c d b <? 0))
  || onSegment a b c || onSegment a b d || onSegment c d a || onSegment c d b.

(** jsts drops repeated consecutive points before it looks at a ring. *)
Fixpoint removeRepeatedPoints (ring : list Coord) : list Coord :=
  match ring with
  | a :: ((b :: _) as rest) =>
      if Coord_eqb a b then removeRepeatedPoints rest
      else a :: removeRepeatedPoints rest
  | _ => ring
  end.

Fixpoint edgesOf (ring : list Coord) : list (Coord * Coord) :=
  match ring with
  | a :: ((b :: _) as rest) => (a, b) :: edgesOf rest
  | _ => []
  end.

(** Two edges of a ring, given with their positions [i < j] among [m] edges,
    meet where they must not: neighbours may share their common end only,
    other edges nothing. *)
Definition edgesClash (m : nat) (ei ej : nat * (Coord * Coord)) : bool :=
  let '(i, (a, b)) := ei in
  let '(j, (c, d)) := ej in
  if (j =? i + 1)%nat then onSegment a b d || onSegment c d a
  else if ((i =? 0) && (j =? m - 1))%nat then onSegment a b c || onSegment c d b
  else segmentsMeet a b c d.

Fixpoint anyClash (m : nat) (es : list (nat * (Coord * Coord))) : bool :=
  match es with
  | [] => false
  | e :: rest => existsb (edgesClash m e) rest || anyClash m rest
  end.

Definition ringIsSimple (ring : list Coord) : bool :=
  let es := edgesOf (removeRepeatedPoints ring) in
  negb (anyClash (List.length es) (combine (seq 0 (List.length es)) es)).

Definition ringIsClosed (ring : list Coord) : bool :=
  match ring with
  | [] => true
  | first :: _ => Coord_eqb first (last ring first)
  end.

(** IsValidOp: each ring needs four points once repeated points are gone,
    must be closed and must not meet itself. *)
Definition ringIsValid (ring : list Coord) : bool :=
  (4 <=? List.length (removeRepeatedPoints ring))%nat
  && ringIsClosed ring && ringIsSimple ring.

Definition absZ (z : Z) : Z := Z.abs z.

(** Never below a metre for two different positions within 13 degrees of
    the equator, where an arc-second is more than 30 m in either direction. *)
Definition stubDistance (a b : Coord) : Q :=
  (30 * Z.max (absZ (fst a - fst b)) (absZ (snd a - snd b))) # 1000.

(** The bearing along a meridian is 0 or 180, along the equator 90 or -90. *)
Definition stubBearing (a b : Coord) : Q :=
  if Coord_eqb a b then 0%Q
  else if fst a =? fst b then (if snd a <? snd b then 0%Q else inject_Z 180)
  else if (snd a =? 0) && (snd b =? 0)
       then (if fst a <? fst b then inject_Z 90 else inject_Z (-90))
  else 0%Q.

Definition outside {A} : Res A := Throw (LibraryError "outside the stub").

(** Kilometres to the nearest arc-second of a great circle (30.887 m). *)
Definition kmToArcSeconds (km : Q) : Z :=
  JS.floor (km * (1000000 # 30887) + (1 # 2))%Q.

(** The point at a distance from a centre on the equator, for the four
    bearings along the axes. *)
Definition stubDestination (center : Coord) (r : Z) (bearing : Q) : option Coord :=
  if negb (snd center =? 0) then None
  else if Qeq_bool bearing 0 then Some (fst center, r)
  else if Qeq_bool bearing (inject_Z 90) then Some (fst center + r, 0)
  else if Qeq_bool bearing (inject_Z 180) then Some (fst center, - r)
  else if Qeq_bool bearing (inject_Z (-90)) then Some (fst center - r, 0)
  else None.

(** [lineArc] of turf 6.5 with [steps: 1] yields the arc's two ends. *)
Definition stubArc (center : Coord) (radiusKm : option Q)
    (bearing1 bearing2 : Q) (steps : Z) : Res (list Coord) :=
  match radiusKm with
  | Some km =>
      if (steps =? 1) && negb (Qeq_bool bearing1 bearing2) then
        match stubDestination center (kmToArcSeconds km) bearing1,
              stubDestination center (kmToArcSeconds km) bearing2 with
        | Some p, Some q => Ok [p; q]
        | _, _ => outside
        end
      else outside
  | None => outside
  end.

(** [unkinkPolygon] hands back a polygon that does not meet itself. *)
Definition stubUnkink (g : Geometry) : Res (list Geometry) :=
  if forallb ringIsSimple (coordinates g) then Ok [g] else outside.

(** Planar area of the exterior ring, in square arc-seconds. *)
Definition stubArea (g : Geometry) : Q :=
  match coordinates g with
  | ring :: _ => absZ (signedArea2 ring) # 2
  | [] => 0%Q
  end.

Definition minOf (zs : list Z) (z : Z) : Z := fold_left Z.min zs z.
Definition maxOf (zs : list Z) (z : Z) : Z := fold_left Z.max zs z.

(** [envelope]: the bounding box as a polygon, from its south-west corner
    counter-clockwise. The box of no point at all is infinite and not
    modelled. *)
Definition stubEnvelope (points : list Coord) : Res Geometry :=
  match points with
  | [] => outside
  | p :: rest =>
      let west := minOf (map fst rest) (fst p) in
      let east := maxOf (map fst rest) (fst p) in
      let south := minOf (map snd rest) (snd p) in
      let north := maxOf (map snd rest) (snd p) in
      Ok {| coordinates :=
              [[(west, south); (east, south); (east, north); (west, north);
                (west, south)]] |}
  end.

Definition readNumber (s : string) : option Z :=
  let '(v, n, rest) := JS.readDigits s 0 O in
  match n, rest with
  | S _, EmptyString => Some v
  | _, _ => None
  end.

(** "D:M:S H" to signed arc-seconds. *)
Definition readDMS (width : nat) (limit : Z) (pos neg : ascii) (s : string)
    : option Z :=
  match readNumber (JS.substring 0 width s),
        readNumber (JS.substring (width + 1) (width + 3) s),
        readNumber (JS.substring (width + 4) (width + 6) s),
        JS.substring (width + 6) (width + 8) s with
  | Some d, Some m, Some sec, String " " (String h EmptyString) =>
      let v := d * 3600 + m * 60 + sec in
      if (m <? 60) && (sec <? 60) && (v <=? limit * 3600) then
        if Ascii.eqb h pos then Some v
        else if Ascii.eqb h neg then Some (- v)
        else None
      else None
  | _, _, _, _ => None
  end.

(** [new Coordinates("DD:MM:SS N,DDD:MM:SS E")] *)
Definition stubCoordinates (s : string) : option ParsedCoordinates :=
  match readDMS 2 90 "N" "S" (JS.substring 0 10 s),
        readDMS 3 180 "E" "W" (JS.substring 11 22 s) with
  | Some lat, Some lon =>
      if String.eqb (JS.substring 10 11 s) "," && (String.length s =? 22)%nat
      then Some {| getLatitude := lat; getLongitude := lon |}
      else None
  | _, _ => None
  end.

Definition firstRing (g : Geometry) : list Coord := hd [] (coordinates g).

#[export] Instance libraries : Libraries := {|
  distance := stubDistance;
  calcBearing := stubBearing;
  createArc := stubArc;
  createCircle := fun _ _ _ => outside;
  unkinkPolygon := stubUnkink;
  getArea := stubArea;
  envelope := stubEnvelope;
  Coordinates := stubCoordinates;
  IsValidOp_isValid := fun g => forallb ringIsValid (coordinates g);
  IsSimpleOp_isSimple := fun g => forallb ringIsSimple (coordinates g);
  IsSimpleOp_isSimpleLinearGeometry := fun g => forallb ringIsSimple (coordinates g);
  ConsistentAreaTester_isNodeConsistentArea :=
    fun g => forallb ringIsSimple (coordinates g);
  ConsistentAreaTester_getInvalidPoint := fun g => hd (0, 0) (firstRing g)
|}.

End Stub.

(** ** Notions the statements use *)

(** [kept] is [all] with some elements left out, the order unchanged. *)
Inductive Subsequence {A : Type} : list A -> list A -> Prop :=
| Subsequence_done : Subsequence [] []
| Subsequence_keep x kept all :
    Subsequence kept all -> Subsequence (x :: kept) (x :: all)
| Subsequence_drop x kept all :
    Subsequence kept all -> Subsequence kept (x :: all).

Section RepairNotions.

Context {L : Libraries}.

(** No point of the list is within a metre of a point before it, in the
    sense of the test [removeDuplicates] makes. *)
Definition Apart (points : list Coord) : Prop :=
  forall before x after,
    points = before ++ x :: after -> find (within1m x) before = None.

(** The decision of [overlapStep] to push the point: no bearing recorded
    yet, or the recorded one is not [nextBearing - 180]. *)
Definition keepsPoint (lastBearing : option Z) (nextBearing : Z) : bool :=
  match lastBearing with
  | None => true
  | Some lastBearing => negb (oppositeOf nextBearing =? lastBearing)
  end.

(** [removeOverlapPoints] as a recursion over the points still to visit,
    with the bearing recorded at the last point pushed. *)
Fixpoint overlapFrom (lastBearing : option Z) (coordinates : list Coord)
    : list Coord :=
  match coordinates with
  | [] => []
  | coord :: rest =>
      match rest with
      | [] => [coord]
      | nextPoint :: _ =>
          let nextBearing := use360 (JS.parseInt (calcBearing coord nextPoint)) in
          if keepsPoint lastBearing nextBearing
          then coord :: overlapFrom (Some nextBearing) rest
          else overlapFrom lastBearing rest
      end
  end.

(** The bearing from a point to the next as the loop compares it: whole
    degrees, 360 for 0. *)
Definition integerBearing (coord nextPoint : Coord) : Z :=
  use360 (JS.parseInt (calcBearing coord nextPoint)).

(** The walk over the points as the amended C2 words it.
    [OverlapWalk recorded coordinates kept]: walking [coordinates] with the
    bearing [recorded] at the last point retained so far, the points [kept]
    are retained. The last point is retained. A point that meets no
    recorded bearing, or whose bearing to the next point is not 180 degrees
    from the recorded one, is retained and its bearing recorded. A point
    whose bearing to the next point, less 180, is the recorded bearing is
    left out, and the recorded bearing stays. Of a point whose bearing to
    the next point, plus 180, is the recorded bearing the walk says
    neither: it may be retained or left out. *)
Inductive OverlapWalk : option Z -> list Coord -> list Coord -> Prop :=
| walk_nothing recorded : OverlapWalk recorded [] []
| walk_last recorded coord : OverlapWalk recorded [coord] [coord]
| walk_retain recorded coord nextPoint rest kept :
    (forall bearing, recorded = Some bearing ->
                     Z.abs (integerBearing coord nextPoint - bearing) <> 180) ->
    OverlapWalk (Some (integerBearing coord nextPoint)) (nextPoint :: rest) kept ->
    OverlapWalk recorded (coord :: nextPoint :: rest) (coord :: kept)
| walk_leave_out recorded coord nextPoint rest kept :
    integerBearing coord nextPoint - 180 = recorded ->
    OverlapWalk (Some recorded) (nextPoint :: rest) kept ->
    OverlapWalk (Some recorded) (coord :: nextPoint :: rest) kept
| walk_other_way_retain recorded coord nextPoint rest kept :
    integerBearing coord nextPoint + 180 = recorded ->
    OverlapWalk (Some (integerBearing coord nextPoint)) (nextPoint :: rest) kept ->
    OverlapWalk (Some recorded) (coord :: nextPoint :: rest) (coord :: kept)
| walk_other_way_leave_out recorded coord nextPoint rest kept :
    integerBearing coord nextPoint + 180 = recorded ->
    OverlapWalk (Some recorded) (nextPoint :: rest) kept ->
    OverlapWalk (Some recorded) (coord :: nextPoint :: rest) kept.

(** What the loop of [getPolygon] has established after the features
    [seen]: nothing chosen and all areas negative, or a feature chosen whose
    area no feature seen exceeds. *)
Definition largestSoFar (seen : list Geometry)
    (st : option Geometry * option Q) : Prop :=
  match st with
  | (None, None) => forall q, In q seen -> (getArea q < 0)%Q
  | (Some p, Some a) =>
      a = getArea p /\ In p seen
      /\ forall q, In q seen -> (getArea q <= getArea p)%Q
  | _ => False
  end.

(** The condition under which [fixGeometry] leaves the geometry alone. *)
Definition validatesClean (geometry : Geometry) : bool :=
  let v := validateGeometry geometry in
  report_isValid v && report_isSimple v && negb (truthy (report_selfIntersect v)).

End RepairNotions.

(** ** Example data

    Positions in arc-seconds around the crossing of the equator and the
    prime meridian; ten minutes of arc are ten nautical miles. *)

Module Examples.

Definition converter : AirspaceConverter :=
  {| config := {| validateGeometries := true;
                  fixGeometries := true;
                  geometryDetail := 1;
                  strictSchemaValidation := false |};
     ident := Some "EXAMPLE CTA"%string;
     seqno := Some 1;
     boundaryCoordinates := [] |}.

Definition origin : Coord := (0, 0).
Definition north : Coord := (0, 600).
Definition east : Coord := (600, 0).

(** A quarter turn from [north] to [east] around [origin]. *)
Definition quarterArc : ArcDefinition :=
  {| dir := Some "cw"%string;
     radius := Some "10 NM"%string;
     centre := Some "000000N 0000000E"%string;
     to := Some "000000N 0001000E"%string |}.

(** The converter after the line [["001000N 0000000E"]]. *)
Definition afterLine : AirspaceConverter :=
  setBoundaryCoordinates converter [north].

Definition triangle : list BoundaryDefinition :=
  [line (Some ["001000N 0000000E"; "000000N 0000000E"; "000000N 0001000E"]%string)].

Definition triangleAccumulated : list Coord := [north; origin; east].

Definition triangleRing : list Coord := [north; origin; east; north].

(** The same three points the other way round. *)
Definition clockwiseTriangle : list BoundaryDefinition :=
  [line (Some ["001000N 0000000E"; "000000N 0001000E"; "000000N 0000000E"]%string)].

(** One degree square, counter-clockwise. *)
Definition square : Geometry :=
  {| coordinates := [[(0, 0); (3600, 0); (3600, 3600); (0, 3600); (0, 0)]] |}.

(** A ring whose four points are one and the same position, as the line
    of four equal tokens gives it. *)
Definition collapsed : Geometry :=
  {| coordinates := [[(600, 600); (600, 600); (600, 600); (600, 600)]] |}.

(** The envelope of that one position. *)
Definition collapsedEnvelope : Geometry :=
  {| coordinates :=
       [[(600, 600); (600, 600); (600, 600); (600, 600); (600, 600)]] |}.

(** Out along the equator to two degrees east and back to one. *)
Definition eastwardSpike : list Coord := [(0, 0); (7200, 0); (3600, 0)].

(** The same spike flown from the east. *)
Definition westwardSpike : list Coord := [(7200, 0); (0, 0); (3600, 0)].

(** West along the equator from two degrees east to the prime meridian,
    then east again through one degree to two and a half. *)
Definition thereAndBack : list Coord :=
  [(7200, 0); (0, 0); (3600, 0); (9000, 0)].

End Examples.

(** ** Further notions *)

Section MoreNotions.

Context {L : Libraries}.

(** No bearing along the sequence is followed by the bearing the loop takes
    for its reverse: for three points in a row, the bearing out of the
    middle one less 180 is not the bearing into it. *)
Definition NoTurnBack (coordinates : list Coord) : Prop :=
  forall before a b c after,
    coordinates = before ++ a :: b :: c :: after ->
    integerBearing b c - 180 <> integerBearing a b.

(** What the loop of [getPolygon] has established after the features
    [seen], told by position: nothing chosen and all areas negative, or the
    feature chosen, those before it no larger and those after it smaller. *)
Definition lastLargestSoFar (seen : list Geometry)
    (st : option Geometry * option Q) : Prop :=
  match st with
  | (None, None) => forall q, In q seen -> (getArea q < 0)%Q
  | (Some p, Some a) =>
      a = getArea p /\ (0 <= getArea p)%Q
      /\ exists before after,
           seen = before ++ p :: after
           /\ (forall q, In q before -> (getArea q <= getArea p)%Q)
           /\ (forall q, In q after -> (getArea q < getArea p)%Q)
  | _ => False
  end.

End MoreNotions.

(** Every character is a decimal digit. *)
Fixpoint allDigits (s : string) : bool :=
  match s with
  | EmptyString => true
  | String c r => JS.isDigit c && allDigits r
  end.

(** Every character is whitespace. *)
Fixpoint allSpaces (s : string) : bool :=
  match s with
  | EmptyString => true
  | String c r => JS.isSpace c && allSpaces r
  end.

(** The blank, the character [split(' ')] cuts at, does not occur. *)
Fixpoint noBlank (s : string) : bool :=
  match s with
  | EmptyString => true
  | String c r => negb (Ascii.eqb c " ") && noBlank r
  end.

(** A result that is no throw. *)
Definition isOk {E A : Type} (r : Result E A) : bool :=
  match r with
  | Ok _ => true
  | Throw _ => false
  end.

(** Further example data. *)
Module MoreExamples.

(** A token whose halves are separated by a tab. *)
Definition tabToken : string :=
  ("001000N" ++ String (ascii_of_nat 9) "0000000E")%string.

(** A ring that returns to its first point. *)
Definition closedSquare : list Coord :=
  [(0, 0); (3600, 0); (3600, 3600); (0, 3600); (0, 0)].

(** East along the equator, then north along a meridian. *)
Definition rightTurn : list Coord := [(0, 0); (3600, 0); (3600, 3600)].

(** The quarter turn of [Examples.quarterArc] the other way round, from
    [east] back to [north]. *)
Definition quarterArcBack : ArcDefinition :=
  {| dir := Some "ccw"%string;
     radius := Some "10 NM"%string;
     centre := Some "000000N 0000000E"%string;
     to := Some "001000N 0000000E"%string |}.

Definition tower : Service :=
  {| callsign := Some "EXAMPLE TOWER"%string;
     controls := Some ["example-cta"; "example-ctr"]%string;
     frequency := Some "118.1"%string |}.

Definition radar : Service :=
  {| callsign := Some "EXAMPLE RADAR"%string;
     controls := Some ["example-tma"]%string;
     frequency := Some "124.6"%string |}.

(** A quarter turn around [Examples.origin] with half the radius: from
    five minutes north, where the line before it ends, towards
    [Examples.east], which lies ten minutes from the centre. *)
Definition afterShortLine : AirspaceConverter :=
  setBoundaryCoordinates Examples.converter [(0, 300)].

Definition shortArc : ArcDefinition :=
  {| dir := Some "cw"%string;
     radius := Some "5 NM"%string;
     centre := Some "000000N 0000000E"%string;
     to := Some "000000N 0001000E"%string |}.

End MoreExamples.

(** The text does not go on with a digit or a decimal point. *)
Definition plainStart (s : string) : bool :=
  match s with
  | String c _ => negb (JS.isDigit c) && negb (Ascii.eqb c ".")
  | EmptyString => true
  end.

(** [controls?.includes(id)], the test of the loop of
    [createGroundServiceProperty] on one service. *)
Definition controlsId (id : string) (service : Service) : bool :=
  match controls service with
  | Some ids => existsb (String.eqb id) ids
  | None => false
  end.

(** ** Built-ins *)

Lemma Qltb_false_iff (x y : Q) : JS.Qltb x y = false <-> (y <= x)%Q.
Proof.
  unfold JS.Qltb. rewrite negb_false_iff. apply Qle_bool_iff.
Qed.

(** [parseInt] of a number that is an integer already gives it back, as long
    as it is written without an exponent. *)
Lemma parseInt_integer (z : Z) :
  Z.abs z < 10 ^ 21 -> JS.parseInt (inject_Z z) = z.
Proof.
  intro Hz. unfold JS.parseInt.
  destruct (Qeq_bool (inject_Z z) 0) eqn:E0.
  - apply Qeq_bool_iff in E0. unfold Qeq, inject_Z in E0. cbn [Qnum Qden] in E0. lia.
  - assert (Hnz : z <> 0).
    { intro Hz0. subst z. discriminate E0. }
    clear E0.
    unfold JS.Qabs', JS.Qltb, Qle_bool, inject_Z. cbn [Qnum Qden].
    destruct (0 * 1 <=? z * 1) eqn:Epos; cbn [Qnum Qden Qopp].
    + apply Z.leb_le in Epos.
      replace (1 * Zpos 1 <=? z * 1000000) with true by (symmetry; apply Z.leb_le; lia).
      cbn [negb].
      replace (10 ^ 21 * 1 <=? z * 1) with false by (symmetry; apply Z.leb_gt; lia).
      cbn [negb]. apply Z.quot_1_r.
    + apply Z.leb_gt in Epos.
      replace (1 * Zpos 1 <=? - z * 1000000) with true by (symmetry; apply Z.leb_le; lia).
      cbn [negb].
      replace (10 ^ 21 * 1 <=? - z * 1) with false by (symmetry; apply Z.leb_gt; lia).
      cbn [negb]. apply Z.quot_1_r.
Qed.

(** ** Deduplication *)

Section Deduplication.

Context {L : Libraries}.

Lemma Apart_nil : Apart [].
Proof.
  intros before x after H. destruct before; discriminate H.
Qed.

Lemma Apart_snoc (points : list Coord) (x : Coord) :
  Apart points -> find (within1m x) points = None -> Apart (points ++ [x]).
Proof.
  intros HA Hx before y after Heq.
  destruct (exists_last (l := y :: after)) as [mid [z Hlast]]; [discriminate|].
  rewrite Hlast, app_assoc in Heq.
  apply app_inj_tail in Heq. destruct Heq as [Hpts Hz].
  destruct mid as [|m mid]; cbn [app] in Hlast; injection Hlast as Hy Hafter.
  - rewrite app_nil_r in Hpts. rewrite Hy, <- Hz, <- Hpts. exact Hx.
  - apply (HA before y mid). rewrite Hpts, Hy. reflexivity.
Qed.

Lemma dedupStep_Apart (processed : list Coord) (coord : Coord) :
  Apart processed -> Apart (dedupStep processed coord).
Proof.
  intro HA. unfold dedupStep.
  destruct (find (within1m coord) processed) eqn:E; [assumption|].
  apply Apart_snoc; assumption.
Qed.

Lemma dedup_loop_Apart (coordinates processed : list Coord) :
  Apart processed -> Apart (fold_left dedupStep coordinates processed).
Proof.
  revert processed.
  induction coordinates as [|c cs IH]; intros processed HA; cbn [fold_left].
  - assumption.
  - apply IH, dedupStep_Apart, HA.
Qed.

(** On points that are apart already the loop pushes every one. *)
Lemma dedup_loop_keeps_all (coordinates processed : list Coord) :
  Apart (processed ++ coordinates) ->
  fold_left dedupStep coordinates processed = processed ++ coordinates.
Proof.
  revert processed.
  induction coordinates as [|c cs IH]; intros processed HA; cbn [fold_left].
  - symmetry. apply app_nil_r.
  - assert (Hc : find (within1m c) processed = None)
      by (apply (HA processed c cs); reflexivity).
    unfold dedupStep at 2. rewrite Hc.
    rewrite IH; rewrite <- app_assoc; [reflexivity | exact HA].
Qed.

Lemma removeDuplicates_Apart (coordinates : list Coord) :
  Apart (removeDuplicates coordinates).
Proof.
  apply dedup_loop_Apart, Apart_nil.
Qed.

Lemma find_none_distance (x : Coord) (before : list Coord) :
  find (within1m x) before = None ->
  forall y, In y before -> (1 # 1000 <= distance y x)%Q.
Proof.
  intros Hfind y Hy.
  pose proof (find_none _ _ Hfind y Hy) as Hfar.
  unfold within1m in Hfar. apply Qltb_false_iff in Hfar. exact Hfar.
Qed.

(** C8: [removeDuplicates] applied to its own output returns that output,
    and in its output no point lies within 0.001 km of a point retained
    before it. *)
Theorem removeDuplicates_idempotent (coordinates : list Coord) :
  removeDuplicates (removeDuplicates coordinates) = removeDuplicates coordinates
  /\ (forall before x after,
        removeDuplicates coordinates = before ++ x :: after ->
        forall y, In y before -> ~ (distance y x < 1 # 1000)%Q).
Proof.
  split.
  - unfold removeDuplicates at 1.
    rewrite dedup_loop_keeps_all; [reflexivity|].
    cbn [app]. apply removeDuplicates_Apart.
  - intros before x after Heq y Hy Hlt.
    pose proof (removeDuplicates_Apart coordinates before x after Heq) as Hfind.
    pose proof (find_none_distance x before Hfind y Hy) as Hfar.
    exact (Qlt_not_le _ _ Hlt Hfar).
Qed.

(** The output keeps the order of the input and adds nothing. *)
Lemma dedup_loop_Subsequence (coordinates processed : list Coord) :
  exists kept,
    fold_left dedupStep coordinates processed = processed ++ kept
    /\ Subsequence kept coordinates.
Proof.
  revert processed.
  induction coordinates as [|c cs IH]; intro processed; cbn [fold_left].
  - exists []. split; [symmetry; apply app_nil_r | constructor].
  - unfold dedupStep at 2.
    destruct (find (within1m c) processed) eqn:E.
    + destruct (IH processed) as [kept [Hk Hs]].
      exists kept. split; [exact Hk | constructor; exact Hs].
    + destruct (IH (processed ++ [c])) as [kept [Hk Hs]].
      exists (c :: kept). split.
      * rewrite Hk, <- app_assoc. reflexivity.
      * constructor. exact Hs.
Qed.

(** Scanning in the original order, [removeDuplicates] only leaves points
    out. *)
Lemma removeDuplicates_Subsequence (coordinates : list Coord) :
  Subsequence (removeDuplicates coordinates) coordinates.
Proof.
  destruct (dedup_loop_Subsequence coordinates []) as [kept [Hk Hs]].
  unfold removeDuplicates. rewrite Hk. exact Hs.
Qed.

End Deduplication.

(** ** Overlap removal *)

Section OverlapRemoval.

Context {L : Libraries}.

Lemma nth_error_after_prefix (before : list Coord) (coord : Coord)
    (rest : list Coord) :
  nth_error (before ++ coord :: rest) (List.length before + 1) = hd_error rest.
Proof.
  induction before as [|b before IH]; cbn [app List.length Nat.add nth_error].
  - destruct rest; reflexivity.
  - exact IH.
Qed.

(** The callback at the index where [coord :: rest] starts. *)
Lemma overlapStep_at (before : list Coord) (coord : Coord) (rest : list Coord)
    (st : OverlapState) :
  overlapStep (before ++ coord :: rest) st (List.length before, coord)
  = match rest with
    | [] => {| fixedPoints := fixedPoints st ++ [coord];
               lastBearing := lastBearing st |}
    | nextPoint :: _ =>
        let nextBearing := use360 (JS.parseInt (calcBearing coord nextPoint)) in
        if keepsPoint (lastBearing st) nextBearing
        then {| fixedPoints := fixedPoints st ++ [coord];
                lastBearing := Some nextBearing |}
        else st
    end.
Proof.
  unfold overlapStep. rewrite nth_error_after_prefix.
  destruct rest; reflexivity.
Qed.

Lemma overlapFrom_step (lastBearing : option Z) (coord nextPoint : Coord)
    (rest : list Coord) :
  overlapFrom lastBearing (coord :: nextPoint :: rest)
  = let nextBearing := use360 (JS.parseInt (calcBearing coord nextPoint)) in
    if keepsPoint lastBearing nextBearing
    then coord :: overlapFrom (Some nextBearing) (nextPoint :: rest)
    else overlapFrom lastBearing (nextPoint :: rest).
Proof. reflexivity. Qed.

(** The [forEach] from the index where [rest] starts pushes what the
    recursion over [rest] yields. *)
Lemma overlap_loop_from (rest before : list Coord) (st : OverlapState) :
  fixedPoints
    (fold_left (overlapStep (before ++ rest))
       (combine (seq (List.length before) (List.length rest)) rest) st)
  = fixedPoints st ++ overlapFrom (lastBearing st) rest.
Proof.
  revert before st.
  induction rest as [|coord rest IH]; intros before st.
  - cbn. symmetry. apply app_nil_r.
  - cbn [List.length seq combine fold_left].
    rewrite overlapStep_at.
    replace (before ++ coord :: rest) with ((before ++ [coord]) ++ rest)
      by (rewrite <- app_assoc; reflexivity).
    replace (S (List.length before)) with (List.length (before ++ [coord]))
      by (rewrite length_app; cbn; lia).
    rewrite IH.
    destruct rest as [|nextPoint rest'].
    + cbn [fixedPoints lastBearing overlapFrom]. rewrite app_nil_r. reflexivity.
    + rewrite overlapFrom_step. cbv zeta.
      destruct (keepsPoint (lastBearing st)
                  (use360 (JS.parseInt (calcBearing coord nextPoint)))).
      * cbn [fixedPoints lastBearing]. rewrite <- app_assoc. reflexivity.
      * reflexivity.
Qed.

(** [removeOverlapPoints] is the recursion started without a bearing. *)
Lemma removeOverlapPoints_overlapFrom (coordinates : list Coord) :
  removeOverlapPoints coordinates = overlapFrom None coordinates.
Proof.
  unfold removeOverlapPoints.
  exact (overlap_loop_from coordinates []
           {| fixedPoints := []; lastBearing := None |}).
Qed.

Lemma overlapFrom_last (init : list Coord) (final : Coord)
    (lastBearing : option Z) :
  exists kept,
    overlapFrom lastBearing (init ++ [final]) = kept ++ [final]
    /\ Subsequence kept init.
Proof.
  revert lastBearing.
  induction init as [|coord init IH]; intro lastBearing.
  - exists []. split; [reflexivity | constructor].
  - cbn [app overlapFrom].
    destruct (init ++ [final]) as [|nextPoint rest] eqn:Erest.
    + destruct init; discriminate Erest.
    + destruct (keepsPoint lastBearing
                  (use360 (JS.parseInt (calcBearing coord nextPoint)))).
      * destruct (IH (Some (use360 (JS.parseInt (calcBearing coord nextPoint)))))
          as [kept [Hk Hs]].
        exists (coord :: kept). split.
        -- rewrite Hk. reflexivity.
        -- constructor. exact Hs.
      * destruct (IH lastBearing) as [kept [Hk Hs]].
        exists kept. split; [exact Hk | constructor; exact Hs].
Qed.

Lemma Subsequence_snoc {A : Type} (kept all : list A) (x : A) :
  Subsequence kept all -> Subsequence (kept ++ [x]) (all ++ [x]).
Proof.
  induction 1; cbn [app]; repeat constructor; assumption.
Qed.

(** C10: for a sequence that ends in [final], the output of
    [removeOverlapPoints] ends in [final] too, and it is the input with
    some points left out, the order unchanged. *)
Theorem removeOverlapPoints_keeps_last (init : list Coord) (final : Coord) :
  exists kept,
    removeOverlapPoints (init ++ [final]) = kept ++ [final]
    /\ Subsequence kept init
    /\ Subsequence (removeOverlapPoints (init ++ [final])) (init ++ [final]).
Proof.
  rewrite removeOverlapPoints_overlapFrom.
  destruct (overlapFrom_last init final None) as [kept [Hk Hs]].
  exists kept. repeat split; [exact Hk | exact Hs |].
  rewrite Hk. apply Subsequence_snoc, Hs.
Qed.

(** A bearing between -180 and 360 has [nextBearing - 180] as its
    opposite: the other branch of the conditional is never taken. *)
Lemma oppositeOf_minus_180 (nextBearing : Z) :
  Z.abs nextBearing < 10 ^ 20 -> oppositeOf nextBearing = nextBearing - 180.
Proof.
  intro Hb. unfold oppositeOf.
  replace ((360 <? nextBearing) && (nextBearing <? 180)) with false.
  - apply parseInt_integer. lia.
  - symmetry. apply andb_false_iff.
    destruct (360 <? nextBearing) eqn:E; [right | left; reflexivity].
    apply Z.ltb_lt in E. apply Z.ltb_ge. lia.
Qed.

(** When a point is dropped: a bearing was recorded at the last point
    pushed, and it equals the bearing to the next point (360 for 0) less
    180. *)
Lemma keepsPoint_false_iff (lastBearing : option Z) (nextBearing : Z) :
  Z.abs nextBearing < 10 ^ 20 ->
  keepsPoint lastBearing nextBearing = false
  <-> lastBearing = Some (nextBearing - 180).
Proof.
  intro Hb. unfold keepsPoint. rewrite (oppositeOf_minus_180 _ Hb).
  destruct lastBearing as [lb|].
  - rewrite negb_false_iff, Z.eqb_eq.
    split; [intro H; rewrite H; reflexivity | intro H; injection H; auto].
  - split; discriminate.
Qed.

(** A spike off a course with an easterly bearing is kept. When the integer
    bearing from [a] to [b] is [i], with [0 < i < 180], and the integer
    bearing from [b] to [c] is its exact reverse [i - 180], the point [b] is
    not dropped: [removeOverlapPoints] returns all three points. *)
Lemma removeOverlapPoints_keeps_reverse_turn (a b c : Coord) (i : Z) :
  0 < i < 180 ->
  JS.parseInt (calcBearing a b) = i ->
  JS.parseInt (calcBearing b c) = i - 180 ->
  removeOverlapPoints [a; b; c] = [a; b; c].
Proof.
  intros Hi Hab Hbc.
  rewrite removeOverlapPoints_overlapFrom.
  rewrite overlapFrom_step. cbv zeta. rewrite Hab.
  change (keepsPoint None (use360 i)) with true. cbv iota.
  rewrite overlapFrom_step. cbv zeta. rewrite Hbc.
  assert (H1 : use360 i = i).
  { unfold use360. destruct (i =? 0) eqn:E; [apply Z.eqb_eq in E; lia | reflexivity]. }
  assert (H2 : use360 (i - 180) = i - 180).
  { unfold use360. destruct (i - 180 =? 0) eqn:E; [apply Z.eqb_eq in E; lia | reflexivity]. }
  rewrite H1, H2.
  assert (Hkeep : keepsPoint (Some i) (i - 180) = true).
  { destruct (keepsPoint (Some i) (i - 180)) eqn:E; [reflexivity|].
    apply keepsPoint_false_iff in E; [|lia]. injection E as E. lia. }
  rewrite Hkeep. reflexivity.
Qed.

(** The mirrored turn is caught: with the bearing [i - 180] in and its
    reverse [i] out, the point in the middle is dropped. *)
Lemma removeOverlapPoints_drops_mirrored_turn (a b c : Coord) (i : Z) :
  0 < i < 180 ->
  JS.parseInt (calcBearing a b) = i - 180 ->
  JS.parseInt (calcBearing b c) = i ->
  removeOverlapPoints [a; b; c] = [a; c].
Proof.
  intros Hi Hab Hbc.
  rewrite removeOverlapPoints_overlapFrom.
  rewrite overlapFrom_step. cbv zeta. rewrite Hab.
  change (keepsPoint None (use360 (i - 180))) with true. cbv iota.
  rewrite overlapFrom_step. cbv zeta. rewrite Hbc.
  assert (H1 : use360 i = i).
  { unfold use360. destruct (i =? 0) eqn:E; [apply Z.eqb_eq in E; lia | reflexivity]. }
  assert (H2 : use360 (i - 180) = i - 180).
  { unfold use360. destruct (i - 180 =? 0) eqn:E; [apply Z.eqb_eq in E; lia | reflexivity]. }
  rewrite H1, H2.
  assert (Hdrop : keepsPoint (Some (i - 180)) i = false).
  { apply keepsPoint_false_iff; [lia | reflexivity]. }
  rewrite Hdrop. reflexivity.
Qed.

Lemma use360_range (b : Z) : Z.abs b <= 180 -> -180 <= use360 b <= 360.
Proof.
  intro Hb. unfold use360. destruct (b =? 0); lia.
Qed.

Lemma overlapFrom_walk (coordinates : list Coord) (recorded : option Z) :
  (forall a b, Z.abs (JS.parseInt (calcBearing a b)) <= 180) ->
  OverlapWalk recorded coordinates (overlapFrom recorded coordinates).
Proof.
  intro Hrange. revert recorded.
  induction coordinates as [|coord rest IH]; intro recorded.
  - constructor.
  - destruct rest as [|nextPoint rest'].
    + constructor.
    + rewrite overlapFrom_step. cbv zeta.
      fold (integerBearing coord nextPoint).
      assert (Hb : -180 <= integerBearing coord nextPoint <= 360)
        by (apply use360_range, Hrange).
      destruct (keepsPoint recorded (integerBearing coord nextPoint)) eqn:Ekeep.
      * destruct recorded as [bearing|].
        -- assert (Hnot : bearing <> integerBearing coord nextPoint - 180).
           { intro Heq. subst bearing.
             assert (Hdrop : keepsPoint
                               (Some (integerBearing coord nextPoint - 180))
                               (integerBearing coord nextPoint) = false)
               by (apply keepsPoint_false_iff; [lia | reflexivity]).
             rewrite Hdrop in Ekeep. discriminate Ekeep. }
           destruct (Z.eq_dec (integerBearing coord nextPoint + 180) bearing)
             as [Hother | Hother].
           ++ apply walk_other_way_retain; [exact Hother | apply IH].
           ++ apply walk_retain; [|apply IH].
              intros bearing' Hrec. injection Hrec as <-. lia.
        -- apply walk_retain; [|apply IH]. intros bearing Hrec. discriminate Hrec.
      * apply keepsPoint_false_iff in Ekeep; [|lia]. subst recorded.
        apply walk_leave_out; [reflexivity | apply IH].
Qed.

(** C2, as the code has it. With bearings of at most 180 degrees either
    way, as turf gives them, [removeOverlapPoints] walks the points with the
    bearing recorded at the point retained last; that is the bearing by
    which a point was reached only when its predecessor was retained. The
    first point and the last are retained. A point in between is left out
    when the integer bearing to its successor (360 for 0), less 180, is the
    recorded bearing, and retained when the two are not 180 degrees apart.
    Of the reverse the other way round, the recorded bearing being the
    bearing to the successor plus 180, the statement says nothing. *)
Theorem removeOverlapPoints_walk (coordinates : list Coord) :
  (forall a b, Z.abs (JS.parseInt (calcBearing a b)) <= 180) ->
  OverlapWalk None coordinates (removeOverlapPoints coordinates).
Proof.
  intro Hrange. rewrite removeOverlapPoints_overlapFrom.
  apply overlapFrom_walk, Hrange.
Qed.

(** A walk that starts without a recorded bearing retains its first
    point. *)
Lemma OverlapWalk_first (coord : Coord) (rest kept : list Coord) :
  OverlapWalk None (coord :: rest) kept -> hd_error kept = Some coord.
Proof.
  intro H. inversion H; reflexivity.
Qed.

(** The walk leaves no choice where the bearing to the next point, less
    180, is the recorded one: the point is left out. *)
Lemma OverlapWalk_reverse_left_out (coord nextPoint : Coord)
    (rest kept : list Coord) :
  OverlapWalk (Some (integerBearing coord nextPoint - 180))
    (coord :: nextPoint :: rest) kept ->
  OverlapWalk (Some (integerBearing coord nextPoint - 180))
    (nextPoint :: rest) kept.
Proof.
  intro H. inversion H; subst.
  - match goal with
    | Hno : forall bearing, _ -> _ |- _ =>
        exfalso; apply (Hno _ eq_refl); lia
    end.
  - assumption.
  - lia.
  - lia.
Qed.

(** Nor where the two bearings are not 180 degrees apart: the point is
    retained and its bearing recorded. *)
Lemma OverlapWalk_no_reverse_retained (recorded : Z) (coord nextPoint : Coord)
    (rest kept : list Coord) :
  Z.abs (integerBearing coord nextPoint - recorded) <> 180 ->
  OverlapWalk (Some recorded) (coord :: nextPoint :: rest) kept ->
  exists kept',
    kept = coord :: kept'
    /\ OverlapWalk (Some (integerBearing coord nextPoint)) (nextPoint :: rest)
         kept'.
Proof.
  intros Hno H. inversion H; subst.
  - eexists. split; [reflexivity | assumption].
  - lia.
  - lia.
  - lia.
Qed.

End OverlapRemoval.

(** ** The boundary resolver *)

Section Resolver.

Context {L : Libraries}.

Lemma lastCoordOf_snoc (cs : list Coord) (c : Coord) :
  lastCoordOf (cs ++ [c]) = Some c.
Proof.
  unfold lastCoordOf.
  destruct (cs ++ [c]) eqn:E; [destruct cs; discriminate E|].
  rewrite <- E, length_app. cbn [List.length].
  rewrite nth_error_app2 by lia.
  replace (List.length cs + 1 - 1 - List.length cs)%nat with O by lia.
  reflexivity.
Qed.

Lemma lastCoordOf_last (cs : list Coord) (d : Coord) :
  cs <> [] -> lastCoordOf cs = Some (last cs d).
Proof.
  intro Hne. destruct (exists_last Hne) as [init [c Heq]]. subst cs.
  rewrite lastCoordOf_snoc, last_last. reflexivity.
Qed.


(** What a successful [createCoordinatesFromArc] went through: a point to
    start from, four attributes that match their patterns, two decoded
    positions, and one call of [lineArc] whose points are returned in the
    order made, or reversed for a counter-clockwise arc. *)
Lemma createCoordinatesFromArc_Ok (this : AirspaceConverter)
    (boundaryDefinition : BoundaryDefinition) (a : ArcDefinition)
    (points : list Coord) :
  createCoordinatesFromArc this boundaryDefinition (Some a) = Ok points ->
  exists from dirS radiusS centreS toS center toPoint arcPoints,
    lastCoordOf (boundaryCoordinates this) = Some from
    /\ dir a = Some dirS /\ radius a = Some radiusS
    /\ centre a = Some centreS /\ to a = Some toS
    /\ REGEX_ARC_DIR dirS = true /\ REGEX_ARC_RADIUS radiusS = true
    /\ REGEX_COORDINATES centreS = true /\ REGEX_COORDINATES toS = true
    /\ transformCoordinates this centreS = Ok center
    /\ transformCoordinates this toS = Ok toPoint
    /\ createArc center (radiusToKm radiusS)
         (calcBearing center (if String.eqb dirS "cw" then from else toPoint))
         (calcBearing center (if String.eqb dirS "cw" then toPoint else from))
         (geometryDetail (config this)) = Ok arcPoints
    /\ points = (if String.eqb dirS "cw" then arcPoints else rev arcPoints).
Proof.
  unfold createCoordinatesFromArc. intro H.
  destruct (lastCoordOf (boundaryCoordinates this)) as [from|]; [|discriminate H].
  destruct (dir a) as [dirS|]; [|discriminate H].
  destruct (radius a) as [radiusS|]; [|discriminate H].
  destruct (centre a) as [centreS|]; [|discriminate H].
  destruct (to a) as [toS|]; [|discriminate H].
  cbn [test] in H.
  destruct (REGEX_ARC_DIR dirS) eqn:Rdir; [|discriminate H].
  destruct (REGEX_ARC_RADIUS radiusS) eqn:Rradius; [|discriminate H].
  destruct (REGEX_COORDINATES centreS) eqn:Rcentre; [|discriminate H].
  destruct (REGEX_COORDINATES toS) eqn:Rto; [|discriminate H].
  cbn [negb] in H.
  destruct (transformCoordinates this centreS) as [center|] eqn:Ec; [|discriminate H].
  destruct (transformCoordinates this toS) as [toPoint|] eqn:Et; [|discriminate H].
  cbn [bind] in H.
  exists from, dirS, radiusS, centreS, toS, center, toPoint.
  destruct (String.eqb dirS "cw") eqn:Ecw.
  - destruct (createArc _ _ _ _ _) as [arcPoints|] eqn:Earc; [|discriminate H].
    cbn [bind] in H. injection H as H. exists arcPoints.
    repeat split; try reflexivity; try assumption; symmetry; assumption.
  - destruct (createArc _ _ _ _ _) as [arcPoints|] eqn:Earc; [|discriminate H].
    cbn [bind] in H. injection H as H. exists arcPoints.
    repeat split; try reflexivity; try assumption; symmetry; assumption.
Qed.

Lemma lastCoordOf_rev (cs : list Coord) : lastCoordOf (rev cs) = hd_error cs.
Proof.
  destruct cs as [|c cs]; [reflexivity|].
  cbn [rev hd_error]. apply lastCoordOf_snoc.
Qed.

(** C7, as the code has it, for both directions. The points of an arc end
    with the end of the generated arc that belongs to the bearing of the
    decoded [to] as seen from the centre: the last point [lineArc] generated
    for a clockwise arc, the first for a counter-clockwise one. The arc is
    generated with the radius of the definition, and [to] enters through its
    bearing alone: with any other [to] on the same bearing the handler
    returns the same points. *)
Theorem arc_ends_at_bearing_of_to (this : AirspaceConverter)
    (boundaryDefinition : BoundaryDefinition) (a : ArcDefinition)
    (points : list Coord) :
  createCoordinatesFromArc this boundaryDefinition (Some a) = Ok points ->
  exists from radiusS centreS toS center toPoint arcPoints,
    lastCoordOf (boundaryCoordinates this) = Some from
    /\ radius a = Some radiusS /\ centre a = Some centreS /\ to a = Some toS
    /\ transformCoordinates this centreS = Ok center
    /\ transformCoordinates this toS = Ok toPoint
    /\ ((dir a = Some "cw"%string
         /\ createArc center (radiusToKm radiusS) (calcBearing center from)
              (calcBearing center toPoint) (geometryDetail (config this))
            = Ok arcPoints
         /\ lastCoordOf points = lastCoordOf arcPoints)
        \/ (dir a = Some "ccw"%string
            /\ createArc center (radiusToKm radiusS) (calcBearing center toPoint)
                 (calcBearing center from) (geometryDetail (config this))
               = Ok arcPoints
            /\ lastCoordOf points = hd_error arcPoints))
    /\ forall (otherDefinition : BoundaryDefinition) (otherS : string)
          (otherPoint : Coord),
         REGEX_COORDINATES otherS = true ->
         transformCoordinates this otherS = Ok otherPoint ->
         calcBearing center otherPoint = calcBearing center toPoint ->
         createCoordinatesFromArc this otherDefinition
           (Some {| dir := dir a; radius := radius a; centre := centre a;
                    to := Some otherS |})
         = Ok points.
Proof.
  intro H. apply createCoordinatesFromArc_Ok in H.
  destruct H as [from [dirS [radiusS [centreS [toS [center [toPoint [arcPoints
    [Hfrom [Hdir [Hradius [Hcentre [Hto [Rdir [Rradius [Rcentre [_ [Hc [Ht
    [Harc Hpoints]]]]]]]]]]]]]]]]]]]].
  exists from, radiusS, centreS, toS, center, toPoint, arcPoints.
  repeat (split; [assumption|]).
  split.
  - unfold REGEX_ARC_DIR in Rdir.
    destruct (String.eqb dirS "cw") eqn:Ecw.
    + left. apply String.eqb_eq in Ecw. subst dirS points. auto.
    + right. cbn [orb] in Rdir. apply String.eqb_eq in Rdir. subst dirS points.
      split; [exact Hdir|]. split; [exact Harc | apply lastCoordOf_rev].
  - intros otherDefinition otherS otherPoint Rother Hother Hbearing.
    unfold createCoordinatesFromArc.
    cbn [dir radius centre to]. rewrite Hfrom, Hdir, Hradius, Hcentre.
    cbn [test]. rewrite Rdir, Rradius, Rcentre, Rother. cbn [negb].
    rewrite Hc, Hother. cbn [bind].
    destruct (String.eqb dirS "cw"); rewrite Hbearing, Harc; cbn [bind];
      rewrite Hpoints; reflexivity.
Qed.

(** C9: when nothing has been resolved yet and the boundary begins with an
    arc, [createPolygonGeometry] throws the message that ends in "Previous
    coordinate pair is missing." and leaves the converter as it was: no ring
    is produced. *)
Theorem arc_without_previous_point (this : AirspaceConverter)
    (a : ArcDefinition) (rest : list BoundaryDefinition) :
  boundaryCoordinates this = [] ->
  createPolygonGeometry this (arc (Some a) :: rest)
  = (Throw (PreviousCoordinateMissing (arc (Some a)) (ident this) (seqno this)),
     this).
Proof.
  intro Hempty.
  unfold createPolygonGeometry. cbn [resolveBoundary resolveDefinition].
  unfold createCoordinatesFromArc. rewrite Hempty. reflexivity.
Qed.


End Resolver.

(** ** The assembler *)

Lemma Coord_eqb_eq (a b : Coord) : Coord_eqb a b = true <-> a = b.
Proof.
  destruct a as [ax ay], b as [bx by']. unfold Coord_eqb. cbn [fst snd].
  rewrite andb_true_iff, !Z.eqb_eq.
  split; [intros [-> ->]; reflexivity | intro H; injection H; auto].
Qed.

Lemma hd_error_rev {A : Type} (l : list A) (d : A) :
  l <> [] -> hd_error (rev l) = Some (last l d).
Proof.
  intro Hne. destruct (exists_last Hne) as [init [x Heq]]. subst l.
  rewrite rev_app_distr, last_last. reflexivity.
Qed.

Lemma last_rev {A : Type} (x : A) (l : list A) (d : A) :
  last (rev (x :: l)) d = x.
Proof.
  cbn [rev]. apply last_last.
Qed.

(** Closing appends the first point exactly when the last one differs. *)
Lemma autoCompleteCoords_cases (first : Coord) (others : list Coord) :
  (last (first :: others) first = first
   /\ autoCompleteCoords (first :: others) = first :: others)
  \/ (last (first :: others) first <> first
      /\ autoCompleteCoords (first :: others) = (first :: others) ++ [first]).
Proof.
  unfold autoCompleteCoords, sameXY.
  destruct (Coord_eqb first (last (first :: others) first)) eqn:E.
  - left. apply Coord_eqb_eq in E. split; [symmetry; exact E | reflexivity].
  - right. split; [|reflexivity].
    intro Heq. rewrite Heq in E.
    assert (Coord_eqb first first = true) by (apply Coord_eqb_eq; reflexivity).
    congruence.
Qed.

(** A closed sequence begins and ends with the same point. *)
Lemma autoCompleteCoords_closed (first : Coord) (others : list Coord) :
  let ring := autoCompleteCoords (first :: others) in
  hd_error ring = Some first /\ last ring first = first.
Proof.
  intro ring.
  destruct (autoCompleteCoords_cases first others) as [[Hl He] | [Hl He]];
    unfold ring; rewrite He.
  - split; [reflexivity | exact Hl].
  - split; [reflexivity | apply last_last].
Qed.

Lemma rewindRing_cases (ring : list Coord) :
  (signedArea2 ring < 0 /\ rewindRing ring = rev ring)
  \/ (0 <= signedArea2 ring /\ rewindRing ring = ring).
Proof.
  unfold rewindRing. destruct (signedArea2 ring <? 0) eqn:E.
  - left. apply Z.ltb_lt in E. auto.
  - right. apply Z.ltb_ge in E. auto.
Qed.

Lemma rewindRing_length (ring : list Coord) :
  List.length (rewindRing ring) = List.length ring.
Proof.
  destruct (rewindRing_cases ring) as [[_ ->] | [_ ->]];
    [apply length_rev | reflexivity].
Qed.

(** Reorienting keeps the ring closed. *)
Lemma rewindRing_closed (ring : list Coord) (first : Coord) :
  hd_error ring = Some first -> last ring first = first ->
  hd_error (rewindRing ring) = Some first /\ last (rewindRing ring) first = first.
Proof.
  intros Hhd Hlast.
  destruct (rewindRing_cases ring) as [[_ ->] | [_ ->]]; [|auto].
  destruct ring as [|x ring']; [discriminate Hhd|].
  injection Hhd as Hx. subst x. split.
  - rewrite (hd_error_rev (first :: ring') first) by discriminate.
    rewrite Hlast. reflexivity.
  - apply last_rev.
Qed.

Lemma last_default_irrelevant {A : Type} (x : A) (l : list A) (d d' : A) :
  last (x :: l) d = last (x :: l) d'.
Proof.
  revert x. induction l as [|y l IH]; intro x; [reflexivity|].
  change (last (y :: l) d = last (y :: l) d'). apply IH.
Qed.

Lemma signedArea2_cons (a b : Coord) (rest : list Coord) :
  signedArea2 (a :: b :: rest) = cross a b + signedArea2 (b :: rest).
Proof. reflexivity. Qed.

Lemma signedArea2_snoc (a : Coord) (l : list Coord) (x : Coord) :
  signedArea2 ((a :: l) ++ [x]) = signedArea2 (a :: l) + cross (last (a :: l) a) x.
Proof.
  revert a. induction l as [|b l IH]; intro a.
  - cbn. unfold cross. lia.
  - change ((a :: b :: l) ++ [x]) with (a :: ((b :: l) ++ [x])).
    change ((b :: l) ++ [x]) with (b :: (l ++ [x])).
    rewrite signedArea2_cons.
    change (b :: (l ++ [x])) with ((b :: l) ++ [x]).
    rewrite IH, signedArea2_cons.
    replace (last (a :: b :: l) a) with (last (b :: l) b).
    + lia.
    + change (last (a :: b :: l) a) with (last (b :: l) a).
      apply last_default_irrelevant.
Qed.

Lemma cross_antisym (a b : Coord) : cross b a = - cross a b.
Proof. unfold cross. ring. Qed.

(** Reversing a ring negates its signed area. *)
Lemma signedArea2_rev (ring : list Coord) :
  signedArea2 (rev ring) = - signedArea2 ring.
Proof.
  induction ring as [|a ring IH]; [reflexivity|].
  destruct ring as [|b ring'].
  - reflexivity.
  - cbn [rev] in *.
    destruct (rev ring' ++ [b]) as [|c m] eqn:Erev.
    + destruct (rev ring'); discriminate Erev.
    + rewrite signedArea2_snoc, IH, signedArea2_cons.
      replace (last (c :: m) c) with b.
      * rewrite (cross_antisym a b). lia.
      * rewrite <- Erev. symmetry. apply last_last.
Qed.

Lemma rewindRing_counter_clockwise (ring : list Coord) :
  0 <= signedArea2 (rewindRing ring).
Proof.
  destruct (rewindRing_cases ring) as [[Hneg ->] | [Hpos ->]].
  - rewrite signedArea2_rev. lia.
  - exact Hpos.
Qed.

Section Assembler.

Context {L : Libraries}.

(** When the loop over the boundary throws, so does the method. *)
Lemma createPolygonGeometry_resolved (this this'' : AirspaceConverter)
    (boundary : list BoundaryDefinition) (g : Geometry) :
  createPolygonGeometry this boundary = (Ok g, this'') ->
  exists this',
    resolveBoundary this boundary = (Ok tt, this')
    /\ lineToPolygon (boundaryCoordinates this') = Ok {| coordinates := [autoCompleteCoords (boundaryCoordinates this')] |}
    /\ g = {| coordinates := [rewindRing (autoCompleteCoords (boundaryCoordinates this'))] |}.
Proof.
  unfold createPolygonGeometry.
  destruct (resolveBoundary this boundary) as [[[]|e] this'] eqn:Eres;
    [|discriminate].
  unfold createLineString, lineToPolygon.
  destruct (List.length (autoCompleteCoords (boundaryCoordinates this')) <? 4)%nat
    eqn:Elen; [discriminate|].
  intro H. injection H as Hg _. exists this'.
  rewrite Elen.
  split; [reflexivity | split; [reflexivity | symmetry; exact Hg]].
Qed.

(** C6 (the closing and the rejection are those of section 4.5): the
    accumulated sequence is closed by appending its first point exactly
    when first and last differ; a closed sequence of fewer than four points
    is rejected with an error; a closed sequence of four points or more is
    returned as the ring of the polygon, in its own order or reversed; and
    every ring [createPolygonGeometry] returns begins and ends with the
    same point and has at least four. *)
Theorem createPolygonGeometry_closed_ring (this this' : AirspaceConverter)
    (boundary : list BoundaryDefinition) :
  resolveBoundary this boundary = (Ok tt, this') ->
  let accumulated := boundaryCoordinates this' in
  let closed := autoCompleteCoords accumulated in
  (forall first others,
      accumulated = first :: others ->
      (last accumulated first <> first -> closed = accumulated ++ [first])
      /\ (last accumulated first = first -> closed = accumulated))
  /\ ((List.length closed < 4)%nat ->
      fst (createPolygonGeometry this boundary) = Throw DegeneratePolygon)
  /\ ((4 <= List.length closed)%nat ->
      exists first ring,
        fst (createPolygonGeometry this boundary)
        = Ok {| coordinates := [ring] |}
        /\ hd_error ring = Some first /\ last ring first = first
        /\ (4 <= List.length ring)%nat
        /\ (ring = closed \/ ring = rev closed))
  /\ (forall g,
        fst (createPolygonGeometry this boundary) = Ok g ->
        exists first ring,
          coordinates g = [ring]
          /\ hd_error ring = Some first /\ last ring first = first
          /\ (4 <= List.length ring)%nat
          /\ (ring = closed \/ ring = rev closed)).
Proof.
  intros Hres accumulated closed.
  assert (Hlong :
    (4 <= List.length closed)%nat ->
    exists first ring,
      fst (createPolygonGeometry this boundary)
      = Ok {| coordinates := [ring] |}
      /\ hd_error ring = Some first /\ last ring first = first
      /\ (4 <= List.length ring)%nat
      /\ (ring = closed \/ ring = rev closed)).
  { intro Elen. unfold createPolygonGeometry. rewrite Hres.
    unfold createLineString, lineToPolygon. fold accumulated. fold closed.
    assert (Hge : (List.length closed <? 4)%nat = false)
      by (apply Nat.ltb_ge; exact Elen).
    rewrite Hge. cbn [fst rewind coordinates].
    destruct accumulated as [|first others] eqn:Eacc.
    - cbn in Elen. lia.
    - exists first, (rewindRing closed).
      destruct (autoCompleteCoords_closed first others) as [Hhd Hlast].
      fold closed in Hhd, Hlast.
      destruct (rewindRing_closed closed first Hhd Hlast) as [Hhd' Hlast'].
      split; [reflexivity|]. split; [exact Hhd'|]. split; [exact Hlast'|].
      split.
      + rewrite rewindRing_length. exact Elen.
      + destruct (rewindRing_cases closed) as [[_ ->] | [_ ->]]; auto. }
  assert (Hshort :
    (List.length closed < 4)%nat ->
    fst (createPolygonGeometry this boundary) = Throw DegeneratePolygon).
  { intro Hlt. unfold createPolygonGeometry. rewrite Hres.
    unfold createLineString, lineToPolygon. fold accumulated. fold closed.
    apply Nat.ltb_lt in Hlt. rewrite Hlt. reflexivity. }
  split; [|split; [exact Hshort | split; [exact Hlong|]]].
  - intros first others Hacc. subst closed. rewrite Hacc.
    destruct (autoCompleteCoords_cases first others) as [[Hl He] | [Hl He]];
      split; intro H; try contradiction; exact He.
  - intros g Hg.
    destruct (Nat.lt_ge_cases (List.length closed) 4) as [Hlt | Hge].
    + rewrite (Hshort Hlt) in Hg. discriminate Hg.
    + destruct (Hlong Hge) as [first [ring [Hok Hring]]].
      rewrite Hok in Hg. injection Hg as <-.
      exists first, ring. split; [reflexivity | exact Hring].
Qed.

(** C5 (the reorientation is that of section 4.5): the ring
    [createPolygonGeometry] returns has a signed area that is not negative;
    it is the closed sequence itself, or that sequence reversed when its
    signed area was negative. *)
Theorem createPolygonGeometry_counter_clockwise (this this'' : AirspaceConverter)
    (boundary : list BoundaryDefinition) (g : Geometry) :
  createPolygonGeometry this boundary = (Ok g, this'') ->
  exists ring closed,
    coordinates g = [ring]
    /\ closed = autoCompleteCoords
                  (boundaryCoordinates (snd (resolveBoundary this boundary)))
    /\ 0 <= signedArea2 ring
    /\ ((signedArea2 closed < 0 /\ ring = rev closed)
        \/ (0 <= signedArea2 closed /\ ring = closed)).
Proof.
  intro H. apply createPolygonGeometry_resolved in H.
  destruct H as [this' [Hres [_ Hg]]].
  exists (rewindRing (autoCompleteCoords (boundaryCoordinates this'))),
         (autoCompleteCoords (boundaryCoordinates this')).
  rewrite Hres, Hg. cbn [snd coordinates].
  repeat split.
  - apply rewindRing_counter_clockwise.
  - apply rewindRing_cases.
Qed.

End Assembler.

(** ** Validation and repair *)

Section Repair.

Context {L : Libraries}.

Lemma validatesClean_true_iff (geometry : Geometry) :
  validatesClean geometry = true
  <-> report_isValid (validateGeometry geometry) = true
      /\ report_isSimple (validateGeometry geometry) = true
      /\ truthy (report_selfIntersect (validateGeometry geometry)) = false.
Proof.
  unfold validatesClean. cbv zeta.
  rewrite !andb_true_iff, negb_true_iff. tauto.
Qed.

(** The test at the head of [fixGeometry] is the negation of
    [validatesClean]. *)
Lemma fixGeometry_test (geometry : Geometry) :
  let v := validateGeometry geometry in
  negb (report_isValid v) || negb (report_isSimple v)
  || truthy (report_selfIntersect v)
  = negb (validatesClean geometry).
Proof.
  unfold validatesClean. cbv zeta.
  destruct (report_isValid _), (report_isSimple _), (truthy _); reflexivity.
Qed.

(** C4: a geometry the validator reports valid, simple and without a
    self-intersection is returned by [fixGeometry] as it is. *)
Theorem fixGeometry_unchanged_when_clean (this : AirspaceConverter)
    (geometry : Geometry) :
  report_isValid (validateGeometry geometry) = true ->
  report_isSimple (validateGeometry geometry) = true ->
  report_selfIntersect (validateGeometry geometry) = siUndefined ->
  fixGeometry this geometry = Ok geometry.
Proof.
  intros Hvalid Hsimple Hself.
  unfold fixGeometry. cbv zeta. rewrite Hvalid, Hsimple, Hself. reflexivity.
Qed.

(** The empty object that [getSelfIntersections] returns for a
    node-consistent area is truthy: such a geometry is repaired even when
    it is valid and simple. *)
Lemma fixGeometry_repairs_on_empty_object (this : AirspaceConverter)
    (geometry : Geometry) (ring : list Coord) :
  report_selfIntersect (validateGeometry geometry) = siEmptyObject ->
  nth_error (coordinates geometry) 0 = Some ring ->
  fixGeometry this geometry
  = tryCatch (createFixedPolygon ring)
      (fun e => Throw (FailedToCreateFixedGeometry (ident this) (seqno this) e)).
Proof.
  intros Hself Hring. unfold fixGeometry. cbv zeta. rewrite Hself, Hring.
  cbn [truthy]. rewrite !orb_true_r. reflexivity.
Qed.

Lemma getPolygonStep_largest (seen : list Geometry)
    (st : option Geometry * option Q) (feature : Geometry) :
  largestSoFar seen st ->
  largestSoFar (seen ++ [feature]) (getPolygonStep st feature).
Proof.
  destruct st as [[p|] [a|]]; cbn [largestSoFar]; try contradiction.
  - intros [Ha [Hin Hmax]]. subst a. unfold getPolygonStep.
    destruct (Qle_bool (getArea p) (getArea feature)) eqn:E; cbn [largestSoFar].
    + apply Qle_bool_iff in E. split; [reflexivity|]. split.
      * apply in_or_app. right. left. reflexivity.
      * intros q Hq. apply in_app_or in Hq. destruct Hq as [Hq | [<- | []]].
        -- eapply Qle_trans; [apply Hmax, Hq | exact E].
        -- apply Qle_refl.
    + split; [reflexivity|]. split.
      * apply in_or_app. left. exact Hin.
      * intros q Hq. apply in_app_or in Hq. destruct Hq as [Hq | [<- | []]].
        -- apply Hmax, Hq.
        -- apply Qlt_le_weak, Qnot_le_lt. intro Hle.
           apply Qle_bool_iff in Hle. congruence.
  - intro Hneg. unfold getPolygonStep.
    destruct (Qle_bool 0 (getArea feature)) eqn:E; cbn [largestSoFar].
    + apply Qle_bool_iff in E. split; [reflexivity|]. split.
      * apply in_or_app. right. left. reflexivity.
      * intros q Hq. apply in_app_or in Hq. destruct Hq as [Hq | [<- | []]].
        -- apply Qlt_le_weak. eapply Qlt_le_trans; [apply Hneg, Hq | exact E].
        -- apply Qle_refl.
    + intros q Hq. apply in_app_or in Hq. destruct Hq as [Hq | [<- | []]].
      * apply Hneg, Hq.
      * apply Qnot_le_lt. intro Hle. apply Qle_bool_iff in Hle. congruence.
Qed.

Lemma getPolygon_loop_largest (features seen : list Geometry)
    (st : option Geometry * option Q) :
  largestSoFar seen st ->
  largestSoFar (seen ++ features) (fold_left getPolygonStep features st).
Proof.
  revert seen st.
  induction features as [|f fs IH]; intros seen st Hinv; cbn [fold_left].
  - rewrite app_nil_r. exact Hinv.
  - replace (seen ++ f :: fs) with ((seen ++ [f]) ++ fs)
      by (rewrite <- app_assoc; reflexivity).
    apply IH, getPolygonStep_largest, Hinv.
Qed.

(** [getPolygon] answers with a feature of the collection whose area none
    of the others exceeds. *)
Lemma getPolygon_largest (features : list Geometry) (polygon : Geometry) :
  getPolygon features = Some polygon ->
  In polygon features
  /\ forall q, In q features -> (getArea q <= getArea polygon)%Q.
Proof.
  unfold getPolygon. intro H.
  assert (Hstart : largestSoFar [] (None, None)) by (intros q []).
  pose proof (getPolygon_loop_largest features [] (None, None) Hstart) as Hinv.
  cbn [app] in Hinv.
  destruct (fold_left getPolygonStep features (None, None)) as [[p|] [a|]];
    cbn [fst] in H; try discriminate H.
  - injection H as H. subst p.
    destruct Hinv as [_ [Hin Hmax]]. auto.
  - contradiction.
Qed.

(** What [createFixedPolygon] returns: the largest part of the unkinked
    cleaned ring, or the envelope of the cleaned points. *)
Lemma createFixedPolygon_Ok (ring : list Coord) (fixed : Geometry) :
  createFixedPolygon ring = Ok fixed ->
  let cleaned := removeOverlapPoints (removeDuplicates ring) in
  (exists polygon parts,
      lineToPolygon cleaned = Ok polygon
      /\ unkinkPolygon polygon = Ok parts
      /\ In fixed parts
      /\ forall q, In q parts -> (getArea q <= getArea fixed)%Q)
  \/ ((exists e, unkinkLargest cleaned = Throw e)
      /\ envelope cleaned = Ok fixed).
Proof.
  intro H. cbv zeta. unfold createFixedPolygon in H. cbv zeta in H.
  set (cleaned := removeOverlapPoints (removeDuplicates ring)) in *.
  destruct (unkinkLargest cleaned) as [g|e] eqn:Eun; cbn [tryCatch] in H.
  - left. injection H as H. subst g.
    unfold unkinkLargest, createLineString in Eun.
    destruct (lineToPolygon cleaned) as [polygon|] eqn:Epoly; [|discriminate Eun].
    cbn [bind] in Eun.
    destruct (unkinkPolygon polygon) as [parts|] eqn:Eparts; [|discriminate Eun].
    cbn [bind] in Eun.
    destruct (getPolygon parts) as [p|] eqn:Eget; [|discriminate Eun].
    injection Eun as Eun. subst p.
    destruct (getPolygon_largest parts fixed Eget) as [Hin Hmax].
    exists polygon, parts. auto.
  - right. split; [exists e; reflexivity|].
    destruct (envelope cleaned) as [g|e'] eqn:Eenv; cbn [tryCatch] in H;
      [exact H | discriminate H].
Qed.

(** The envelope is returned as it comes: when the validator rejects the
    geometry and the unkinking throws, [fixGeometry] answers with the
    envelope of the cleaned points, whatever the validator would say of it. *)
Lemma fixGeometry_returns_envelope_unchecked (this : AirspaceConverter)
    (geometry box : Geometry) (ring : list Coord) (e : Error) :
  validatesClean geometry = false ->
  nth_error (coordinates geometry) 0 = Some ring ->
  unkinkLargest (removeOverlapPoints (removeDuplicates ring)) = Throw e ->
  envelope (removeOverlapPoints (removeDuplicates ring)) = Ok box ->
  fixGeometry this geometry = Ok box.
Proof.
  intros Hclean Hring Hun Henv. unfold fixGeometry. cbv zeta.
  pose proof (fixGeometry_test geometry) as Htest. cbv zeta in Htest.
  rewrite Htest, Hclean, Hring. cbn [negb].
  unfold createFixedPolygon. cbv zeta. rewrite Hun. cbn [tryCatch].
  rewrite Henv. reflexivity.
Qed.

End Repair.

(** ** Worked examples *)

Section WorkedExamples.

#[local] Existing Instance Stub.libraries.

Import Examples.

(** C9 at the boundary that consists of the quarter arc alone. *)
Lemma arc_without_previous_point_witness :
  createPolygonGeometry converter [arc (Some quarterArc)]
  = (Throw (PreviousCoordinateMissing (arc (Some quarterArc))
              (Some "EXAMPLE CTA"%string) (Some 1)),
     converter).
Proof.
  apply (arc_without_previous_point converter quarterArc []).
  reflexivity.
Defined.



(** C6 at the triangle: three points, the closing one appended. *)
Lemma createPolygonGeometry_closed_ring_witness :
  (forall first others,
      triangleAccumulated = first :: others ->
      (last triangleAccumulated first <> first ->
       autoCompleteCoords triangleAccumulated = triangleAccumulated ++ [first])
      /\ (last triangleAccumulated first = first ->
          autoCompleteCoords triangleAccumulated = triangleAccumulated))
  /\ ((List.length (autoCompleteCoords triangleAccumulated) < 4)%nat ->
      fst (createPolygonGeometry converter triangle) = Throw DegeneratePolygon)
  /\ ((4 <= List.length (autoCompleteCoords triangleAccumulated))%nat ->
      exists first ring,
        fst (createPolygonGeometry converter triangle)
        = Ok {| coordinates := [ring] |}
        /\ hd_error ring = Some first /\ last ring first = first
        /\ (4 <= List.length ring)%nat
        /\ (ring = autoCompleteCoords triangleAccumulated
            \/ ring = rev (autoCompleteCoords triangleAccumulated)))
  /\ (forall g,
        fst (createPolygonGeometry converter triangle) = Ok g ->
        exists first ring,
          coordinates g = [ring]
          /\ hd_error ring = Some first /\ last ring first = first
          /\ (4 <= List.length ring)%nat
          /\ (ring = autoCompleteCoords triangleAccumulated
              \/ ring = rev (autoCompleteCoords triangleAccumulated))).
Proof.
  apply (createPolygonGeometry_closed_ring converter
           (setBoundaryCoordinates converter triangleAccumulated) triangle).
  vm_compute. reflexivity.
Defined.

(** C5 at the triangle given clockwise: the ring comes back reversed. *)
Lemma createPolygonGeometry_counter_clockwise_witness :
  exists ring closed,
    coordinates {| coordinates := [triangleRing] |} = [ring]
    /\ closed = autoCompleteCoords
                  (boundaryCoordinates
                     (snd (resolveBoundary converter clockwiseTriangle)))
    /\ 0 <= signedArea2 ring
    /\ ((signedArea2 closed < 0 /\ ring = rev closed)
        \/ (0 <= signedArea2 closed /\ ring = closed)).
Proof.
  apply (createPolygonGeometry_counter_clockwise converter
           (setBoundaryCoordinates converter triangleRing) clockwiseTriangle).
  vm_compute. reflexivity.
Defined.

(** C4 at the square. *)
Lemma fixGeometry_unchanged_when_clean_witness :
  fixGeometry converter square = Ok square.
Proof.
  apply fixGeometry_unchanged_when_clean; vm_compute; reflexivity.
Defined.

(** C1, at the ring of four equal positions that the line of four equal
    tokens gives: the validator finds it invalid, the duplicates are removed
    and one position is left, no line string can be made of it, and
    [fixGeometry] returns the envelope of that one position without an
    error; the validator finds what is returned invalid. *)
Theorem fixGeometry_returns_invalid_envelope :
  isValid collapsed = false
  /\ removeOverlapPoints (removeDuplicates [(600, 600); (600, 600); (600, 600); (600, 600)])
     = [(600, 600)]
  /\ fixGeometry converter collapsed = Ok collapsedEnvelope
  /\ report_isValid (validateGeometry collapsedEnvelope) = false.
Proof.
  repeat split; vm_compute; reflexivity.
Qed.

Lemma stubBearing_range (a b : Coord) :
  Z.abs (JS.parseInt (calcBearing a b)) <= 180.
Proof.
  cbn [calcBearing Stub.libraries]. unfold Stub.stubBearing.
  destruct (Coord_eqb a b); [vm_compute; discriminate|].
  destruct (fst a =? fst b).
  - destruct (snd a <? snd b); vm_compute; discriminate.
  - destruct ((snd a =? 0) && (snd b =? 0)); [|vm_compute; discriminate].
    destruct (fst a <? fst b); vm_compute; discriminate.
Qed.

(** C2 as the code has it, at the walk there and back. *)
Lemma removeOverlapPoints_walk_witness :
  OverlapWalk None thereAndBack (removeOverlapPoints thereAndBack).
Proof.
  apply (removeOverlapPoints_walk thereAndBack).
  exact stubBearing_range.
Defined.

(** C2 as the spec states it fails here. The point at one degree east is
    reached on the bearing 90 and left on the bearing 90, straight on, and
    it is dropped all the same: the bearing recorded last is the -90 of the
    first point, the point between having been dropped. *)
Lemma removeOverlapPoints_drops_straight_on :
  JS.parseInt (calcBearing (7200, 0) (0, 0)) = -90
  /\ JS.parseInt (calcBearing (0, 0) (3600, 0)) = 90
  /\ JS.parseInt (calcBearing (3600, 0) (9000, 0)) = 90
  /\ removeOverlapPoints thereAndBack = [(7200, 0); (9000, 0)].
Proof.
  repeat split; vm_compute; reflexivity.
Qed.

(** The reverse turn that is missed: out east and straight back. The
    bearing to the middle point is 90, the bearing away from it -90, its
    exact reverse, and the point is kept; flown from the east, -90 then 90,
    the middle point is dropped. *)
Lemma removeOverlapPoints_keeps_eastward_spike :
  JS.parseInt (calcBearing (0, 0) (7200, 0)) = 90
  /\ JS.parseInt (calcBearing (7200, 0) (3600, 0)) = -90
  /\ removeOverlapPoints eastwardSpike = eastwardSpike
  /\ removeOverlapPoints westwardSpike = [(7200, 0); (3600, 0)].
Proof.
  split; [reflexivity|]. split; [reflexivity|]. split.
  - apply (removeOverlapPoints_keeps_reverse_turn (0, 0) (7200, 0) (3600, 0) 90);
      [lia | reflexivity | reflexivity].
  - apply (removeOverlapPoints_drops_mirrored_turn (7200, 0) (0, 0) (3600, 0) 90);
      [lia | reflexivity | reflexivity].
Qed.

End WorkedExamples.

(** ** More on deduplication *)

Lemma Qltb_true_iff (x y : Q) : JS.Qltb x y = true <-> (x < y)%Q.
Proof.
  unfold JS.Qltb. rewrite negb_true_iff. split; intro H.
  - apply Qnot_le_lt. intro Hle. apply Qle_bool_iff in Hle. congruence.
  - destruct (Qle_bool y x) eqn:E; [|reflexivity].
    apply Qle_bool_iff in E. exfalso. exact (Qlt_not_le _ _ H E).
Qed.

Section DeduplicationMore.

Context {L : Libraries}.

Lemma dedup_loop_grows (coordinates processed : list Coord) (y : Coord) :
  In y processed -> In y (fold_left dedupStep coordinates processed).
Proof.
  intro Hy. destruct (dedup_loop_Subsequence coordinates processed) as [kept [Hk _]].
  rewrite Hk. apply in_or_app. left. exact Hy.
Qed.

(** Every point the loop visits ends up retained or within a metre of a
    retained point. *)
Lemma dedup_loop_covers (coordinates processed : list Coord) (x : Coord) :
  In x coordinates ->
  exists y,
    In y (fold_left dedupStep coordinates processed)
    /\ (y = x \/ (distance y x < 1 # 1000)%Q).
Proof.
  revert processed.
  induction coordinates as [|c cs IH]; intros processed Hx; [contradiction|].
  cbn [fold_left]. destruct Hx as [-> | Hx]; [|apply IH, Hx].
  unfold dedupStep.
  destruct (find (within1m x) processed) as [y|] eqn:Efind.
  - apply find_some in Efind. destruct Efind as [Hin Hnear].
    exists y. split; [apply dedup_loop_grows, Hin|].
    right. unfold within1m in Hnear. apply Qltb_true_iff in Hnear. exact Hnear.
  - exists x. split; [|left; reflexivity].
    apply dedup_loop_grows, in_or_app. right. left. reflexivity.
Qed.

(** X1: [removeDuplicates] returns its input with some points left out,
    the order unchanged, and it always retains the first point. *)
Theorem removeDuplicates_keeps_order_and_first (coordinates : list Coord) :
  Subsequence (removeDuplicates coordinates) coordinates
  /\ hd_error (removeDuplicates coordinates) = hd_error coordinates.
Proof.
  split; [apply removeDuplicates_Subsequence|].
  destruct coordinates as [|c cs]; [reflexivity|].
  unfold removeDuplicates. cbn [fold_left].
  destruct (dedup_loop_Subsequence cs (dedupStep [] c)) as [kept [Hk _]].
  rewrite Hk. reflexivity.
Qed.

(** X2: nothing is lost without a stand-in: every point of the input is
    retained, or a retained point lies less than 0.001 km from it. *)
Theorem removeDuplicates_covers (coordinates : list Coord) (x : Coord) :
  In x coordinates ->
  exists y,
    In y (removeDuplicates coordinates)
    /\ (y = x \/ (distance y x < 1 # 1000)%Q).
Proof.
  apply dedup_loop_covers.
Qed.

(** X3: a position that occurred before is never retained again, provided
    the distance of a position to itself is below the threshold: the closing
    point of a ring is dropped. *)
Theorem removeDuplicates_drops_repeated (coordinates : list Coord) (x : Coord) :
  (distance x x < 1 # 1000)%Q ->
  In x coordinates ->
  removeDuplicates (coordinates ++ [x]) = removeDuplicates coordinates.
Proof.
  intros Hself Hin. unfold removeDuplicates.
  rewrite fold_left_app. cbn [fold_left].
  fold (removeDuplicates coordinates).
  destruct (dedup_loop_covers coordinates [] x Hin) as [y [Hy Hnear]].
  fold (removeDuplicates coordinates) in Hy.
  unfold dedupStep.
  destruct (find (within1m x) (removeDuplicates coordinates)) eqn:Efind;
    [reflexivity|].
  exfalso. pose proof (find_none _ _ Efind y Hy) as Hfar.
  unfold within1m in Hfar. apply Qltb_false_iff in Hfar.
  destruct Hnear as [-> | Hnear]; eapply Qlt_not_le; eassumption.
Qed.

(** X4: the sequences [removeDuplicates] returns unchanged are exactly those
    in which no point is within 0.001 km of a point before it. *)
Theorem removeDuplicates_fixed_iff (coordinates : list Coord) :
  removeDuplicates coordinates = coordinates
  <-> (forall before x after,
          coordinates = before ++ x :: after ->
          forall y, In y before -> (1 # 1000 <= distance y x)%Q).
Proof.
  split.
  - intros Hfix before x after Heq y Hy.
    pose proof (removeDuplicates_Apart coordinates) as HA.
    rewrite Hfix in HA.
    apply (find_none_distance x before (HA before x after Heq) y Hy).
  - intro Hfar. unfold removeDuplicates.
    apply (dedup_loop_keeps_all coordinates []).
    intros before x after Heq. cbn [app] in Heq.
    destruct (find (within1m x) before) as [y|] eqn:Efind; [|reflexivity].
    exfalso. apply find_some in Efind. destruct Efind as [Hin Hnear].
    unfold within1m in Hnear. apply Qltb_true_iff in Hnear.
    exact (Qlt_not_le _ _ Hnear (Hfar before x after Heq y Hin)).
Qed.

End DeduplicationMore.

(** ** More on overlap removal *)

Section OverlapRemovalMore.

Context {L : Libraries}.

Lemma overlapFrom_first (coord : Coord) (rest : list Coord) :
  hd_error (overlapFrom None (coord :: rest)) = Some coord.
Proof.
  destruct rest as [|nextPoint rest]; [reflexivity|].
  rewrite overlapFrom_step. reflexivity.
Qed.

(** X5: [removeOverlapPoints] always retains the first point, and a
    sequence of at most two points comes back unchanged. *)
Theorem removeOverlapPoints_first_and_short (coordinates : list Coord) :
  hd_error (removeOverlapPoints coordinates) = hd_error coordinates
  /\ ((List.length coordinates <= 2)%nat ->
      removeOverlapPoints coordinates = coordinates).
Proof.
  rewrite removeOverlapPoints_overlapFrom. split.
  - destruct coordinates as [|c cs]; [reflexivity | apply overlapFrom_first].
  - intro Hlen.
    destruct coordinates as [|a [|b [|c rest]]]; try reflexivity.
    cbn in Hlen. lia.
Qed.

Lemma integerBearing_range (a b : Coord) :
  Z.abs (JS.parseInt (calcBearing a b)) <= 180 ->
  -180 <= integerBearing a b <= 360.
Proof.
  intro H. apply use360_range, H.
Qed.

(** X6: what happens to the middle one of three points. With bearings of
    at most 180 degrees either way, it is dropped exactly when the integer
    bearing out of it (360 for 0) less 180 equals the integer bearing into
    it (360 for 0). A reverse turn whose bearing out is the smaller of the
    two is not noticed. *)
Theorem removeOverlapPoints_three_points (a b c : Coord) :
  (forall p q, Z.abs (JS.parseInt (calcBearing p q)) <= 180) ->
  removeOverlapPoints [a; b; c]
  = if integerBearing b c - 180 =? integerBearing a b then [a; c] else [a; b; c].
Proof.
  intro Hrange.
  rewrite removeOverlapPoints_overlapFrom.
  rewrite overlapFrom_step. cbv zeta.
  change (keepsPoint None (use360 (JS.parseInt (calcBearing a b)))) with true.
  cbv iota. rewrite overlapFrom_step. cbv zeta.
  fold (integerBearing a b). fold (integerBearing b c).
  pose proof (integerBearing_range b c (Hrange b c)) as Hbc.
  destruct (keepsPoint (Some (integerBearing a b)) (integerBearing b c)) eqn:Ekeep.
  - destruct (integerBearing b c - 180 =? integerBearing a b) eqn:E; [|reflexivity].
    apply Z.eqb_eq in E.
    assert (Hfalse : keepsPoint (Some (integerBearing a b)) (integerBearing b c) = false).
    { apply keepsPoint_false_iff; [lia | rewrite E; reflexivity]. }
    congruence.
  - apply keepsPoint_false_iff in Ekeep; [|lia].
    injection Ekeep as Ekeep. rewrite Ekeep, Z.eqb_refl. reflexivity.
Qed.

Lemma NoTurnBack_tail (a : Coord) (rest : list Coord) :
  NoTurnBack (a :: rest) -> NoTurnBack rest.
Proof.
  intros H before x y z after Heq.
  apply (H (a :: before) x y z after). rewrite Heq. reflexivity.
Qed.

Lemma overlapFrom_straight (rest : list Coord) (a b : Coord) :
  (forall p q, Z.abs (JS.parseInt (calcBearing p q)) <= 180) ->
  NoTurnBack (a :: b :: rest) ->
  overlapFrom (Some (integerBearing a b)) (b :: rest) = b :: rest.
Proof.
  intro Hrange. revert a b.
  induction rest as [|c rest IH]; intros a b Hno; [reflexivity|].
  rewrite overlapFrom_step. cbv zeta. fold (integerBearing b c).
  pose proof (integerBearing_range b c (Hrange b c)) as Hbc.
  destruct (keepsPoint (Some (integerBearing a b)) (integerBearing b c)) eqn:Ekeep.
  - rewrite (IH b c (NoTurnBack_tail a _ Hno)). reflexivity.
  - exfalso. apply keepsPoint_false_iff in Ekeep; [|lia].
    injection Ekeep as Ekeep.
    apply (Hno [] a b c rest); [reflexivity | symmetry; exact Ekeep].
Qed.

(** X7: nothing is dropped without such a turn. With bearings of at most
    180 degrees either way, a sequence in which no bearing out of a point,
    less 180, equals the bearing into that point comes back unchanged. *)
Theorem removeOverlapPoints_unchanged_without_turn_back (coordinates : list Coord) :
  (forall p q, Z.abs (JS.parseInt (calcBearing p q)) <= 180) ->
  NoTurnBack coordinates ->
  removeOverlapPoints coordinates = coordinates.
Proof.
  intros Hrange Hno. rewrite removeOverlapPoints_overlapFrom.
  destruct coordinates as [|a [|b rest]]; try reflexivity.
  rewrite overlapFrom_step. cbv zeta.
  change (keepsPoint None (use360 (JS.parseInt (calcBearing a b)))) with true.
  cbv iota. fold (integerBearing a b).
  rewrite (overlapFrom_straight rest a b Hrange Hno). reflexivity.
Qed.

End OverlapRemovalMore.

(** ** More on the repair *)

Section RepairMore.

Context {L : Libraries}.

Lemma getPolygonStep_lastLargest (seen : list Geometry)
    (st : option Geometry * option Q) (feature : Geometry) :
  lastLargestSoFar seen st ->
  lastLargestSoFar (seen ++ [feature]) (getPolygonStep st feature).
Proof.
  destruct st as [[p|] [a|]]; cbn [lastLargestSoFar]; try contradiction.
  - intros [Ha [Hpos [before [after [Hseen [Hbefore Hafter]]]]]]. subst a.
    unfold getPolygonStep.
    destruct (Qle_bool (getArea p) (getArea feature)) eqn:E; cbn [lastLargestSoFar].
    + apply Qle_bool_iff in E.
      split; [reflexivity|]. split; [eapply Qle_trans; eassumption|].
      exists seen, []. split; [reflexivity|]. split; [|intros q []].
      intros q Hq. rewrite Hseen in Hq.
      apply in_app_or in Hq. destruct Hq as [Hq | [<- | Hq]].
      * eapply Qle_trans; [apply Hbefore, Hq | exact E].
      * exact E.
      * eapply Qle_trans; [apply Qlt_le_weak, Hafter, Hq | exact E].
    + split; [reflexivity|]. split; [exact Hpos|].
      exists before, (after ++ [feature]). split.
      * rewrite Hseen, <- app_assoc. reflexivity.
      * split; [exact Hbefore|].
        intros q Hq. apply in_app_or in Hq. destruct Hq as [Hq | [<- | []]].
        -- apply Hafter, Hq.
        -- apply Qnot_le_lt. intro Hle. apply Qle_bool_iff in Hle. congruence.
  - intro Hneg. unfold getPolygonStep.
    destruct (Qle_bool 0 (getArea feature)) eqn:E; cbn [lastLargestSoFar].
    + apply Qle_bool_iff in E.
      split; [reflexivity|]. split; [exact E|].
      exists seen, []. split; [reflexivity|]. split; [|intros q []].
      intros q Hq. apply Qlt_le_weak. eapply Qlt_le_trans; [apply Hneg, Hq | exact E].
    + intros q Hq. apply in_app_or in Hq. destruct Hq as [Hq | [<- | []]].
      * apply Hneg, Hq.
      * apply Qnot_le_lt. intro Hle. apply Qle_bool_iff in Hle. congruence.
Qed.

Lemma getPolygon_loop_lastLargest (features seen : list Geometry)
    (st : option Geometry * option Q) :
  lastLargestSoFar seen st ->
  lastLargestSoFar (seen ++ features) (fold_left getPolygonStep features st).
Proof.
  revert seen st.
  induction features as [|f fs IH]; intros seen st Hinv; cbn [fold_left].
  - rewrite app_nil_r. exact Hinv.
  - replace (seen ++ f :: fs) with ((seen ++ [f]) ++ fs)
      by (rewrite <- app_assoc; reflexivity).
    apply IH, getPolygonStep_lastLargest, Hinv.
Qed.

(** X8: which feature [getPolygon] chooses. It answers [null] exactly when
    every area is negative (an empty collection included); otherwise it
    answers with the last of the features of largest area: none before it
    is larger, all after it are smaller. *)
Theorem getPolygon_last_largest (features : list Geometry) :
  match getPolygon features with
  | Some polygon =>
      (0 <= getArea polygon)%Q
      /\ exists before after,
           features = before ++ polygon :: after
           /\ (forall q, In q before -> (getArea q <= getArea polygon)%Q)
           /\ (forall q, In q after -> (getArea q < getArea polygon)%Q)
  | None => forall q, In q features -> (getArea q < 0)%Q
  end.
Proof.
  unfold getPolygon.
  assert (Hstart : lastLargestSoFar [] (None, None)) by (intros q []).
  pose proof (getPolygon_loop_lastLargest features [] (None, None) Hstart) as Hinv.
  cbn [app] in Hinv.
  destruct (fold_left getPolygonStep features (None, None)) as [[p|] [a|]];
    cbn [fst lastLargestSoFar] in *; try contradiction.
  - destruct Hinv as [_ [Hpos Hsplit]]. split; assumption.
  - exact Hinv.
Qed.

(** X9: [createFixedPolygon] throws only when the envelope does: it throws
    [e] exactly when the unkinking stage threw and the envelope of the
    cleaned points throws [e]. Otherwise it returns a geometry. *)
Theorem createFixedPolygon_throws_iff (ring : list Coord) (e : Error) :
  createFixedPolygon ring = Throw e
  <-> (exists e', unkinkLargest (removeOverlapPoints (removeDuplicates ring))
                  = Throw e')
      /\ envelope (removeOverlapPoints (removeDuplicates ring)) = Throw e.
Proof.
  unfold createFixedPolygon. cbv zeta.
  set (cleaned := removeOverlapPoints (removeDuplicates ring)).
  split.
  - intro H.
    destruct (unkinkLargest cleaned) as [g|e'] eqn:Eun; cbn [tryCatch] in H;
      [discriminate H|].
    split; [exists e'; reflexivity|].
    destruct (envelope cleaned) as [g|e''] eqn:Eenv; cbn [tryCatch] in H;
      [discriminate H | exact H].
  - intros [[e' Hun] Henv]. rewrite Hun. cbn [tryCatch]. rewrite Henv.
    reflexivity.
Qed.

End RepairMore.

(** ** More on the boundary resolver *)

Section ResolverMore.

Context {L : Libraries}.

(** X10: resolving a boundary in two parts. The definitions of the second
    part are resolved in the converter the first part leaves; when the first
    part throws, the second is not looked at. *)
Theorem resolveBoundary_app (this : AirspaceConverter)
    (first second : list BoundaryDefinition) :
  resolveBoundary this (first ++ second)
  = match resolveBoundary this first with
    | (Ok _, this') => resolveBoundary this' second
    | (Throw e, this') => (Throw e, this')
    end.
Proof.
  revert this.
  induction first as [|d first IH]; intro this; cbn [app resolveBoundary].
  - reflexivity.
  - destruct (resolveDefinition this d) as [coordinates|e]; [apply IH | reflexivity].
Qed.

(** The loop writes to [boundaryCoordinates] only, and only at its end. *)
Lemma resolveBoundary_frame (this : AirspaceConverter)
    (boundary : list BoundaryDefinition) :
  let this' := snd (resolveBoundary this boundary) in
  config this' = config this /\ ident this' = ident this
  /\ seqno this' = seqno this
  /\ exists added,
       boundaryCoordinates this' = boundaryCoordinates this ++ added.
Proof.
  revert this.
  induction boundary as [|d boundary IH]; intro this; cbn [resolveBoundary].
  - cbn [snd]. repeat split. exists []. symmetry. apply app_nil_r.
  - destruct (resolveDefinition this d) as [coordinates|e].
    + specialize (IH (setBoundaryCoordinates this
                        (boundaryCoordinates this ++ coordinates))).
      cbv zeta in *. cbn [setBoundaryCoordinates config ident seqno
                          boundaryCoordinates] in IH.
      destruct IH as [Hc [Hi [Hs [added Ha]]]].
      repeat split; try assumption.
      exists (coordinates ++ added). rewrite Ha, app_assoc. reflexivity.
    + cbn [snd]. repeat split. exists []. symmetry. apply app_nil_r.
Qed.

(** X11: [createPolygonGeometry] does not start from an empty sequence of
    its own. It leaves [config], [ident] and [seqno] as they are, and the
    ring it returns is assembled from the coordinates the converter held
    already, followed by those of the boundary: without a [reset()] in
    between, a second boundary continues the first. *)
Theorem createPolygonGeometry_continues (this : AirspaceConverter)
    (boundary : list BoundaryDefinition) :
  let this' := snd (createPolygonGeometry this boundary) in
  config this' = config this /\ ident this' = ident this
  /\ seqno this' = seqno this
  /\ forall g,
       fst (createPolygonGeometry this boundary) = Ok g ->
       exists added,
         coordinates g
         = [rewindRing (autoCompleteCoords (boundaryCoordinates this ++ added))]
         /\ boundaryCoordinates this'
            = rewindRing (autoCompleteCoords (boundaryCoordinates this ++ added)).
Proof.
  pose proof (resolveBoundary_frame this boundary) as Hframe. cbv zeta in Hframe.
  unfold createPolygonGeometry.
  destruct (resolveBoundary this boundary) as [[[]|e] this1] eqn:Eres;
    cbn [snd] in Hframe; destruct Hframe as [Hc [Hi [Hs [added Ha]]]].
  - unfold createLineString, lineToPolygon.
    destruct (List.length (autoCompleteCoords (boundaryCoordinates this1)) <? 4)%nat.
    + cbn [fst snd setBoundaryCoordinates config ident seqno].
      repeat split; try assumption. intros g Hg. discriminate Hg.
    + cbn [fst snd rewind coordinates hd setBoundaryCoordinates config ident seqno
           boundaryCoordinates].
      repeat split; try assumption.
      intros g Hg. injection Hg as Hg. subst g. exists added.
      rewrite Ha. split; reflexivity.
  - cbn [fst snd]. repeat split; try assumption. intros g Hg. discriminate Hg.
Qed.

Lemma lineCoords_Ok_iff (this : AirspaceConverter)
    (boundaryDefinition : BoundaryDefinition) (tokens : list string)
    (coords : list Coord) :
  lineCoords this boundaryDefinition tokens = Ok coords
  <-> Forall2 (fun token coord =>
                 REGEX_COORDINATES token = true
                 /\ transformCoordinates this token = Ok coord)
        tokens coords.
Proof.
  revert coords.
  induction tokens as [|token tokens IH]; intro coords; cbn [lineCoords].
  - split.
    + intro H. injection H as H. subst coords. constructor.
    + intro H. inversion H. reflexivity.
  - split.
    + intro H.
      destruct (REGEX_COORDINATES token) eqn:Ematch; [|discriminate H].
      destruct (transformCoordinates this token) as [coord|] eqn:Ecoord;
        [|discriminate H].
      cbn [bind] in H.
      destruct (lineCoords this boundaryDefinition tokens) as [rest|] eqn:Erest;
        [|discriminate H].
      cbn [bind] in H. injection H as H. subst coords.
      constructor; [split; [exact Ematch | exact Ecoord]|].
      apply IH. reflexivity.
    + intro H. inversion H as [|t c ts cs [Hmatch Hcoord] Hrest]; subst.
      rewrite Hmatch, Hcoord. cbn [bind].
      apply IH in Hrest. rewrite Hrest. reflexivity.
Qed.

(** X12: when a line resolves. [createCoordinatesFromLine] returns
    coordinates exactly when the array is not empty and every token matches
    the coordinate pattern and is decoded; the coordinates are the decoded
    tokens, one for one and in order. *)
Theorem createCoordinatesFromLine_Ok_iff (this : AirspaceConverter)
    (boundaryDefinition : BoundaryDefinition) (tokens : list string)
    (coords : list Coord) :
  createCoordinatesFromLine this boundaryDefinition (Some tokens) = Ok coords
  <-> tokens <> []
      /\ Forall2 (fun token coord =>
                    REGEX_COORDINATES token = true
                    /\ transformCoordinates this token = Ok coord)
           tokens coords.
Proof.
  unfold createCoordinatesFromLine.
  destruct tokens as [|token tokens].
  - split; [discriminate | intros [H _]; contradiction].
  - rewrite lineCoords_Ok_iff. split; [intro H; split; [discriminate | exact H]|].
    intros [_ H]. exact H.
Qed.

Lemma transformCoordinates_same_ident (this : AirspaceConverter)
    (cs : list Coord) (s : string) :
  transformCoordinates (setBoundaryCoordinates this cs) s
  = transformCoordinates this s.
Proof. reflexivity. Qed.

(** X13: a counter-clockwise arc is the clockwise arc back, reversed. When
    the clockwise arc from [B] to [A] around a centre resolves to [points],
    the counter-clockwise arc from [A] to [B] around the same centre with
    the same radius resolves to [points] reversed: both make the one call
    of [lineArc], from the bearing of [B] to the bearing of [A]. *)
Theorem arc_counter_clockwise_mirrors_clockwise (this : AirspaceConverter)
    (beforeA beforeB : list Coord) (A B : Coord)
    (radiusS centreS toA toB : string)
    (definitionCw definitionCcw : BoundaryDefinition) (points : list Coord) :
  REGEX_COORDINATES toB = true ->
  transformCoordinates this toA = Ok A ->
  transformCoordinates this toB = Ok B ->
  createCoordinatesFromArc (setBoundaryCoordinates this (beforeB ++ [B]))
    definitionCw
    (Some {| dir := Some "cw"%string; radius := Some radiusS;
             centre := Some centreS; to := Some toA |})
  = Ok points ->
  createCoordinatesFromArc (setBoundaryCoordinates this (beforeA ++ [A]))
    definitionCcw
    (Some {| dir := Some "ccw"%string; radius := Some radiusS;
             centre := Some centreS; to := Some toB |})
  = Ok (rev points).
Proof.
  intros RtoB HA HB Hcw.
  apply createCoordinatesFromArc_Ok in Hcw.
  destruct Hcw as [from [dirS [radius' [centre' [to' [center [toPoint [arcPoints
    [Hfrom [Hdir [Hradius [Hcentre [Hto [_ [Rradius [Rcentre [_ [Hc [Ht
    [Harc Hpoints]]]]]]]]]]]]]]]]]]]].
  cbn [dir radius centre to boundaryCoordinates setBoundaryCoordinates] in *.
  injection Hdir as <-. injection Hradius as <-. injection Hcentre as <-.
  injection Hto as <-.
  rewrite lastCoordOf_snoc in Hfrom. injection Hfrom as <-.
  rewrite transformCoordinates_same_ident in Hc, Ht.
  rewrite HA in Ht. injection Ht as <-.
  cbn in Harc, Hpoints. subst points.
  unfold createCoordinatesFromArc.
  cbn [dir radius centre to boundaryCoordinates setBoundaryCoordinates test].
  rewrite lastCoordOf_snoc, Rradius, Rcentre, RtoB.
  cbn [REGEX_ARC_DIR negb].
  change (negb (REGEX_ARC_DIR "ccw")) with false. cbv iota.
  rewrite !transformCoordinates_same_ident, Hc, HB. cbn [bind].
  change (String.eqb "ccw" "cw") with false. cbv iota.
  cbn [config setBoundaryCoordinates] in *.
  rewrite Harc. reflexivity.
Qed.

Lemma hd_error_rev_last (cs : list Coord) : hd_error (rev cs) = lastCoordOf cs.
Proof.
  destruct cs as [|c cs]; [reflexivity|].
  rewrite (hd_error_rev (c :: cs) c) by discriminate.
  symmetry. apply lastCoordOf_last. discriminate.
Qed.

(** X14: the points of an arc. A clockwise arc is the list [lineArc]
    generated from the bearing of the point before the arc to the bearing
    of [to], as it is; a counter-clockwise arc is the list [lineArc]
    generated from the bearing of [to] to the bearing of the point before
    the arc, reversed, so that it begins with the last point generated and
    ends with the first. *)
Theorem createCoordinatesFromArc_ends (this : AirspaceConverter)
    (boundaryDefinition : BoundaryDefinition) (a : ArcDefinition)
    (points : list Coord) :
  createCoordinatesFromArc this boundaryDefinition (Some a) = Ok points ->
  exists from radiusS centreS toS center toPoint arcPoints,
    lastCoordOf (boundaryCoordinates this) = Some from
    /\ radius a = Some radiusS /\ centre a = Some centreS /\ to a = Some toS
    /\ transformCoordinates this centreS = Ok center
    /\ transformCoordinates this toS = Ok toPoint
    /\ ((dir a = Some "cw"%string
         /\ createArc center (radiusToKm radiusS) (calcBearing center from)
              (calcBearing center toPoint) (geometryDetail (config this))
            = Ok arcPoints
         /\ points = arcPoints
         /\ hd_error points = hd_error arcPoints
         /\ lastCoordOf points = lastCoordOf arcPoints)
        \/ (dir a = Some "ccw"%string
            /\ createArc center (radiusToKm radiusS) (calcBearing center toPoint)
                 (calcBearing center from) (geometryDetail (config this))
               = Ok arcPoints
            /\ points = rev arcPoints
            /\ hd_error points = lastCoordOf arcPoints
            /\ lastCoordOf points = hd_error arcPoints)).
Proof.
  intro H. apply createCoordinatesFromArc_Ok in H.
  destruct H as [from [dirS [radiusS [centreS [toS [center [toPoint [arcPoints
    [Hfrom [Hdir [Hradius [Hcentre [Hto [Rdir [_ [_ [_ [Hc [Ht
    [Harc Hpoints]]]]]]]]]]]]]]]]]]]].
  exists from, radiusS, centreS, toS, center, toPoint, arcPoints.
  repeat (split; [assumption|]).
  unfold REGEX_ARC_DIR in Rdir.
  destruct (String.eqb dirS "cw") eqn:Ecw.
  - left. apply String.eqb_eq in Ecw. subst dirS points. auto.
  - right. cbn [orb] in Rdir. apply String.eqb_eq in Rdir. subst dirS points.
    split; [exact Hdir|]. split; [exact Harc|]. split; [reflexivity|].
    split; [apply hd_error_rev_last | apply lastCoordOf_rev].
Qed.

End ResolverMore.

(** ** Texts: splitting, trimming and reading numbers *)

Lemma append_assoc (s t u : string) :
  ((s ++ t) ++ u = s ++ (t ++ u))%string.
Proof.
  induction s as [|c s IH]; cbn; [reflexivity | rewrite IH; reflexivity].
Qed.

Lemma rev_string_twice (s acc acc' : string) :
  JS.rev_string (JS.rev_string s acc) acc' = JS.rev_string acc (s ++ acc')%string.
Proof.
  revert acc.
  induction s as [|c s IH]; intro acc; cbn [JS.rev_string append].
  - reflexivity.
  - rewrite IH. reflexivity.
Qed.

Lemma rev_string_involutive (s : string) :
  JS.rev_string (JS.rev_string s EmptyString) EmptyString = s.
Proof.
  rewrite rev_string_twice. cbn [JS.rev_string].
  induction s as [|c s IH]; cbn; [reflexivity | rewrite IH; reflexivity].
Qed.

Lemma rev_string_acc (s acc : string) :
  JS.rev_string s acc = (JS.rev_string s EmptyString ++ acc)%string.
Proof.
  revert acc.
  induction s as [|c s IH]; intro acc; cbn [JS.rev_string].
  - reflexivity.
  - rewrite IH, (IH (String c EmptyString)), append_assoc. reflexivity.
Qed.

Lemma rev_string_snoc (s : string) (c : ascii) (acc : string) :
  JS.rev_string (s ++ String c EmptyString) acc = String c (JS.rev_string s acc).
Proof.
  revert acc.
  induction s as [|d s IH]; intro acc; cbn [JS.rev_string append].
  - reflexivity.
  - apply IH.
Qed.

(** Without a blank there is nothing to split. *)
Lemma split_blank_noBlank (s cur : string) :
  noBlank s = true ->
  JS.split_blank s cur = [JS.rev_string (JS.rev_string s cur) EmptyString].
Proof.
  revert cur.
  induction s as [|c s IH]; intros cur H; cbn [JS.split_blank JS.rev_string].
  - reflexivity.
  - cbn [noBlank] in H. apply andb_true_iff in H. destruct H as [Hc Hs].
    apply negb_true_iff in Hc. rewrite Hc. apply IH, Hs.
Qed.

Lemma split_noBlank (s : string) : noBlank s = true -> JS.split s = [s].
Proof.
  intro H. unfold JS.split. rewrite (split_blank_noBlank s EmptyString H).
  rewrite rev_string_involutive. reflexivity.
Qed.

(** The first piece begins with what was collected before. *)
Lemma split_blank_first (s cur : string) :
  exists tail rest,
    JS.split_blank s cur = JS.rev_string cur tail :: rest.
Proof.
  revert cur.
  induction s as [|c s IH]; intro cur; cbn [JS.split_blank].
  - exists EmptyString, []. reflexivity.
  - destruct (Ascii.eqb c " ").
    + exists EmptyString, (JS.split_blank s EmptyString). reflexivity.
    + destruct (IH (String c cur)) as [tail [rest H]].
      exists (String c tail), rest. rewrite H. reflexivity.
Qed.

Lemma digit_not_space (c : ascii) :
  JS.isDigit c = true -> JS.isSpace c = false /\ Ascii.eqb c " " = false.
Proof.
  unfold JS.isDigit, JS.isSpace. intro H.
  apply andb_true_iff in H. destruct H as [H1 H2].
  apply Nat.leb_le in H1. apply Nat.leb_le in H2. split.
  - apply orb_false_iff. split.
    + apply andb_false_iff. right. apply Nat.leb_gt. lia.
    + apply Nat.eqb_neq. lia.
  - apply Ascii.eqb_neq. intro Heq. subst c. cbn in H1. lia.
Qed.

Lemma trimStart_keeps_last (s : string) (c : ascii) :
  JS.isSpace c = false ->
  exists s',
    JS.trimStart (s ++ String c EmptyString) = (s' ++ String c EmptyString)%string.
Proof.
  intro Hc.
  induction s as [|d s IH]; cbn [append JS.trimStart].
  - rewrite Hc. exists EmptyString. reflexivity.
  - destruct (JS.isSpace d); [exact IH|].
    exists (String d s). reflexivity.
Qed.

(** Trimming a text that begins with a character that is no whitespace
    leaves that character in front. *)
Lemma trim_keeps_first (c : ascii) (s : string) :
  JS.isSpace c = false -> exists s', JS.trim (String c s) = String c s'.
Proof.
  intro Hc. unfold JS.trim, JS.trimEnd. cbn [JS.trimStart]. rewrite Hc.
  cbn [JS.rev_string]. rewrite (rev_string_acc s (String c EmptyString)).
  destruct (trimStart_keeps_last (JS.rev_string s EmptyString) c Hc) as [s' Hs'].
  rewrite Hs', rev_string_snoc.
  exists (JS.rev_string s' EmptyString). reflexivity.
Qed.

Lemma readDigits_count (s : string) (acc : Z) (n : nat) :
  (n <= snd (fst (JS.readDigits s acc n)))%nat.
Proof.
  revert acc n.
  induction s as [|c s IH]; intros acc n; cbn [JS.readDigits].
  - cbn. lia.
  - destruct (JS.isDigit c); [|cbn; lia].
    specialize (IH (10 * acc + JS.digitValue c) (S n)). lia.
Qed.

Lemma parseFloat_leading_digit (c : ascii) (s : string) :
  JS.isDigit c = true -> exists q, JS.parseFloat (String c s) = Some q.
Proof.
  intro Hc. unfold JS.parseFloat. cbn [JS.trimStart].
  destruct (digit_not_space c Hc) as [Hs _]. rewrite Hs.
  cbn [JS.readDigits]. rewrite Hc.
  pose proof (readDigits_count s (10 * 0 + JS.digitValue c) 1) as Hn.
  destruct (JS.readDigits s (10 * 0 + JS.digitValue c) 1) as [[int n] rest].
  cbn [fst snd] in Hn.
  destruct n as [|n]; [lia|].
  destruct rest as [|d rest]; [eexists; reflexivity|].
  destruct (Ascii.eqb d ".") eqn:Ed.
  - apply Ascii.eqb_eq in Ed. subst d.
    destruct (JS.readDigits rest 0 0) as [[frac m] rest'].
    eexists. reflexivity.
  - destruct d as [[] [] [] [] [] [] [] []]; try (eexists; reflexivity);
      discriminate Ed.
Qed.

Section TextsOfTheConverter.

Context {L : Libraries}.

(** X15: the pattern lets more through than the decoder can split. A token
    that matches [REGEX_COORDINATES] but holds no blank, its halves parted
    by a tab for one, gets past the pattern and then fails in
    [transformCoordinates]: the line is refused with the message "Failed to
    transform coordinates", not with "Invalid coordinate". *)
Theorem line_token_without_blank (this : AirspaceConverter)
    (boundaryDefinition : BoundaryDefinition) (token : string)
    (rest : list string) :
  REGEX_COORDINATES token = true ->
  noBlank token = true ->
  createCoordinatesFromLine this boundaryDefinition (Some (token :: rest))
  = Throw (FailedToTransformCoordinates token (ident this) (seqno this)).
Proof.
  intros Hmatch Hno. cbn [createCoordinatesFromLine lineCoords].
  rewrite Hmatch. unfold transformCoordinates.
  rewrite (split_noBlank token Hno). reflexivity.
Qed.

(** X16: a radius that matches [REGEX_ARC_RADIUS] always converts:
    [parseFloat] of its first piece is a number, never [NaN]. *)
Theorem radiusToKm_of_valid_radius (radiusS : string) :
  REGEX_ARC_RADIUS radiusS = true -> exists km, radiusToKm radiusS = Some km.
Proof.
  intro Hmatch.
  assert (Hfirst : exists c s, radiusS = String c s /\ JS.isDigit c = true).
  { unfold REGEX_ARC_RADIUS in Hmatch.
    destruct radiusS as [|c s]; [discriminate Hmatch|].
    cbn [JS.readDigits] in Hmatch.
    destruct (JS.isDigit c) eqn:Hc; [|discriminate Hmatch].
    exists c, s. split; [reflexivity | exact Hc]. }
  destruct Hfirst as [c [s [-> Hc]]].
  destruct (digit_not_space c Hc) as [Hspace Hblank].
  unfold radiusToKm, JS.split. cbn [JS.split_blank]. rewrite Hblank.
  destruct (split_blank_first s (String c EmptyString)) as [tail [rest Hsplit]].
  rewrite Hsplit. cbn [hd JS.rev_string].
  destruct (trim_keeps_first c tail Hspace) as [s' Htrim]. rewrite Htrim.
  destruct (parseFloat_leading_digit c s' Hc) as [q Hq]. rewrite Hq.
  eexists. reflexivity.
Qed.

End TextsOfTheConverter.

(** ** The text the coordinate parser is asked *)

Lemma isSpace_blank : JS.isSpace " " = true.
Proof. reflexivity. Qed.

Lemma hemisphere_not_space (c x y : ascii) :
  isOneOf c x y = true -> JS.isSpace x = false -> JS.isSpace y = false ->
  JS.isSpace c = false /\ Ascii.eqb c " " = false.
Proof.
  unfold isOneOf. intros H Hx Hy. apply orb_true_iff in H.
  rewrite !Ascii.eqb_eq in H.
  assert (Hc : JS.isSpace c = false) by (destruct H; subst; assumption).
  split; [exact Hc|]. apply Ascii.eqb_neq. intro Heq. subst c. discriminate Hc.
Qed.

(** Rewrites the tests on characters that are known by hypothesis. *)
Ltac use_characters :=
  repeat match goal with
    | H : JS.isDigit ?c = true |- context [JS.isDigit ?c] => rewrite H
    | H : JS.isSpace ?c = false |- context [JS.isSpace ?c] => rewrite H
    | H : Ascii.eqb ?c " " = false |- context [Ascii.eqb ?c " "] => rewrite H
    | H : isOneOf ?c ?x ?y = true |- context [isOneOf ?c ?x ?y] => rewrite H
    | |- context [JS.isSpace " "] => rewrite isSpace_blank
    | |- context [Ascii.eqb ?c ?c] => rewrite (Ascii.eqb_refl c)
    end.

(** Runs the text functions as far as the characters known allow. *)
Ltac step_text :=
  cbn [digitsExact JS.trimStart JS.trimEnd JS.trim JS.split JS.split_blank
       JS.rev_string JS.substring String.substring Nat.sub Nat.add append
       formatLatitude formatLongitude andb negb hd];
  use_characters.

Section ParserText.

Context {L : Libraries}.

(** X17: what the parser is asked. A token of six digits, N or S, a blank,
    seven digits and E or W matches the coordinate pattern, and
    [transformCoordinates] asks the parser for "DD:MM:SS H,DDD:MM:SS H"
    with the same digits and letters; it returns the longitude before the
    latitude, and the message "Failed to transform coordinates" when the
    parser throws. *)
Theorem transformCoordinates_format (this : AirspaceConverter)
    (a1 a2 a3 a4 a5 a6 h b1 b2 b3 b4 b5 b6 b7 e : ascii) :
  forallb JS.isDigit [a1; a2; a3; a4; a5; a6; b1; b2; b3; b4; b5; b6; b7] = true ->
  isOneOf h "N" "S" = true ->
  isOneOf e "E" "W" = true ->
  let token :=
    string_of_list_ascii
      [a1; a2; a3; a4; a5; a6; h; " "%char; b1; b2; b3; b4; b5; b6; b7; e] in
  let asked :=
    string_of_list_ascii
      [a1; a2; ":"%char; a3; a4; ":"%char; a5; a6; " "%char; h; ","%char;
       b1; b2; b3; ":"%char; b4; b5; ":"%char; b6; b7; " "%char; e] in
  REGEX_COORDINATES token = true
  /\ transformCoordinates this token
     = match Coordinates asked with
       | Some coord => Ok (getLongitude coord, getLatitude coord)
       | None =>
           Throw (FailedToTransformCoordinates token (ident this) (seqno this))
       end.
Proof.
  intros Hdigits Hh He token asked.
  cbn [forallb] in Hdigits.
  repeat (apply andb_true_iff in Hdigits; destruct Hdigits as [?H Hdigits]).
  clear Hdigits.
  repeat match goal with
         | H : JS.isDigit ?c = true |- _ =>
             let Hs := fresh "Hs" in
             let Hb := fresh "Hb" in
             destruct (digit_not_space c H) as [Hs Hb];
             revert H Hs Hb
         end.
  intros.
  destruct (hemisphere_not_space h "N" "S" Hh eq_refl eq_refl) as [Hhs Hhb].
  destruct (hemisphere_not_space e "E" "W" He eq_refl eq_refl) as [Hes Heb].
  subst token asked. cbn [string_of_list_ascii].
  split.
  - unfold REGEX_COORDINATES. repeat step_text. reflexivity.
  - unfold transformCoordinates. repeat step_text. reflexivity.
Qed.

End ParserText.

(** ** Classes and types *)

Section Vocabulary.

Lemma includes_true_iff (list : list string) (s : string) :
  includes list (Some s) = true <-> In s list.
Proof.
  cbn [includes]. rewrite existsb_exists. split.
  - intros [x [Hin Heq]]. apply String.eqb_eq in Heq. subst x. exact Hin.
  - intro Hin. exists s. split; [exact Hin | apply String.eqb_refl].
Qed.

(** The three checks at the head of [mapClassAndType]. *)
Lemma mapClassAndType_passes_checks (this : AirspaceConverter)
    (type localType airspaceClass : option string) :
  isOk (mapClassAndType this type localType airspaceClass) = true ->
  (exists t, type = Some t /\ In t ALLOWED_TYPES)
  /\ (localType = None \/ exists l, localType = Some l /\ In l ALLOWED_LOCALTYPES)
  /\ (airspaceClass = None
      \/ exists c, airspaceClass = Some c /\ In c ALLOWED_CLASSES).
Proof.
  unfold mapClassAndType. intro H.
  destruct (includes ALLOWED_TYPES type) eqn:Etype; [|discriminate H].
  cbn [negb] in H.
  destruct type as [t|]; [|discriminate Etype].
  apply includes_true_iff in Etype.
  split; [exists t; auto|].
  destruct localType as [l|].
  - destruct (includes ALLOWED_LOCALTYPES (Some l)) eqn:El; [|discriminate H].
    apply includes_true_iff in El. split; [right; exists l; auto|].
    destruct airspaceClass as [c|]; [|left; reflexivity].
    destruct (includes ALLOWED_CLASSES (Some c)) eqn:Ec; [|discriminate H].
    apply includes_true_iff in Ec. right. exists c. auto.
  - split; [left; reflexivity|].
    destruct airspaceClass as [c|]; [|left; reflexivity].
    destruct (includes ALLOWED_CLASSES (Some c)) eqn:Ec; [|discriminate H].
    apply includes_true_iff in Ec. right. exists c. auto.
Qed.

(** Goes through the texts of a list a text is known to be in. *)
Ltac each_member H :=
  cbn [In ALLOWED_TYPES ALLOWED_LOCALTYPES ALLOWED_CLASSES] in H;
  repeat (destruct H as [H | H]; [symmetry in H; subst|]);
  [..|contradiction].

(** X18. Whatever [mapClassAndType] returns is drawn from a closed
    vocabulary: eleven types, the seven classes and UNCLASSIFIED, and meta
    properties only for OTHER with local type GLIDER and no class, where
    the activity is AEROCLUB_AERIAL_WORK. The cases for D_OTHER, ILS, DZ,
    NOATZ and UL, and with them GLIDING_SECTOR, WARNING, PARACHUTING and
    ULM, are never reached: the checks at the head refuse their inputs. *)
Theorem mapClassAndType_vocabulary (this : AirspaceConverter)
    (type localType airspaceClass : option string) (m : MappedAirspace) :
  mapClassAndType this type localType airspaceClass = Ok m ->
  In (mappedType m)
    ["CTA"; "TMA"; "CTR"; "ATZ"; "DANGER"; "PROHIBITED"; "RESTRICTED"; "MATZ";
     "AERIAL_SPORTING_RECREATIONAL"; "RMZ"; "TMZ"]%string
  /\ In (mappedClass m) ["A"; "B"; "C"; "D"; "E"; "F"; "G"; "UNCLASSIFIED"]%string
  /\ (metaProps m = None
      \/ (type = Some "OTHER"%string /\ localType = Some "GLIDER"%string
          /\ airspaceClass = None
          /\ metaProps m = Some {| activity := "AEROCLUB_AERIAL_WORK" |})).
Proof.
  intro H.
  assert (Hok : isOk (mapClassAndType this type localType airspaceClass) = true)
    by (rewrite H; reflexivity).
  apply mapClassAndType_passes_checks in Hok.
  destruct Hok as [[t [-> Ht]] [Hl Hc]].
  each_member Ht.
  all: destruct Hl as [-> | [l [-> Hl]]]; [|each_member Hl].
  all: destruct Hc as [-> | [c [-> Hc]]]; [|each_member Hc].
  all: vm_compute in H; try discriminate H; injection H as H; subst m.
  all: cbn [mappedType mappedClass metaProps In]; auto 20.
  all: repeat split; auto 20.
Qed.

Ltac settle :=
  solve [ repeat first [ split | eexists | reflexivity ];
          cbn [In ALLOWED_TYPES ALLOWED_LOCALTYPES ALLOWED_CLASSES]; eauto 20 ].

(** X19. [mapClassAndType] returns, rather than throws, exactly for: an
    allowed class with any allowed type but OTHER, the local type absent or
    allowed; no class, type OTHER and an allowed local type; neither class
    nor local type and one of ATZ, D, P, R. *)
Theorem mapClassAndType_succeeds_iff (this : AirspaceConverter)
    (type localType airspaceClass : option string) :
  isOk (mapClassAndType this type localType airspaceClass) = true
  <-> exists t,
        type = Some t
        /\ ((exists c,
                airspaceClass = Some c /\ In c ALLOWED_CLASSES
                /\ In t ["CTA"; "TMA"; "CTR"; "CTR_P"; "ATZ"; "D"; "P"; "R"]%string
                /\ (localType = None
                    \/ exists l, localType = Some l /\ In l ALLOWED_LOCALTYPES))
            \/ (airspaceClass = None /\ t = "OTHER"%string
                /\ exists l, localType = Some l /\ In l ALLOWED_LOCALTYPES)
            \/ (airspaceClass = None /\ localType = None
                /\ In t ["ATZ"; "D"; "P"; "R"]%string)).
Proof.
  split.
  - intro H. pose proof (mapClassAndType_passes_checks _ _ _ _ H) as Hok.
    destruct Hok as [[t [-> Ht]] [Hl Hc]].
    each_member Ht.
    all: destruct Hl as [-> | [l [-> Hl]]]; [|each_member Hl].
    all: destruct Hc as [-> | [c [-> Hc]]]; [|each_member Hc].
    all: vm_compute in H; try discriminate H; clear H.
    all: eexists; split; [reflexivity|].
    all: first [ left; settle | right; left; settle | right; right; settle ].
  - intros [t [-> [H | [H | H]]]].
    + destruct H as [c [-> [Hc [Ht Hl]]]].
      each_member Hc; each_member Ht.
      all: destruct Hl as [-> | [l [-> Hl]]]; [|each_member Hl].
      all: reflexivity.
    + destruct H as [-> [-> [l [-> Hl]]]]. each_member Hl; reflexivity.
    + destruct H as [-> [-> Ht]]. each_member Ht; reflexivity.
Qed.

(** X20. With a class given the local type plays no part in the result:
    what [mapClassAndType] returns with it, it returns without it. *)
Theorem mapClassAndType_ignores_localType (this : AirspaceConverter)
    (type localType : option string) (airspaceClass : string)
    (m : MappedAirspace) :
  mapClassAndType this type localType (Some airspaceClass) = Ok m ->
  mapClassAndType this type None (Some airspaceClass) = Ok m.
Proof.
  intro H.
  assert (Hok : isOk (mapClassAndType this type localType (Some airspaceClass))
                = true) by (rewrite H; reflexivity).
  apply mapClassAndType_passes_checks in Hok.
  destruct Hok as [[t [-> Ht]] [Hl Hc]].
  destruct Hc as [Hc | [c [Hc Hin]]]; [discriminate Hc|].
  injection Hc as ->.
  each_member Ht.
  all: destruct Hl as [-> | [l [-> Hl]]]; [exact H | each_member Hl].
  all: each_member Hin.
  all: vm_compute in H; try discriminate H; injection H as H; subst m.
  all: reflexivity.
Qed.

End Vocabulary.

(** ** Ceilings *)

Lemma spanDigits_allDigits_app (digits rest : string) :
  allDigits digits = true ->
  JSText.spanDigits rest = (EmptyString, rest) ->
  JSText.spanDigits (digits ++ rest) = (digits, rest).
Proof.
  intros Hd Hrest. induction digits as [|c digits IH].
  - exact Hrest.
  - cbn [allDigits] in Hd. apply andb_true_iff in Hd. destruct Hd as [Hc Hd].
    cbn [append JSText.spanDigits]. rewrite Hc, (IH Hd). reflexivity.
Qed.

Lemma spanDigits_allDigits (digits : string) :
  allDigits digits = true -> JSText.spanDigits digits = (digits, EmptyString).
Proof.
  intro Hd. induction digits as [|c digits IH]; [reflexivity|].
  cbn [allDigits] in Hd. apply andb_true_iff in Hd. destruct Hd as [Hc Hd].
  cbn [JSText.spanDigits]. rewrite Hc, (IH Hd). reflexivity.
Qed.

Lemma spanDigits_head (s whole rest : string) (c : ascii) :
  JSText.spanDigits s = (String c whole, rest) -> JS.isDigit c = true.
Proof.
  destruct s as [|a s]; cbn [JSText.spanDigits]; [discriminate|].
  destruct (JS.isDigit a) eqn:Ha; [|discriminate].
  destruct (JSText.spanDigits s) as [d r]. intro H. injection H as -> _ _.
  exact Ha.
Qed.

Lemma trimStart_allSpaces_app (ws r : string) :
  allSpaces ws = true -> JS.trimStart (ws ++ r) = JS.trimStart r.
Proof.
  intro Hws. induction ws as [|c ws IH]; [reflexivity|].
  cbn [allSpaces] in Hws. apply andb_true_iff in Hws. destruct Hws as [Hc Hws].
  cbn [append JS.trimStart]. rewrite Hc. exact (IH Hws).
Qed.

Lemma trimStart_allSpaces (ws : string) :
  allSpaces ws = true -> JS.trimStart ws = EmptyString.
Proof.
  intro Hws. induction ws as [|c ws IH]; [reflexivity|].
  cbn [allSpaces] in Hws. apply andb_true_iff in Hws. destruct Hws as [Hc Hws].
  cbn [JS.trimStart]. rewrite Hc. exact (IH Hws).
Qed.

Lemma readDigits_allDigits (digits : string) (acc : Z) (n : nat) :
  allDigits digits = true ->
  exists v, JS.readDigits digits acc n
            = (v, (n + String.length digits)%nat, EmptyString).
Proof.
  revert acc n. induction digits as [|c digits IH]; intros acc n Hd.
  - exists acc. cbn. rewrite Nat.add_0_r. reflexivity.
  - cbn [allDigits] in Hd. apply andb_true_iff in Hd. destruct Hd as [Hc Hd].
    cbn [JS.readDigits]. rewrite Hc.
    destruct (IH (10 * acc + JS.digitValue c) (S n) Hd) as [v Hv].
    exists v. rewrite Hv. cbn [String.length]. f_equal. f_equal. lia.
Qed.

Lemma parseFloat_allDigits (c : ascii) (digits : string) :
  allDigits (String c digits) = true ->
  JS.parseFloat (String c digits)
  = Some (inject_Z (JSText.digitsValue (String c digits))).
Proof.
  intro Hd. unfold JS.parseFloat, JSText.digitsValue.
  pose proof Hd as Hd'. cbn [allDigits] in Hd'.
  apply andb_true_iff in Hd'. destruct Hd' as [Hc _].
  cbn [JS.trimStart]. destruct (digit_not_space c Hc) as [Hs _]. rewrite Hs.
  destruct (readDigits_allDigits (String c digits) 0 O Hd) as [v Hv].
  rewrite Hv. reflexivity.
Qed.

Lemma digit_not_letter (c : ascii) :
  JS.isDigit c = true ->
  Ascii.eqb c "S" = false /\ Ascii.eqb "F" c = false /\ Ascii.eqb c "." = false.
Proof.
  intro Hc. repeat split; apply Ascii.eqb_neq; intro Heq; subst c;
    discriminate Hc.
Qed.

Lemma space_plain (c : ascii) :
  JS.isSpace c = true -> JS.isDigit c = false /\ Ascii.eqb c "." = false.
Proof.
  intro Hc. split.
  - destruct (JS.isDigit c) eqn:Hd; [|reflexivity].
    destruct (digit_not_space c Hd) as [Hs _]. congruence.
  - apply Ascii.eqb_neq. intro Heq. subst c. discriminate Hc.
Qed.

Lemma plainStart_spaces (ws r : string) :
  allSpaces ws = true -> plainStart r = true -> plainStart (ws ++ r) = true.
Proof.
  intros Hws Hr. destruct ws as [|c ws]; [exact Hr|].
  cbn [allSpaces] in Hws. apply andb_true_iff in Hws. destruct Hws as [Hc _].
  destruct (space_plain c Hc) as [Hd Hp].
  cbn [append plainStart]. rewrite Hd, Hp. reflexivity.
Qed.

Lemma spanDigits_plainStart (rest : string) :
  plainStart rest = true -> JSText.spanDigits rest = (EmptyString, rest).
Proof.
  destruct rest as [|c rest]; [reflexivity|].
  cbn [plainStart JSText.spanDigits]. intro H.
  apply andb_true_iff in H. destruct H as [H _].
  apply negb_true_iff in H. rewrite H. reflexivity.
Qed.

Lemma trimStart_letter (c : ascii) (r : string) :
  JS.isSpace c = false -> JS.trimStart (String c r) = String c r.
Proof. intro H. cbn [JS.trimStart]. rewrite H. reflexivity. Qed.

Lemma stripPrefix_app (prefix r : string) :
  JSText.stripPrefix prefix (prefix ++ r) = Some r.
Proof.
  induction prefix as [|p prefix IH]; [reflexivity|].
  cbn [append JSText.stripPrefix]. rewrite Ascii.eqb_refl. exact IH.
Qed.

Lemma stripPrefix_differs (p c : ascii) (prefix r : string) :
  Ascii.eqb p c = false ->
  JSText.stripPrefix (String p prefix) (String c r) = None.
Proof. intro H. cbn [JSText.stripPrefix]. rewrite H. reflexivity. Qed.

(** The feet pattern on a whole number followed by blanks, a unit or none,
    blanks, and the surface mark or none. *)
Lemma exec_CEILING_FEET_whole (c : ascii) (digits ws u ws' m : string) :
  allDigits (String c digits) = true ->
  allSpaces ws = true -> allSpaces ws' = true ->
  In u [""; "ft"; "FT"]%string -> In m [""; "SFC"]%string ->
  exec_CEILING_FEET (String c digits ++ ws ++ u ++ ws' ++ m)
  = Some {| feetNumber := String c digits;
            feetUnit := if String.eqb u "" then None else Some u;
            feetSurface := if String.eqb m "" then None else Some "SFC"%string |}.
Proof.
  intros Hd Hws Hws' Hu Hm.
  assert (Hm' : plainStart m = true /\ JS.trimStart m = m
                /\ JSText.stripPrefix "ft" m = None
                /\ JSText.stripPrefix "FT" m = None).
  { cbn [In] in Hm. destruct Hm as [<- | [<- | []]]; repeat split. }
  destruct Hm' as [Hpm [Htm [Hft HFT]]].
  assert (Htail : JS.trimStart (ws' ++ m) = m).
  { rewrite (trimStart_allSpaces_app ws' m Hws'). exact Htm. }
  assert (Hplain : plainStart (ws ++ u ++ ws' ++ m) = true).
  { apply plainStart_spaces; [exact Hws|].
    cbn [In] in Hu. destruct Hu as [<- | [<- | [<- | []]]]; [|reflexivity..].
    cbn [append]. apply plainStart_spaces; assumption. }
  unfold exec_CEILING_FEET.
  rewrite (spanDigits_allDigits_app _ _ Hd (spanDigits_plainStart _ Hplain)).
  assert (Hnumber :
    match (ws ++ u ++ ws' ++ m)%string with
    | String a r =>
        if Ascii.eqb a "." then
          let '(fraction, r') := JSText.spanDigits r in
          match fraction with
          | EmptyString => (String c digits, (ws ++ u ++ ws' ++ m)%string)
          | String _ _ => ((String c digits ++ "." ++ fraction)%string, r')
          end
        else (String c digits, (ws ++ u ++ ws' ++ m)%string)
    | EmptyString => (String c digits, (ws ++ u ++ ws' ++ m)%string)
    end = (String c digits, (ws ++ u ++ ws' ++ m)%string)).
  { destruct (ws ++ u ++ ws' ++ m)%string as [|a r]; [reflexivity|].
    cbn [plainStart] in Hplain. apply andb_true_iff in Hplain.
    destruct Hplain as [_ Ha]. apply negb_true_iff in Ha. rewrite Ha.
    reflexivity. }
  rewrite Hnumber. cbv zeta.
  rewrite (trimStart_allSpaces_app ws _ Hws).
  cbn [In] in Hu. destruct Hu as [<- | [<- | [<- | []]]].
  - cbn [append]. rewrite Htail, Hft, HFT, Htm.
    cbn [In] in Hm. destruct Hm as [<- | [<- | []]]; reflexivity.
  - change ("ft" ++ ws' ++ m)%string with (String "f" (String "t" (ws' ++ m))).
    rewrite (trimStart_letter "f" _ eq_refl).
    change (String "f" (String "t" (ws' ++ m))) with ("ft" ++ (ws' ++ m))%string.
    rewrite stripPrefix_app, Htail.
    cbn [In] in Hm. destruct Hm as [<- | [<- | []]]; reflexivity.
  - change ("FT" ++ ws' ++ m)%string with (String "F" (String "T" (ws' ++ m))).
    rewrite (trimStart_letter "F" _ eq_refl).
    rewrite (stripPrefix_differs "f" "F" _ _ eq_refl).
    change (String "F" (String "T" (ws' ++ m))) with ("FT" ++ (ws' ++ m))%string.
    rewrite stripPrefix_app, Htail.
    cbn [In] in Hm. destruct Hm as [<- | [<- | []]]; reflexivity.
Qed.

Lemma append_empty_r (s : string) : (s ++ "")%string = s.
Proof. induction s as [|c s IH]; [reflexivity|]. cbn [append]. now rewrite IH. Qed.

Section Ceilings.

Variable this : AirspaceConverter.

Lemma surface_not_number (c : ascii) (s : string) :
  JS.isDigit c = true -> REGEX_CEILING_SURFACE (String c s) = false.
Proof.
  intro Hc. destruct (digit_not_letter c Hc) as [HS _].
  unfold REGEX_CEILING_SURFACE. cbn [String.eqb]. rewrite HS. reflexivity.
Qed.

(** What [createCeiling] makes of a whole number with the given unit and
    surface mark. *)
Lemma createCeiling_whole (c : ascii) (digits ws u ws' m : string) :
  allDigits (String c digits) = true ->
  allSpaces ws = true -> allSpaces ws' = true ->
  In u [""; "ft"; "FT"]%string -> In m [""; "SFC"]%string ->
  createCeiling this (Some (String c digits ++ ws ++ u ++ ws' ++ m)%string)
  = if String.eqb u "" then Throw CeilingTypeError
    else Ok {| ceilingValue :=
                 Some (inject_Z (JSText.digitsValue (String c digits)));
               ceilingUnit := "FT";
               ceilingReferenceDatum :=
                 if String.eqb m "" then "MSL" else "GND" |}.
Proof.
  intros Hd Hws Hws' Hu Hm.
  pose proof Hd as Hc. cbn [allDigits] in Hc. apply andb_true_iff in Hc.
  destruct Hc as [Hc _].
  unfold createCeiling. cbn [test].
  rewrite (exec_CEILING_FEET_whole c digits ws u ws' m Hd Hws Hws' Hu Hm).
  change (String c digits ++ ws ++ u ++ ws' ++ m)%string
    with (String c (digits ++ ws ++ u ++ ws' ++ m)).
  rewrite (surface_not_number c _ Hc).
  cbn [notNullish negb andb feetNumber feetUnit feetSurface].
  rewrite (parseFloat_allDigits c digits Hd).
  cbn [In] in Hu, Hm.
  destruct Hu as [<- | [<- | [<- | []]]]; destruct Hm as [<- | [<- | []]];
    reflexivity.
Qed.

(** X21. A whole number of at most 2^53, which [parseFloat] reads without
    rounding, blanks or none, the unit ft or FT, and blanks or none make a
    ceiling of that number in FT above MSL; with SFC behind it the
    reference is GND. A unit written ft comes out as FT. *)
Theorem createCeiling_feet (digits ws unit ws' : string) :
  allDigits digits = true -> digits <> EmptyString ->
  JSText.digitsValue digits <= 2 ^ 53 ->
  allSpaces ws = true -> allSpaces ws' = true ->
  In unit ["ft"; "FT"]%string ->
  createCeiling this (Some (digits ++ ws ++ unit ++ ws')%string)
  = Ok {| ceilingValue := Some (inject_Z (JSText.digitsValue digits));
          ceilingUnit := "FT"; ceilingReferenceDatum := "MSL" |}
  /\ createCeiling this (Some (digits ++ ws ++ unit ++ ws' ++ "SFC")%string)
     = Ok {| ceilingValue := Some (inject_Z (JSText.digitsValue digits));
             ceilingUnit := "FT"; ceilingReferenceDatum := "GND" |}.
Proof.
  intros Hd Hne _ Hws Hws' Hu.
  destruct digits as [|c digits]; [contradiction Hne; reflexivity|].
  assert (Hu' : In unit [""; "ft"; "FT"]%string) by (right; exact Hu).
  assert (Hunit : String.eqb unit "" = false).
  { cbn [In] in Hu. destruct Hu as [<- | [<- | []]]; reflexivity. }
  split.
  - rewrite <- (append_empty_r ws') at 1.
    rewrite (createCeiling_whole c digits ws unit ws' "" Hd Hws Hws' Hu');
      [|left; reflexivity].
    rewrite Hunit. reflexivity.
  - rewrite (createCeiling_whole c digits ws unit ws' "SFC" Hd Hws Hws' Hu');
      [|right; left; reflexivity].
    rewrite Hunit. reflexivity.
Qed.

(** X22. A number without a unit, with or without SFC behind it, passes
    the feet pattern and then fails where the unit is upper-cased: the
    error is a type error, not the invalid-ceiling message. *)
Theorem createCeiling_number_without_unit (digits ws : string) :
  allDigits digits = true -> digits <> EmptyString -> allSpaces ws = true ->
  createCeiling this (Some (digits ++ ws)%string) = Throw CeilingTypeError
  /\ createCeiling this (Some (digits ++ ws ++ "SFC")%string)
     = Throw CeilingTypeError.
Proof.
  intros Hd Hne Hws.
  destruct digits as [|c digits]; [contradiction Hne; reflexivity|].
  split.
  - rewrite <- (append_empty_r ws).
    exact (createCeiling_whole c digits ws "" "" "" Hd Hws eq_refl
             (or_introl eq_refl) (or_introl eq_refl)).
  - exact (createCeiling_whole c digits ws "" "" "SFC" Hd Hws eq_refl
             (or_introl eq_refl) (or_intror (or_introl eq_refl))).
Qed.

Lemma exec_CEILING_FEET_letter (c : ascii) (s : string) :
  JS.isDigit c = false -> exec_CEILING_FEET (String c s) = None.
Proof.
  intro Hc. unfold exec_CEILING_FEET. cbn [JSText.spanDigits]. rewrite Hc.
  reflexivity.
Qed.

(** X23. FL, blanks or none, and digits that make a number of at most
    2^53, which [parseInt] reads without rounding: with two digits or more
    the ceiling is that flight level on STD; with no digit at all it is a
    flight level whose value is [NaN]; with one digit the definition is
    refused. *)
Theorem createCeiling_flight_level (ws digits : string) :
  allSpaces ws = true -> allDigits digits = true ->
  JSText.digitsValue digits <= 2 ^ 53 ->
  createCeiling this (Some ("FL" ++ ws ++ digits)%string)
  = if String.eqb digits "" then
      Ok {| ceilingValue := None; ceilingUnit := "FL";
            ceilingReferenceDatum := "STD" |}
    else if (2 <=? String.length digits)%nat then
      Ok {| ceilingValue := Some (inject_Z (JSText.digitsValue digits));
            ceilingUnit := "FL"; ceilingReferenceDatum := "STD" |}
    else
      Throw (InvalidCeilingDefinition (Some ("FL" ++ ws ++ digits)%string)
               (ident this) (seqno this)).
Proof.
  intros Hws Hd _.
  unfold createCeiling. cbn [test].
  change ("FL" ++ ws ++ digits)%string with (String "F" (String "L" (ws ++ digits))).
  rewrite (exec_CEILING_FEET_letter "F" _ eq_refl).
  change (REGEX_CEILING_SURFACE (String "F" (String "L" (ws ++ digits))))
    with false.
  unfold exec_CEILING_FLIGHT_LEVEL.
  change (String "F" (String "L" (ws ++ digits))) with ("FL" ++ (ws ++ digits))%string.
  rewrite stripPrefix_app, (trimStart_allSpaces_app ws digits Hws).
  destruct digits as [|c digits]; [reflexivity|].
  pose proof Hd as Hc. cbn [allDigits] in Hc. apply andb_true_iff in Hc.
  destruct Hc as [Hc _]. destruct (digit_not_space c Hc) as [Hs _].
  rewrite (trimStart_letter c digits Hs).
  rewrite (spanDigits_allDigits _ Hd).
  change (String.eqb (String c digits) "") with false. cbv iota.
  change (String.eqb "" "") with true. cbn [andb].
  destruct (2 <=? String.length (String c digits))%nat; reflexivity.
Qed.


(** What the feet pattern captures: a number that begins with a digit, the
    unit as written or none, the surface mark or none. *)
Lemma exec_CEILING_FEET_parts (s : string) (p : FeetParts) :
  exec_CEILING_FEET s = Some p ->
  (exists c r, feetNumber p = String c r /\ JS.isDigit c = true)
  /\ In (feetUnit p) [None; Some "ft"; Some "FT"]%string
  /\ In (feetSurface p) [None; Some "SFC"]%string.
Proof.
  unfold exec_CEILING_FEET.
  destruct (JSText.spanDigits s) as [whole rest] eqn:Es.
  destruct whole as [|c whole]; [discriminate|].
  pose proof (spanDigits_head _ _ _ _ Es) as Hc.
  match goal with
  | |- context [let '(number, afterNumber) := ?e in _] =>
      assert (Hnumber : exists r, fst e = String c r)
  end.
  { destruct rest as [|a rest]; [exists whole; reflexivity|].
    destruct (Ascii.eqb a "."); [|exists whole; reflexivity].
    destruct (JSText.spanDigits rest) as [fraction r'].
    destruct fraction; eexists; reflexivity. }
  match goal with
  | |- context [let '(number, afterNumber) := ?e in _] =>
      destruct e as [number afterNumber]
  end.
  cbn [fst] in Hnumber. destruct Hnumber as [r ->].
  match goal with
  | |- context [let '(unit, afterUnit) := ?e in _] =>
      assert (Hunit : In (fst e) [None; Some "ft"; Some "FT"]%string)
  end.
  { destruct (JSText.stripPrefix "ft" (JS.trimStart afterNumber));
      [right; left; reflexivity|].
    destruct (JSText.stripPrefix "FT" (JS.trimStart afterNumber));
      [right; right; left; reflexivity | left; reflexivity]. }
  match goal with
  | |- context [let '(unit, afterUnit) := ?e in _] =>
      destruct e as [unit afterUnit]
  end.
  cbn [fst] in Hunit.
  destruct (String.eqb (JS.trimStart afterUnit) "").
  - intro H. injection H as <-. cbn [feetNumber feetUnit feetSurface].
    split; [exists c, r; auto|]. split; [exact Hunit | left; reflexivity].
  - destruct (String.eqb (JS.trimStart afterUnit) "SFC"); [|discriminate].
    intro H. injection H as <-. cbn [feetNumber feetUnit feetSurface].
    split; [exists c, r; auto|]. split; [exact Hunit | right; left; reflexivity].
Qed.

(** X24. Every ceiling [createCeiling] returns is in FT with reference GND
    or MSL and a value that is a number, or in FL with reference STD. *)
Theorem createCeiling_vocabulary (ceilingDefinition : option string)
    (ceiling : Ceiling) :
  createCeiling this ceilingDefinition = Ok ceiling ->
  (ceilingUnit ceiling = "FT"%string
   /\ In (ceilingReferenceDatum ceiling) ["GND"; "MSL"]%string
   /\ exists value, ceilingValue ceiling = Some value)
  \/ (ceilingUnit ceiling = "FL"%string
      /\ ceilingReferenceDatum ceiling = "STD"%string).
Proof.
  unfold createCeiling.
  destruct ceilingDefinition as [s|]; cbn [test]; [|discriminate].
  destruct (exec_CEILING_FEET s) as [p|] eqn:Ef;
    destruct (exec_CEILING_FLIGHT_LEVEL s) as [g|];
    destruct (REGEX_CEILING_SURFACE s);
    cbn [notNullish negb andb]; try discriminate.
  all: try (intro H; injection H as <-; left; cbn; split; [reflexivity|];
            split; [left; reflexivity | eexists; reflexivity]).
  all: try (intro H; injection H as <-; right; split; reflexivity).
  all: destruct (exec_CEILING_FEET_parts s p Ef) as [[c [r [Hn Hc]]] [Hu Hm]].
  all: rewrite Hn; destruct (parseFloat_leading_digit c r Hc) as [q ->].
  all: cbn [In] in Hu, Hm.
  all: destruct Hu as [<- | [<- | [<- | []]]]; try discriminate.
  all: destruct Hm as [<- | [<- | []]].
  all: intro H; injection H as <-; left; cbn.
  all: split; [reflexivity|]; split; [auto | eexists; reflexivity].
Qed.

End Ceilings.

(** ** Ground services *)

Section GroundServices.

Lemma findGroundService_cons (id : string) (service : Service)
    (rest : list Service) :
  findGroundService id (service :: rest)
  = if controlsId id service then
      match frequency service with
      | Some text =>
          Ok (Some {| groundCallsign := callsign service;
                      groundFrequency := text |})
      | None => Throw tt
      end
    else findGroundService id rest.
Proof. reflexivity. Qed.

(** The loop stops at the first service that controls the airspace. *)
Lemma findGroundService_first (id : string) (pre post : list Service)
    (s : Service) :
  existsb (controlsId id) pre = false -> controlsId id s = true ->
  findGroundService id (pre ++ s :: post)
  = match frequency s with
    | Some text =>
        Ok (Some {| groundCallsign := callsign s; groundFrequency := text |})
    | None => Throw tt
    end.
Proof.
  intros Hpre Hs. induction pre as [|p pre IH].
  - cbn [app]. rewrite findGroundService_cons, Hs. reflexivity.
  - cbn [existsb] in Hpre. apply orb_false_iff in Hpre.
    destruct Hpre as [Hp Hpre].
    cbn [app]. rewrite findGroundService_cons, Hp. exact (IH Hpre).
Qed.

Lemma findGroundService_none (id : string) (services : list Service) :
  existsb (controlsId id) services = false ->
  findGroundService id services = Ok None.
Proof.
  intro H. induction services as [|p services IH]; [reflexivity|].
  cbn [existsb] in H. apply orb_false_iff in H. destruct H as [Hp H].
  rewrite findGroundService_cons, Hp. exact (IH H).
Qed.

(** A list of services has a first one that controls the airspace, or
    none. *)
Lemma first_controlling (id : string) (services : list Service) :
  existsb (controlsId id) services = false
  \/ exists pre s post,
       services = pre ++ s :: post
       /\ existsb (controlsId id) pre = false /\ controlsId id s = true.
Proof.
  induction services as [|p services IH]; [left; reflexivity|].
  destruct (controlsId id p) eqn:Hp.
  - right. exists [], p, services. auto.
  - destruct IH as [IH | [pre [s [post [-> [Hpre Hs]]]]]].
    + left. cbn [existsb]. rewrite Hp, IH. reflexivity.
    + right. exists (p :: pre), s, post. cbn [existsb app]. rewrite Hp, Hpre.
      auto.
Qed.

Lemma createGroundServiceProperty_list (c : ascii) (id : string)
    (services : list Service) :
  createGroundServiceProperty (Some (String c id)) (Some (Some services))
  = match findGroundService (String c id) services with
    | Ok found => Ok found
    | Throw _ => Ok None
    end.
Proof. reflexivity. Qed.

(** X25. A ground service is returned exactly when the list has a first
    service that controls the airspace and that service has a frequency;
    what is returned is the callsign and the frequency of that one. *)
Theorem createGroundServiceProperty_found_iff (id : string)
    (services : list Service) (found : GroundService) :
  id <> EmptyString ->
  (createGroundServiceProperty (Some id) (Some (Some services))
   = Ok (Some found)
   <-> exists pre s post,
         services = pre ++ s :: post
         /\ existsb (controlsId id) pre = false
         /\ controlsId id s = true
         /\ frequency s = Some (groundFrequency found)
         /\ callsign s = groundCallsign found).
Proof.
  intro Hid. destruct id as [|c id]; [contradiction Hid; reflexivity|].
  rewrite createGroundServiceProperty_list. split.
  - intro H.
    destruct (first_controlling (String c id) services)
      as [Hnone | [pre [s [post [-> [Hpre Hs]]]]]].
    + rewrite (findGroundService_none _ _ Hnone) in H. discriminate H.
    + rewrite (findGroundService_first _ _ _ _ Hpre Hs) in H.
      exists pre, s, post. destruct (frequency s) as [text|]; [|discriminate H].
      injection H as <-. cbn [groundFrequency groundCallsign]. auto 6.
  - intros [pre [s [post [-> [Hpre [Hs [Hf Hc]]]]]]].
    rewrite (findGroundService_first _ _ _ _ Hpre Hs), Hf, Hc.
    destruct found. reflexivity.
Qed.

(** X26. The answer is [null] exactly when no service controls the
    airspace, or the first one that does has no frequency: the error of
    reading it is caught, and services further down are not looked at. *)
Theorem createGroundServiceProperty_null_iff (id : string)
    (services : list Service) :
  id <> EmptyString ->
  (createGroundServiceProperty (Some id) (Some (Some services)) = Ok None
   <-> existsb (controlsId id) services = false
       \/ exists pre s post,
            services = pre ++ s :: post
            /\ existsb (controlsId id) pre = false
            /\ controlsId id s = true
            /\ frequency s = None).
Proof.
  intro Hid. destruct id as [|c id]; [contradiction Hid; reflexivity|].
  rewrite createGroundServiceProperty_list. split.
  - intro H.
    destruct (first_controlling (String c id) services)
      as [Hnone | [pre [s [post [-> [Hpre Hs]]]]]]; [left; exact Hnone|].
    right. exists pre, s, post.
    rewrite (findGroundService_first _ _ _ _ Hpre Hs) in H.
    destruct (frequency s); [discriminate H | auto].
  - intros [Hnone | [pre [s [post [-> [Hpre [Hs Hf]]]]]]].
    + rewrite (findGroundService_none _ _ Hnone). reflexivity.
    + rewrite (findGroundService_first _ _ _ _ Hpre Hs), Hf. reflexivity.
Qed.

(** X27. [createGroundServiceProperty] throws only for a missing or
    empty id and for a missing services object; nothing that happens in
    the loop reaches the caller. *)
Theorem createGroundServiceProperty_throws_iff (id : option string)
    (services : option (option (list Service))) :
  isOk (createGroundServiceProperty id services) = false
  <-> id = None \/ id = Some EmptyString \/ services = None.
Proof.
  destruct id as [[|c id]|]; cbn [createGroundServiceProperty isOk].
  - split; auto.
  - destruct services as [[list|]|]; cbn [isOk].
    + destruct (findGroundService (String c id) list); cbn [isOk];
        split; [discriminate | intros [H | [H | H]]; discriminate H
               | discriminate | intros [H | [H | H]]; discriminate H].
    + split; [discriminate | intros [H | [H | H]]; discriminate H].
    + split; auto.
  - split; auto.
Qed.

End GroundServices.

(** ** Circles *)

Section Circles.

Context {L : Libraries}.

(** X28. A circle resolves exactly when radius and centre are there and
    match their patterns, the centre can be transformed and the circle
    constructor returns; the coordinates are the constructor's, for the
    radius in kilometres and the configured number of steps, and the
    coordinates resolved before play no part. *)
Theorem createCoordinatesFromCircle_Ok_iff (this : AirspaceConverter)
    (boundaryDefinition : BoundaryDefinition) (value : option CircleDefinition)
    (points : list Coord) :
  createCoordinatesFromCircle this boundaryDefinition value = Ok points
  <-> exists radius centre centerPoint,
        value = Some {| circleRadius := Some radius;
                        circleCentre := Some centre |}
        /\ REGEX_ARC_RADIUS radius = true
        /\ REGEX_COORDINATES centre = true
        /\ transformCoordinates this centre = Ok centerPoint
        /\ createCircle centerPoint (radiusToKm radius)
             (geometryDetail (config this)) = Ok points.
Proof.
  unfold createCoordinatesFromCircle. split.
  - destruct value as [[[radius|] [centre|]]|];
      cbn [circleRadius circleCentre test]; try discriminate.
    destruct (REGEX_ARC_RADIUS radius) eqn:Hr; [|discriminate].
    destruct (REGEX_COORDINATES centre) eqn:Hc; [|discriminate].
    cbn [negb].
    destruct (transformCoordinates this centre) as [centerPoint|e] eqn:Ht;
      [|discriminate].
    cbn [bind]. intro H. exists radius, centre, centerPoint. auto 6.
  - intros [radius [centre [centerPoint [-> [Hr [Hc [Ht Hcircle]]]]]]].
    cbn [circleRadius circleCentre test]. rewrite Hr, Hc, Ht. exact Hcircle.
Qed.

End Circles.

(** ** Further worked examples *)

Section MoreWorkedExamples.

#[local] Existing Instance Stub.libraries.

Import Examples.
Import MoreExamples.

(** X2 at the closed square: its closing point is covered by the first. *)
Lemma removeDuplicates_covers_witness :
  exists y,
    In y (removeDuplicates closedSquare)
    /\ (y = (0, 0) \/ (distance y (0, 0)%Z < 1 # 1000)%Q).
Proof.
  apply (removeDuplicates_covers closedSquare (0, 0)).
  left. reflexivity.
Defined.

(** X3 at the closed square: the closing point adds nothing. *)
Lemma removeDuplicates_drops_repeated_witness :
  removeDuplicates ([(0, 0); (3600, 0); (3600, 3600); (0, 3600)] ++ [(0, 0)])
  = removeDuplicates [(0, 0); (3600, 0); (3600, 3600); (0, 3600)].
Proof.
  apply (removeDuplicates_drops_repeated
           [(0, 0); (3600, 0); (3600, 3600); (0, 3600)] (0, 0)).
  - reflexivity.
  - left. reflexivity.
Defined.

(** X6 at the spike flown from the east. *)
Lemma removeOverlapPoints_three_points_witness :
  removeOverlapPoints [(7200, 0); (0, 0); (3600, 0)]
  = if integerBearing (0, 0) (3600, 0) - 180 =? integerBearing (7200, 0) (0, 0)
    then [(7200, 0); (3600, 0)] else [(7200, 0); (0, 0); (3600, 0)].
Proof.
  apply (removeOverlapPoints_three_points (7200, 0) (0, 0) (3600, 0)).
  exact stubBearing_range.
Defined.

Lemma rightTurn_NoTurnBack : NoTurnBack rightTurn.
Proof.
  intros before a b c after H.
  destruct before as [|p0 [|p1 [|p2 [|p3 before]]]]; cbn in H;
    try discriminate H.
  injection H as <- <- <- _. vm_compute. discriminate.
Qed.

(** X7 at the right turn. *)
Lemma removeOverlapPoints_unchanged_without_turn_back_witness :
  removeOverlapPoints rightTurn = rightTurn.
Proof.
  apply (removeOverlapPoints_unchanged_without_turn_back rightTurn).
  - exact stubBearing_range.
  - exact rightTurn_NoTurnBack.
Defined.

(** X13 at the quarter arc between [north] and [east]. *)
Lemma arc_counter_clockwise_mirrors_clockwise_witness :
  createCoordinatesFromArc (setBoundaryCoordinates converter ([] ++ [east]))
    (arc (Some quarterArcBack))
    (Some {| dir := Some "ccw"%string; radius := Some "10 NM"%string;
             centre := Some "000000N 0000000E"%string;
             to := Some "001000N 0000000E"%string |})
  = Ok (rev [north; east]).
Proof.
  apply (arc_counter_clockwise_mirrors_clockwise converter [] [] east north
           "10 NM" "000000N 0000000E" "000000N 0001000E" "001000N 0000000E"
           (arc (Some quarterArc)) (arc (Some quarterArcBack)) [north; east]);
    reflexivity.
Defined.

(** X14 at the quarter arc after the line to [north]. *)
Lemma createCoordinatesFromArc_ends_witness :
  exists from radiusS centreS toS center toPoint arcPoints,
    lastCoordOf (boundaryCoordinates afterLine) = Some from
    /\ radius quarterArc = Some radiusS /\ centre quarterArc = Some centreS
    /\ to quarterArc = Some toS
    /\ transformCoordinates afterLine centreS = Ok center
    /\ transformCoordinates afterLine toS = Ok toPoint
    /\ ((dir quarterArc = Some "cw"%string
         /\ createArc center (radiusToKm radiusS) (calcBearing center from)
              (calcBearing center toPoint) (geometryDetail (config afterLine))
            = Ok arcPoints
         /\ [north; east] = arcPoints
         /\ hd_error [north; east] = hd_error arcPoints
         /\ lastCoordOf [north; east] = lastCoordOf arcPoints)
        \/ (dir quarterArc = Some "ccw"%string
            /\ createArc center (radiusToKm radiusS) (calcBearing center toPoint)
                 (calcBearing center from) (geometryDetail (config afterLine))
               = Ok arcPoints
            /\ [north; east] = rev arcPoints
            /\ hd_error [north; east] = lastCoordOf arcPoints
            /\ lastCoordOf [north; east] = hd_error arcPoints)).
Proof.
  apply (createCoordinatesFromArc_ends afterLine (arc (Some quarterArc))
           quarterArc [north; east]).
  reflexivity.
Defined.

(** X15 at the token whose halves a tab separates. *)
Lemma line_token_without_blank_witness :
  createCoordinatesFromLine converter (line (Some [tabToken])) (Some [tabToken])
  = Throw (FailedToTransformCoordinates tabToken (Some "EXAMPLE CTA"%string)
             (Some 1)).
Proof.
  apply (line_token_without_blank converter (line (Some [tabToken])) tabToken []);
    reflexivity.
Defined.

(** X16 at ten nautical miles. *)
Lemma radiusToKm_of_valid_radius_witness :
  exists km, radiusToKm "10 NM" = Some km.
Proof.
  apply (radiusToKm_of_valid_radius "10 NM"). reflexivity.
Defined.

(** X17 at ten minutes north on the prime meridian. *)
Lemma transformCoordinates_format_witness :
  REGEX_COORDINATES "001000N 0000000E" = true
  /\ transformCoordinates converter "001000N 0000000E"
     = match Coordinates "00:10:00 N,000:00:00 E" with
       | Some coord => Ok (getLongitude coord, getLatitude coord)
       | None =>
           Throw (FailedToTransformCoordinates "001000N 0000000E"
                    (Some "EXAMPLE CTA"%string) (Some 1))
       end.
Proof.
  apply (transformCoordinates_format converter
           "0" "0" "1" "0" "0" "0" "N" "0" "0" "0" "0" "0" "0" "0" "E")%char;
    reflexivity.
Defined.

(** X18 at a gliding site. *)
Lemma mapClassAndType_vocabulary_witness :
  In "AERIAL_SPORTING_RECREATIONAL"%string
    ["CTA"; "TMA"; "CTR"; "ATZ"; "DANGER"; "PROHIBITED"; "RESTRICTED"; "MATZ";
     "AERIAL_SPORTING_RECREATIONAL"; "RMZ"; "TMZ"]%string
  /\ In "UNCLASSIFIED"%string
       ["A"; "B"; "C"; "D"; "E"; "F"; "G"; "UNCLASSIFIED"]%string
  /\ (Some {| activity := "AEROCLUB_AERIAL_WORK" |} = None
      \/ (Some "OTHER"%string = Some "OTHER"%string
          /\ Some "GLIDER"%string = Some "GLIDER"%string
          /\ @None string = None
          /\ Some {| activity := "AEROCLUB_AERIAL_WORK" |}
             = Some {| activity := "AEROCLUB_AERIAL_WORK" |})).
Proof.
  apply (mapClassAndType_vocabulary converter
           (Some "OTHER"%string) (Some "GLIDER"%string) None
           {| mappedType := "AERIAL_SPORTING_RECREATIONAL";
              mappedClass := "UNCLASSIFIED";
              metaProps := Some {| activity := "AEROCLUB_AERIAL_WORK" |} |}).
  reflexivity.
Defined.

(** X20 at a control zone of class D with a local type. *)
Lemma mapClassAndType_ignores_localType_witness :
  mapClassAndType converter (Some "CTR"%string) None (Some "D"%string)
  = Ok {| mappedType := "CTR"; mappedClass := "D"; metaProps := None |}.
Proof.
  apply (mapClassAndType_ignores_localType converter
           (Some "CTR"%string) (Some "RMZ"%string) "D").
  reflexivity.
Defined.

(** X21 at 1500 ft. *)
Lemma createCeiling_feet_witness :
  createCeiling converter (Some "1500 ft"%string)
  = Ok {| ceilingValue := Some (inject_Z 1500);
          ceilingUnit := "FT"; ceilingReferenceDatum := "MSL" |}
  /\ createCeiling converter (Some "1500 ftSFC"%string)
     = Ok {| ceilingValue := Some (inject_Z 1500);
             ceilingUnit := "FT"; ceilingReferenceDatum := "GND" |}.
Proof.
  apply (createCeiling_feet converter "1500" " " "ft" "").
  - reflexivity.
  - discriminate.
  - vm_compute. discriminate.
  - reflexivity.
  - reflexivity.
  - left. reflexivity.
Defined.

(** X22 at the bare 1500. *)
Lemma createCeiling_number_without_unit_witness :
  createCeiling converter (Some "1500"%string) = Throw CeilingTypeError
  /\ createCeiling converter (Some "1500SFC"%string) = Throw CeilingTypeError.
Proof.
  apply (createCeiling_number_without_unit converter "1500" "").
  - reflexivity.
  - discriminate.
  - reflexivity.
Defined.

(** X23 at flight level 65. *)
Lemma createCeiling_flight_level_witness :
  createCeiling converter (Some "FL65"%string)
  = Ok {| ceilingValue := Some (inject_Z 65);
          ceilingUnit := "FL"; ceilingReferenceDatum := "STD" |}.
Proof.
  apply (createCeiling_flight_level converter "" "65");
    [reflexivity | reflexivity | vm_compute; discriminate].
Defined.

(** X24 at the surface. *)
Lemma createCeiling_vocabulary_witness :
  ("FT"%string = "FT"%string
   /\ In "GND"%string ["GND"; "MSL"]%string
   /\ exists value, Some 0%Q = Some value)
  \/ ("FT"%string = "FL"%string /\ "GND"%string = "STD"%string).
Proof.
  apply (createCeiling_vocabulary converter (Some "SFC"%string)
           {| ceilingValue := Some 0%Q; ceilingUnit := "FT";
              ceilingReferenceDatum := "GND" |}).
  reflexivity.
Defined.

(** X25 at the tower, second in the list. *)
Lemma createGroundServiceProperty_found_iff_witness :
  createGroundServiceProperty (Some "example-cta"%string)
    (Some (Some [radar; tower]))
  = Ok (Some {| groundCallsign := Some "EXAMPLE TOWER"%string;
                groundFrequency := "118.1" |})
  <-> exists pre s post,
        [radar; tower] = pre ++ s :: post
        /\ existsb (controlsId "example-cta") pre = false
        /\ controlsId "example-cta" s = true
        /\ frequency s = Some "118.1"%string
        /\ callsign s = Some "EXAMPLE TOWER"%string.
Proof.
  apply (createGroundServiceProperty_found_iff "example-cta" [radar; tower]
           {| groundCallsign := Some "EXAMPLE TOWER"%string;
              groundFrequency := "118.1" |}).
  discriminate.
Defined.

(** X26 at an airspace no service controls. *)
Lemma createGroundServiceProperty_null_iff_witness :
  createGroundServiceProperty (Some "example-atz"%string)
    (Some (Some [radar; tower])) = Ok None
  <-> existsb (controlsId "example-atz") [radar; tower] = false
      \/ exists pre s post,
           [radar; tower] = pre ++ s :: post
           /\ existsb (controlsId "example-atz") pre = false
           /\ controlsId "example-atz" s = true
           /\ frequency s = None.
Proof.
  apply (createGroundServiceProperty_null_iff "example-atz" [radar; tower]).
  discriminate.
Defined.

(** C7 as the code has it, at the quarter arc after the line to
    [north]. *)
Lemma arc_ends_at_bearing_of_to_witness :
  exists from radiusS centreS toS center toPoint arcPoints,
    lastCoordOf (boundaryCoordinates afterLine) = Some from
    /\ radius quarterArc = Some radiusS /\ centre quarterArc = Some centreS
    /\ to quarterArc = Some toS
    /\ transformCoordinates afterLine centreS = Ok center
    /\ transformCoordinates afterLine toS = Ok toPoint
    /\ ((dir quarterArc = Some "cw"%string
         /\ createArc center (radiusToKm radiusS) (calcBearing center from)
              (calcBearing center toPoint) (geometryDetail (config afterLine))
            = Ok arcPoints
         /\ lastCoordOf [north; east] = lastCoordOf arcPoints)
        \/ (dir quarterArc = Some "ccw"%string
            /\ createArc center (radiusToKm radiusS) (calcBearing center toPoint)
                 (calcBearing center from) (geometryDetail (config afterLine))
               = Ok arcPoints
            /\ lastCoordOf [north; east] = hd_error arcPoints))
    /\ forall (otherDefinition : BoundaryDefinition) (otherS : string)
          (otherPoint : Coord),
         REGEX_COORDINATES otherS = true ->
         transformCoordinates afterLine otherS = Ok otherPoint ->
         calcBearing center otherPoint = calcBearing center toPoint ->
         createCoordinatesFromArc afterLine otherDefinition
           (Some {| dir := dir quarterArc; radius := radius quarterArc;
                    centre := centre quarterArc; to := Some otherS |})
         = Ok [north; east].
Proof.
  apply (arc_ends_at_bearing_of_to afterLine (arc (Some quarterArc))
           quarterArc [north; east]).
  reflexivity.
Defined.

(** C7 as the spec states it fails here. The arc has a direction, a
    radius, a centre and a [to] that match their patterns, and a point
    before it, five minutes north of the centre. Its radius is five nautical
    miles and its [to] lies ten minutes east of the centre: the points end
    five minutes east, a twelfth of a degree from [to]. *)
Lemma arc_ends_short_of_to :
  test REGEX_ARC_DIR (dir shortArc) = true
  /\ test REGEX_ARC_RADIUS (radius shortArc) = true
  /\ test REGEX_COORDINATES (centre shortArc) = true
  /\ test REGEX_COORDINATES (to shortArc) = true
  /\ lastCoordOf (boundaryCoordinates afterShortLine) = Some (0, 300)
  /\ transformCoordinates afterShortLine "000000N 0001000E" = Ok east
  /\ createCoordinatesFromArc afterShortLine (arc (Some shortArc)) (Some shortArc)
     = Ok [(0, 300); (300, 0)]
  /\ lastCoordOf [(0, 300); (300, 0)] = Some (300, 0)
  /\ (1 # 1000000 < inject_Z (Z.abs (fst east - 300)) / 3600)%Q.
Proof.
  repeat split; vm_compute; reflexivity.
Qed.

(** The walk of the amended C2 leaves no choice at the walk there and
    back: whatever it retains is the first point and the last. *)
Lemma OverlapWalk_thereAndBack (kept : list Coord) :
  OverlapWalk None thereAndBack kept -> kept = [(7200, 0); (9000, 0)].
Proof.
  intro H. unfold thereAndBack in H.
  inversion H as [| |? ? ? ? kept1 _ H1| | |]; subst.
  change (integerBearing (7200, 0) (0, 0)) with (-90) in H1.
  change (Some (-90)) with (Some (integerBearing (0, 0) (3600, 0) - 180)) in H1.
  apply OverlapWalk_reverse_left_out in H1.
  change (Some (integerBearing (0, 0) (3600, 0) - 180))
    with (Some (integerBearing (3600, 0) (9000, 0) - 180)) in H1.
  apply OverlapWalk_reverse_left_out in H1.
  inversion H1; subst. reflexivity.
Qed.

End MoreWorkedExamples.
